(** * Inventory reconciliation: a shallow embedding of the TypeScript sources

    Embedded source files:
    - the Amazon client (first unnamed source file): [getAccessToken],
      [getAmazonInventory], [updateAmazonInventory];
    - the Mercado Libre client with variations (second unnamed source
      file): [getAccessToken], [getMLInventory], [updateMLInventory]; the
      third unnamed file is the same client without the optional
      [variationId], which is what the reconciliation calls;
    - [src/lib/sync.ts], the reconciliation by sales deltas
      ([syncAllInventory]), module [Sync];
    - the fourth unnamed source file, the reconciliation by direct
      overwrite (another [syncAllInventory]), module [SyncOverwrite];
    - the route handlers [GET] and [POST] of [app/api/inventory/route.ts]
      and [PUT] of [app/api/inventory/[id]/route.ts], module [Routes].

    JavaScript numbers that hold quantities, clock readings and lifetimes
    are integers here ([Z]), with the arithmetic of the integers: the
    embedding covers the numbers on which the doubles of JavaScript are
    exact (up to [2 ^ 53] in absolute value); [x || 0] on a possibly missing number is a
    default; truthiness of a possibly missing string is "present and not
    empty".  Everything the program does not control (clock, HTTP peers,
    database faults, session lookup, process environment) is an oracle of
    the environment [Env], indexed by the number of interactions made so
    far, so that the environment may answer differently each time.
    [console.error] is not modelled. *)

From Stdlib Require Import ZArith List String Bool Lia Arith DecimalString.
From Stdlib Require Import Sorted Permutation.
Import ListNotations.
Local Open Scope string_scope.
Local Open Scope Z_scope.

(** ** JavaScript values the code relies on *)

(** What a [throw] carries: an [Error] with its message, or some other value. *)
Inductive Thrown : Type :=
| ErrorObj (message : string)
| NonError.

(** Completion of an awaited computation. *)
Inductive Outcome (A : Type) : Type :=
| Returned (a : A)
| Raised (e : Thrown).
Arguments Returned {A} a.
Arguments Raised {A} e.

(** [if (s)] on [string | null | undefined]. *)
Definition truthy (s : option string) : bool :=
  match s with
  | Some EmptyString => false
  | Some _ => true
  | None => false
  end.

(** [a || b] on possibly missing strings. *)
Definition orElse (a b : option string) : option string :=
  if truthy a then a else b.

(** [n || 0] on a possibly missing number. *)
Definition orZero (n : option Z) : Z :=
  match n with
  | Some q => q
  | None => 0
  end.

(** [n.toString()] and template interpolation of an integer number: its
    decimal digits.  JavaScript prints the digits of every integer up to
    [2 ^ 53] in absolute value (beyond, the shortest digits that read back
    as the same double, and exponent notation from [10 ^ 21] on); the
    statements that depend on a printed number bound it accordingly. *)
Definition toString (n : Z) : string := NilZero.string_of_int (Z.to_int n).

(** [error instanceof Error ? error.message : fallback]. *)
Definition messageOr (fallback : string) (e : Thrown) : string :=
  match e with
  | ErrorObj m => m
  | NonError => fallback
  end.

(** ** Data model *)

Record Product : Type := mkProduct {
  prod_id : string;
  sku : string;
  name : string;
  warehouseQty : Z;
  amazonQty : Z;
  mlQty : Z;
  amazonAsin : option string;
  mlItemId : option string;
  lastSyncAt : option Z
}.

(** Element of [SyncResult.details] in [src/lib/sync.ts]. *)
Record SalesDetail : Type := mkSalesDetail {
  sd_sku : string;
  previousQty : Z;
  newQty : Z;
  amazonSales : Z;
  mlSales : Z;
  sd_amazonUpdated : bool;
  sd_mlUpdated : bool;
  sd_error : option string
}.

(** Element of [SyncResult.details] in the direct-overwrite variant. *)
Record PushDetail : Type := mkPushDetail {
  pd_sku : string;
  pd_amazonUpdated : bool;
  pd_mlUpdated : bool;
  pd_error : option string
}.

(** The value handed to [JSON.stringify] for the log's [details] column. *)
Inductive LogDetails : Type :=
| SalesDetails (results : list SalesDetail)
| PushDetails (results : list PushDetail)
| ErrorDetails (e : Thrown).

Record SyncLog : Type := mkSyncLog {
  status : string;
  message : string;
  details : LogDetails;
  createdAt : Z
}.

(** The [SyncResult] returned by a reconciliation, over the type of its
    [details] elements. *)
Record SyncResult (D : Type) : Type := mkSyncResult {
  success : bool;
  res_message : string;
  res_details : list D
}.
Arguments mkSyncResult {D} success res_message res_details.
Arguments success {D} s.
Arguments res_message {D} s.
Arguments res_details {D} s.

(** [cachedToken] of the Amazon module. *)
Record AmazonCache : Type := mkAmazonCache {
  ac_token : string;
  ac_expiresAt : Z
}.

(** [cachedMLToken] of the Mercado Libre module. *)
Record MLCache : Type := mkMLCache {
  mc_token : string;
  mc_refreshToken : option string;
  mc_expiresAt : Z
}.

(** ** Wire formats *)

Record AmazonTokens : Type := mkAmazonTokens {
  at_access_token : string;
  at_expires_in : Z
}.

Record MLTokens : Type := mkMLTokens {
  mt_access_token : string;
  mt_refresh_token : option string;
  mt_expires_in : Z
}.

Record InventorySummary : Type := mkInventorySummary {
  totalQuantity : option Z
}.

Record AmazonSummaries : Type := mkAmazonSummaries {
  inventorySummaries : option (list InventorySummary)
}.

Record MLVariation : Type := mkMLVariation {
  var_id : Z;
  var_available_quantity : option Z
}.

Record MLItem : Type := mkMLItem {
  available_quantity : option Z;
  variations : option (list MLVariation)
}.

(** Body of the Mercado Libre [PUT]; the variation id travels as the
    string that the code hands to [parseInt]. *)
Inductive MLPutBody : Type :=
| ItemQuantity (quantity : Z)
| VariationQuantity (variationId : string) (quantity : Z).

(** Requests issued through [fetch]. *)
Inductive Request : Type :=
| AmazonTokenPost (refresh_token client_id client_secret : option string)
| AmazonSummariesGet (accessToken sellerSku : string)
| AmazonSkuQuantitiesPut (accessToken sellerSku : string) (quantity : Z)
| MLTokenPost (client_id client_secret : option string) (refresh_token : string)
| MLItemGet (accessToken itemId : string)
| MLItemPut (accessToken itemId : string) (body : MLPutBody).

(** A [Response]: [ok], the body as text, and what [json()] resolves to. *)
Record Response (T : Type) : Type := mkResponse {
  ok : bool;
  text : string;
  json : Outcome T
}.
Arguments mkResponse {T} ok text json.
Arguments ok {T} r.
Arguments text {T} r.
Arguments json {T} r.

(** Database operations of the Prisma client that the code performs. *)
Inductive DbOp : Type :=
| FindMany
| FindManyOrdered
| UpdateProduct (id : string)
| CreateProduct (sku : string)
| CreateSyncLog
| FindFirstSyncLog.

Record ProcessEnv : Type := mkProcessEnv {
  AMAZON_REFRESH_TOKEN : option string;
  AMAZON_CLIENT_ID : option string;
  AMAZON_CLIENT_SECRET : option string;
  ML_REFRESH_TOKEN : option string;
  ML_CLIENT_ID : option string;
  ML_CLIENT_SECRET : option string
}.

(** The environment.  Each oracle takes the index of the interaction.
    [stringifyFault] says which thrown values [JSON.stringify] cannot
    serialise (a circular object, an object holding a BigInt) and what it
    raises for them; it depends on the value alone. *)
Record Env : Type := mkEnv {
  process_env : ProcessEnv;
  dateNow : nat -> Z;
  amazonTokenEndpoint : nat -> Request -> Outcome (Response AmazonTokens);
  amazonSummariesEndpoint : nat -> Request -> Outcome (Response AmazonSummaries);
  amazonQuantitiesEndpoint : nat -> Request -> Outcome (Response unit);
  mlTokenEndpoint : nat -> Request -> Outcome (Response MLTokens);
  mlItemEndpoint : nat -> Request -> Outcome (Response MLItem);
  mlItemPutEndpoint : nat -> Request -> Outcome (Response unit);
  dbFault : nat -> DbOp -> option Thrown;
  serverSession : nat -> bool;
  newProductId : nat -> string;
  schemaDefaultQty : Z;
  stringifyFault : Thrown -> option Thrown
}.

(** The state the program owns or writes: module-level token caches, the
    two database tables, and the log of requests sent so far. *)
Record World : Type := mkWorld {
  tick : nat;
  cachedToken : option AmazonCache;
  cachedMLToken : option MLCache;
  products : list Product;
  syncLogs : list SyncLog;
  sent : list Request
}.

Definition initialWorld (rows : list Product) : World :=
  mkWorld 0 None None rows [] [].

(** ** Computations: state passing with exceptions

    A computation over a state [S] returns or raises, and in both cases
    leaves a state behind: what was mutated before a [throw] stays mutated,
    as in JavaScript. *)
Definition St (S A : Type) : Type := S -> Outcome A * S.

Definition ret {S A} (a : A) : St S A := fun s => (Returned a, s).

Definition throw {S A} (e : Thrown) : St S A := fun s => (Raised e, s).

Definition bind {S A B} (c : St S A) (k : A -> St S B) : St S B :=
  fun s =>
    match c s with
    | (Returned a, s') => k a s'
    | (Raised e, s') => (Raised e, s')
    end.

(** [try { c } catch (error) { h error }]. *)
Definition tryCatch {S A} (c : St S A) (h : Thrown -> St S A) : St S A :=
  fun s =>
    match c s with
    | (Returned a, s') => (Returned a, s')
    | (Raised e, s') => h e s'
    end.

Declare Scope js_scope.
Delimit Scope js_scope with js.
Notation "x <- c ;; k" := (bind c (fun x => k))
  (at level 61, c at next level, right associativity) : js_scope.
Notation "c ;;; k" := (bind c (fun _ => k))
  (at level 61, right associativity) : js_scope.
Local Open Scope js_scope.

(** Computations over the program state alone. *)
Definition M (A : Type) : Type := St World A.

(** A block that also owns a local mutable variable of type [L] (an object
    or array declared outside a [try] and mutated inside it). *)
Definition Scoped (L A : Type) : Type := St (L * World) A.

Definition lift {L A} (c : M A) : Scoped L A :=
  fun s => let (o, w') := c (snd s) in (o, (fst s, w')).

Definition getLocal {L} : Scoped L L := fun s => (Returned (fst s), s).

Definition modifyLocal {L} (f : L -> L) : Scoped L unit :=
  fun s => (Returned tt, (f (fst s), snd s)).

(** Runs a block with its local variable initialised to [l]; the variable
    goes out of scope at the end. *)
Definition scope {L A} (l : L) (c : Scoped L A) : M A :=
  fun w => let (o, s') := c (l, w) in (o, snd s').

Definition gets {A} (f : World -> A) : M A := fun w => (Returned (f w), w).

Definition modify (f : World -> World) : M unit := fun w => (Returned tt, f w).

Definition liftOutcome {A} (o : Outcome A) : M A := fun w => (o, w).

Definition set_tick (n : nat) (w : World) : World :=
  mkWorld n (cachedToken w) (cachedMLToken w) (products w) (syncLogs w) (sent w).

Definition set_cachedToken (c : option AmazonCache) (w : World) : World :=
  mkWorld (tick w) c (cachedMLToken w) (products w) (syncLogs w) (sent w).

Definition set_cachedMLToken (c : option MLCache) (w : World) : World :=
  mkWorld (tick w) (cachedToken w) c (products w) (syncLogs w) (sent w).

Definition set_products (ps : list Product) (w : World) : World :=
  mkWorld (tick w) (cachedToken w) (cachedMLToken w) ps (syncLogs w) (sent w).

Definition set_syncLogs (ls : list SyncLog) (w : World) : World :=
  mkWorld (tick w) (cachedToken w) (cachedMLToken w) (products w) ls (sent w).

Definition set_sent (rs : list Request) (w : World) : World :=
  mkWorld (tick w) (cachedToken w) (cachedMLToken w) (products w) (syncLogs w) rs.

(** One interaction with the environment: its index is returned and the
    counter advances. *)
Definition interact : M nat :=
  fun w => (Returned (tick w), set_tick (S (tick w)) w).

Section Program.

Variable env : Env.

(** [Date.now()] (milliseconds). *)
Definition Date_now : M Z :=
  t <- interact ;; ret (dateNow env t).

(** [await fetch(...)] against one endpoint: the request is logged, then the
    endpoint's answer is awaited (a network failure rejects). *)
Definition fetch {T} (endpoint : nat -> Request -> Outcome (Response T))
    (req : Request) : M (Response T) :=
  t <- interact ;;
  modify (fun w => set_sent (sent w ++ [req]) w) ;;;
  liftOutcome (endpoint t req).

(** A database call may be failed by the environment before it acts. *)
Definition dbCall (op : DbOp) : M unit :=
  t <- interact ;;
  match dbFault env t op with
  | Some e => throw e
  | None => ret tt
  end.

(** [JSON.stringify({ error })]: the value for the log's [details] column,
    unless the thrown value cannot be serialised, in which case
    [JSON.stringify] raises. *)
Definition JSON_stringify_error (error : Thrown) : M LogDetails :=
  match stringifyFault env error with
  | Some e => throw e
  | None => ret (ErrorDetails error)
  end.

End Program.

(** ** The Amazon client *)
Module Amazon.
Section Client.

Variable env : Env.

(** The token exchange of [getAccessToken]: everything after the cache
    check (from the [fetch] of the token endpoint to the [return]). *)
Definition exchangeToken : M string :=
  response <- fetch (amazonTokenEndpoint env)
                (AmazonTokenPost (AMAZON_REFRESH_TOKEN (process_env env))
                                 (AMAZON_CLIENT_ID (process_env env))
                                 (AMAZON_CLIENT_SECRET (process_env env))) ;;
  if negb (ok response) then
    throw (ErrorObj ("Failed to get Amazon access token: " ++ text response))
  else
    data <- liftOutcome (json response) ;;
    now <- Date_now env ;;
    modify (set_cachedToken
              (Some (mkAmazonCache (at_access_token data)
                                   (now + (at_expires_in data - 300) * 1000)))) ;;;
    ret (at_access_token data).

Definition getAccessToken : M string :=
  cached <- gets cachedToken ;;
  match cached with
  | Some c =>
      now <- Date_now env ;;
      if now <? ac_expiresAt c then ret (ac_token c) else exchangeToken
  | None => exchangeToken
  end.

(** Returns [{ quantity } | null]: the quantity, or [None] for [null]. *)
Definition getAmazonInventory (sku : string) : M (option Z) :=
  tryCatch
    (accessToken <- getAccessToken ;;
     response <- fetch (amazonSummariesEndpoint env)
                   (AmazonSummariesGet accessToken sku) ;;
     if negb (ok response) then ret None
     else
       data <- liftOutcome (json response) ;;
       match inventorySummaries data with
       | Some (inventorySummary :: _) =>
           ret (Some (orZero (totalQuantity inventorySummary)))
       | _ => ret None
       end)
    (fun _ => ret None).

Definition updateAmazonInventory (sku : string) (quantity : Z) : M bool :=
  tryCatch
    (accessToken <- getAccessToken ;;
     response <- fetch (amazonQuantitiesEndpoint env)
                   (AmazonSkuQuantitiesPut accessToken sku quantity) ;;
     if negb (ok response) then ret false else ret true)
    (fun _ => ret false).

End Client.
End Amazon.

(** ** The Mercado Libre client *)
Module MercadoLibre.
Section Client.

Variable env : Env.

(** The token exchange of [getAccessToken], once a refresh token is at
    hand. *)
Definition exchangeToken (refreshToken : string) : M string :=
  response <- fetch (mlTokenEndpoint env)
                (MLTokenPost (ML_CLIENT_ID (process_env env))
                             (ML_CLIENT_SECRET (process_env env))
                             refreshToken) ;;
  if negb (ok response) then
    throw (ErrorObj ("Failed to get ML access token: " ++ text response))
  else
    data <- liftOutcome (json response) ;;
    now <- Date_now env ;;
    modify (set_cachedMLToken
              (Some (mkMLCache (mt_access_token data)
                               (mt_refresh_token data)
                               (now + (mt_expires_in data - 300) * 1000)))) ;;;
    ret (mt_access_token data).

(** Everything of [getAccessToken] after the cache check. *)
Definition renewToken (cached : option MLCache) : M string :=
  match orElse (match cached with
                | Some c => mc_refreshToken c
                | None => None
                end)
               (ML_REFRESH_TOKEN (process_env env)) with
  | Some (String a s) => exchangeToken (String a s)
  | _ =>
      throw (ErrorObj
               "No ML refresh token available. Please authorize the app first.")
  end.

Definition getAccessToken : M string :=
  cached <- gets cachedMLToken ;;
  match cached with
  | Some c =>
      now <- Date_now env ;;
      if now <? mc_expiresAt c then ret (mc_token c) else renewToken cached
  | None => renewToken cached
  end.

(** [data.variations.find((v) => v.id.toString() === variationId)]. *)
Definition findVariation (variationId : string) (vs : list MLVariation)
  : option MLVariation :=
  find (fun v => String.eqb (toString (var_id v)) variationId) vs.

(** Returns [{ quantity } | null]: the quantity, or [None] for [null]. *)
Definition getMLInventory (itemId : string) (variationId : option string)
  : M (option Z) :=
  tryCatch
    (accessToken <- getAccessToken ;;
     response <- fetch (mlItemEndpoint env) (MLItemGet accessToken itemId) ;;
     if negb (ok response) then ret None
     else
       data <- liftOutcome (json response) ;;
       match variationId, variations data with
       | Some (String a s), Some (v :: vs) =>
           match findVariation (String a s) (v :: vs) with
           | Some variation =>
               ret (Some (orZero (var_available_quantity variation)))
           | None => ret None
           end
       | _, _ => ret (Some (orZero (available_quantity data)))
       end)
    (fun _ => ret None).

Definition updateMLInventory (itemId : string) (quantity : Z)
    (variationId : option string) : M bool :=
  tryCatch
    (accessToken <- getAccessToken ;;
     let body :=
       match variationId with
       | Some (String a s) => VariationQuantity (String a s) quantity
       | _ => ItemQuantity quantity
       end in
     response <- fetch (mlItemPutEndpoint env)
                   (MLItemPut accessToken itemId body) ;;
     if negb (ok response) then ret false else ret true)
    (fun _ => ret false).

End Client.
End MercadoLibre.

(** ** The persistence layer, as the code uses it

    The Prisma client is not part of the sources.  A call is first offered
    to the environment, which may fail it; otherwise it acts on the tables.
    [update] on an id that matches no row raises, as Prisma does. *)
Module Prisma.

Definition hasId (id : string) (row : Product) : bool :=
  String.eqb (prod_id row) id.

Fixpoint insertBySku (p : Product) (rows : list Product) : list Product :=
  match rows with
  | [] => [p]
  | q :: rest =>
      if String.leb (sku p) (sku q) then p :: q :: rest
      else q :: insertBySku p rest
  end.

(** [orderBy: { sku: "asc" }]. *)
Definition orderBySkuAsc (rows : list Product) : list Product :=
  fold_right insertBySku [] rows.

(** [where: { status: "success" }, orderBy: { createdAt: "desc" }], first
    row. *)
Definition latestSuccess (logs : list SyncLog) : option SyncLog :=
  fold_left
    (fun best l =>
       if String.eqb (status l) "success" then
         match best with
         | Some b => if createdAt b <? createdAt l then Some l else best
         | None => Some l
         end
       else best)
    logs None.

Section Client.

Variable env : Env.

(** [prisma.product.findMany()]: the rows in the order the table holds
    them; no ordering is requested. *)
Definition product_findMany : M (list Product) :=
  dbCall env FindMany ;;; gets products.

(** [prisma.product.findMany({ orderBy: { sku: "asc" } })]. *)
Definition product_findMany_orderBy_sku : M (list Product) :=
  dbCall env FindManyOrdered ;;;
  rows <- gets products ;;
  ret (orderBySkuAsc rows).

(** [prisma.product.update({ where: { id }, data })]. *)
Definition product_update (id : string) (data : Product -> Product)
  : M Product :=
  dbCall env (UpdateProduct id) ;;;
  rows <- gets products ;;
  match find (hasId id) rows with
  | None => throw (ErrorObj "Record to update not found.")
  | Some row =>
      modify (set_products
                (map (fun r => if hasId id r then data r else r) rows)) ;;;
      ret (data row)
  end.

(** [prisma.product.create({ data })]; [id] and the unset columns come
    from the schema defaults. *)
Definition product_create (sku name : string) (warehouseQty : Z)
    (amazonAsin mlItemId : option string) : M Product :=
  t <- interact ;;
  match dbFault env t (CreateProduct sku) with
  | Some e => throw e
  | None =>
      let row := mkProduct (newProductId env t) sku name warehouseQty
                   (schemaDefaultQty env) (schemaDefaultQty env)
                   amazonAsin mlItemId None in
      modify (fun w => set_products (products w ++ [row]) w) ;;;
      ret row
  end.

(** [prisma.syncLog.create({ data })]; [createdAt] defaults to the time of
    the insertion. *)
Definition syncLog_create (status message : string) (details : LogDetails)
  : M unit :=
  t <- interact ;;
  match dbFault env t CreateSyncLog with
  | Some e => throw e
  | None =>
      modify (fun w =>
                set_syncLogs
                  (syncLogs w ++ [mkSyncLog status message details (dateNow env t)])
                  w)
  end.

(** [prisma.syncLog.findFirst({ where: { status: "success" },
    orderBy: { createdAt: "desc" } })]. *)
Definition syncLog_findFirst_success : M (option SyncLog) :=
  dbCall env FindFirstSyncLog ;;;
  logs <- gets syncLogs ;;
  ret (latestSuccess logs).

End Client.
End Prisma.

(** [for (const x of xs) { body x }], one element after the other. *)
Fixpoint forEach {S A} (xs : list A) (body : A -> St S unit) : St S unit :=
  match xs with
  | [] => ret tt
  | x :: rest => body x ;;; forEach rest body
  end.

(** ** [src/lib/sync.ts]: reconciliation by sales deltas *)
Module Sync.

Definition set_newQty (q : Z) (r : SalesDetail) : SalesDetail :=
  mkSalesDetail (sd_sku r) (previousQty r) q (amazonSales r) (mlSales r)
    (sd_amazonUpdated r) (sd_mlUpdated r) (sd_error r).

Definition set_amazonSales (q : Z) (r : SalesDetail) : SalesDetail :=
  mkSalesDetail (sd_sku r) (previousQty r) (newQty r) q (mlSales r)
    (sd_amazonUpdated r) (sd_mlUpdated r) (sd_error r).

Definition set_mlSales (q : Z) (r : SalesDetail) : SalesDetail :=
  mkSalesDetail (sd_sku r) (previousQty r) (newQty r) (amazonSales r) q
    (sd_amazonUpdated r) (sd_mlUpdated r) (sd_error r).

Definition set_amazonUpdated (b : bool) (r : SalesDetail) : SalesDetail :=
  mkSalesDetail (sd_sku r) (previousQty r) (newQty r) (amazonSales r)
    (mlSales r) b (sd_mlUpdated r) (sd_error r).

Definition set_mlUpdated (b : bool) (r : SalesDetail) : SalesDetail :=
  mkSalesDetail (sd_sku r) (previousQty r) (newQty r) (amazonSales r)
    (mlSales r) (sd_amazonUpdated r) b (sd_error r).

Definition set_error (e : option string) (r : SalesDetail) : SalesDetail :=
  mkSalesDetail (sd_sku r) (previousQty r) (newQty r) (amazonSales r)
    (mlSales r) (sd_amazonUpdated r) (sd_mlUpdated r) e.

(** [productResult] as the loop body first builds it. *)
Definition initialResult (product : Product) : SalesDetail :=
  mkSalesDetail (sku product) (warehouseQty product) (warehouseQty product)
    0 0 false false None.

(** The [data] of the [prisma.product.update] call. *)
Definition syncedRow (newQty now : Z) (row : Product) : Product :=
  mkProduct (prod_id row) (sku row) (name row) newQty newQty newQty
    (amazonAsin row) (mlItemId row) (Some now).

Section Routine.

Variable env : Env.

(** [currentAmazonQty]: initialised to the recorded quantity and
    overwritten by the fetched one when an ASIN is set and the read returns
    data. *)
Definition readAmazon (product : Product) : M Z :=
  if truthy (amazonAsin product) then
    amazonData <- Amazon.getAmazonInventory env (sku product) ;;
    match amazonData with
    | Some quantity => ret quantity
    | None => ret (amazonQty product)
    end
  else ret (amazonQty product).

(** [currentMLQty]: initialised to the recorded quantity and overwritten by
    the fetched one when an item id is set and the read returns data. *)
Definition readML (product : Product) : M Z :=
  match mlItemId product with
  | Some (String a s) =>
      mlData <- MercadoLibre.getMLInventory env (String a s) None ;;
      match mlData with
      | Some quantity => ret quantity
      | None => ret (mlQty product)
      end
  | _ => ret (mlQty product)
  end.

(** The inner [try] block; [productResult] is its local variable.  The
    three subtractions and the sum are those of the integers, which is what
    the doubles of JavaScript compute as long as no operand or result
    exceeds [2 ^ 53] in absolute value. *)
Definition tryBlock (product : Product) : Scoped SalesDetail unit :=
  let previousAmazonQty := amazonQty product in
  let previousMLQty := mlQty product in
  currentAmazonQty <- lift (readAmazon product) ;;
  currentMLQty <- lift (readML product) ;;
  let amazonSales := Z.max 0 (previousAmazonQty - currentAmazonQty) in
  let mlSales := Z.max 0 (previousMLQty - currentMLQty) in
  let totalSales := amazonSales + mlSales in
  modifyLocal (set_amazonSales amazonSales) ;;;
  modifyLocal (set_mlSales mlSales) ;;;
  let newQty := Z.max 0 (warehouseQty product - totalSales) in
  modifyLocal (set_newQty newQty) ;;;
  (if truthy (amazonAsin product) then
     amazonSuccess <- lift (Amazon.updateAmazonInventory env (sku product) newQty) ;;
     modifyLocal (set_amazonUpdated amazonSuccess)
   else ret tt) ;;;
  (match mlItemId product with
   | Some (String a s) =>
       mlSuccess <- lift (MercadoLibre.updateMLInventory env (String a s) newQty None) ;;
       modifyLocal (set_mlUpdated mlSuccess)
   | _ => ret tt
   end) ;;;
  now <- lift (Date_now env) ;;
  lift (Prisma.product_update env (prod_id product) (syncedRow newQty now)) ;;;
  ret tt.

(** One iteration of the loop, up to [results.push(productResult)]. *)
Definition processProduct (product : Product) : M SalesDetail :=
  scope (initialResult product)
    (tryCatch (tryBlock product)
       (fun error =>
          modifyLocal (set_error (Some (messageOr "Unknown error" error)))) ;;;
     getLocal).

Definition counted (r : SalesDetail) : bool :=
  negb (truthy (sd_error r))
  && (sd_amazonUpdated r || sd_mlUpdated r
      || (0 <? amazonSales r) || (0 <? mlSales r)).

Definition failed (r : SalesDetail) : bool := truthy (sd_error r).

Definition successCount (results : list SalesDetail) : nat :=
  List.length (filter counted results).

Definition errorCount (results : list SalesDetail) : nat :=
  List.length (filter failed results).

Definition totalSales (results : list SalesDetail) : Z :=
  fold_left (fun sum r => sum + amazonSales r + mlSales r) results 0.

Definition showNat (n : nat) : string := toString (Z.of_nat n).

(** The outer [try] block; [results] is its local variable. *)
Definition mainBlock : Scoped (list SalesDetail) (SyncResult SalesDetail) :=
  products <- lift (Prisma.product_findMany env) ;;
  forEach products
    (fun product =>
       productResult <- lift (processProduct product) ;;
       modifyLocal (fun results => results ++ [productResult])%list) ;;;
  results <- getLocal ;;
  lift (Prisma.syncLog_create env
          (if (errorCount results =? 0)%nat then "success" else "partial")
          ("Sincronizados " ++ showNat (successCount results) ++ "/"
           ++ showNat (List.length results) ++ " productos. Ventas detectadas: "
           ++ toString (totalSales results))%string
          (SalesDetails results)) ;;;
  ret (mkSyncResult
         (errorCount results =? 0)%nat
         ("Sincronización completada. " ++ showNat (successCount results)
          ++ " productos actualizados. Ventas detectadas: "
          ++ toString (totalSales results))%string
         results).

Definition syncAllInventory : M (SyncResult SalesDetail) :=
  scope []
    (tryCatch mainBlock
       (fun error =>
          details <- lift (JSON_stringify_error env error) ;;
          lift (Prisma.syncLog_create env "error"
                  (messageOr "Error desconocido" error)
                  details) ;;;
          results <- getLocal ;;
          ret (mkSyncResult false
                 (messageOr "Error en sincronización" error)
                 results))).

End Routine.
End Sync.

(** ** The second [syncAllInventory]: direct overwrite *)
Module SyncOverwrite.

Definition set_amazonUpdated (b : bool) (r : PushDetail) : PushDetail :=
  mkPushDetail (pd_sku r) b (pd_mlUpdated r) (pd_error r).

Definition set_mlUpdated (b : bool) (r : PushDetail) : PushDetail :=
  mkPushDetail (pd_sku r) (pd_amazonUpdated r) b (pd_error r).

Definition set_error (e : option string) (r : PushDetail) : PushDetail :=
  mkPushDetail (pd_sku r) (pd_amazonUpdated r) (pd_mlUpdated r) e.

(** [productResult] as the loop body first builds it. *)
Definition initialResult (product : Product) : PushDetail :=
  mkPushDetail (sku product) false false None.

(** The [data] of the [prisma.product.update] call. *)
Definition refreshedRow (amazonQty mlQty now : Z) (row : Product) : Product :=
  mkProduct (prod_id row) (sku row) (name row) (warehouseQty row)
    amazonQty mlQty (amazonAsin row) (mlItemId row) (Some now).

Section Routine.

Variable env : Env.

(** The inner [try] block; [productResult] is its local variable. *)
Definition tryBlock (product : Product) : Scoped PushDetail unit :=
  amazonQty <- lift (Sync.readAmazon env product) ;;
  mlQty <- lift (Sync.readML env product) ;;
  let warehouseQty := warehouseQty product in
  (if truthy (amazonAsin product) then
     amazonSuccess <-
       lift (Amazon.updateAmazonInventory env (sku product) warehouseQty) ;;
     modifyLocal (set_amazonUpdated amazonSuccess)
   else ret tt) ;;;
  (match mlItemId product with
   | Some (String a s) =>
       mlSuccess <-
         lift (MercadoLibre.updateMLInventory env (String a s) warehouseQty None) ;;
       modifyLocal (set_mlUpdated mlSuccess)
   | _ => ret tt
   end) ;;;
  now <- lift (Date_now env) ;;
  lift (Prisma.product_update env (prod_id product)
          (refreshedRow amazonQty mlQty now)) ;;;
  ret tt.

(** One iteration of the loop, up to [results.push(productResult)]. *)
Definition processProduct (product : Product) : M PushDetail :=
  scope (initialResult product)
    (tryCatch (tryBlock product)
       (fun error =>
          modifyLocal (set_error (Some (messageOr "Unknown error" error)))) ;;;
     getLocal).

Definition counted (r : PushDetail) : bool :=
  negb (truthy (pd_error r)) && (pd_amazonUpdated r || pd_mlUpdated r).

Definition failed (r : PushDetail) : bool := truthy (pd_error r).

Definition successCount (results : list PushDetail) : nat :=
  List.length (filter counted results).

Definition errorCount (results : list PushDetail) : nat :=
  List.length (filter failed results).

(** The outer [try] block; [results] is its local variable. *)
Definition mainBlock : Scoped (list PushDetail) (SyncResult PushDetail) :=
  products <- lift (Prisma.product_findMany env) ;;
  forEach products
    (fun product =>
       productResult <- lift (processProduct product) ;;
       modifyLocal (fun results => results ++ [productResult])%list) ;;;
  results <- getLocal ;;
  lift (Prisma.syncLog_create env
          (if (errorCount results =? 0)%nat then "success" else "partial")
          ("Sincronizados " ++ Sync.showNat (successCount results) ++ "/"
           ++ Sync.showNat (List.length results) ++ " productos")%string
          (PushDetails results)) ;;;
  ret (mkSyncResult
         (errorCount results =? 0)%nat
         ("Sincronización completada. " ++ Sync.showNat (successCount results)
          ++ " productos actualizados, " ++ Sync.showNat (errorCount results)
          ++ " errores.")%string
         results).

Definition syncAllInventory : M (SyncResult PushDetail) :=
  scope []
    (tryCatch mainBlock
       (fun error =>
          details <- lift (JSON_stringify_error env error) ;;
          lift (Prisma.syncLog_create env "error"
                  (messageOr "Error desconocido" error)
                  details) ;;;
          results <- getLocal ;;
          ret (mkSyncResult false
                 (messageOr "Error en sincronización" error)
                 results))).

End Routine.
End SyncOverwrite.

(** ** Route handlers of [api/inventory] and [api/inventory/[id]] *)
Module Routes.

(** What a handler answers: a JSON payload with status 200, or an error
    status. *)
Inductive Reply (A : Type) : Type :=
| Json (payload : A)
| Status401
| Status500.
Arguments Json {A} payload.
Arguments Status401 {A}.
Arguments Status500 {A}.

(** The fields [POST] destructures from the request body. *)
Record PostBody : Type := mkPostBody {
  body_sku : string;
  body_name : string;
  body_warehouseQty : option Z;
  body_amazonAsin : option string;
  body_mlItemId : option string
}.

Section Handlers.

Variable env : Env.

(** [await getServerSession()], as "is there a session". *)
Definition getServerSession : M bool :=
  t <- interact ;; ret (serverSession env t).

(** [GET] of [api/inventory]: products by SKU and the time of the last
    successful sync. *)
Definition GET : M (Reply (list Product * option Z)) :=
  session <- getServerSession ;;
  if negb session then ret Status401
  else
    tryCatch
      (products <- Prisma.product_findMany_orderBy_sku env ;;
       lastLog <- Prisma.syncLog_findFirst_success env ;;
       ret (Json (products, option_map createdAt lastLog)))
      (fun _ => ret Status500).

(** [POST] of [api/inventory]; [body] is what [request.json()] resolves
    to. *)
Definition POST (body : Outcome PostBody) : M (Reply Product) :=
  session <- getServerSession ;;
  if negb session then ret Status401
  else
    tryCatch
      (body <- liftOutcome body ;;
       product <- Prisma.product_create env (body_sku body) (body_name body)
                    (orZero (body_warehouseQty body))
                    (body_amazonAsin body) (body_mlItemId body) ;;
       ret (Json product))
      (fun _ => ret Status500).

(** The [data] of the update in [PUT]: an absent [warehouseQty] leaves the
    column alone. *)
Definition editedRow (warehouseQty : option Z) (row : Product) : Product :=
  match warehouseQty with
  | Some q =>
      mkProduct (prod_id row) (sku row) (name row) q (amazonQty row)
        (mlQty row) (amazonAsin row) (mlItemId row) (lastSyncAt row)
  | None => row
  end.

(** [PUT] of [api/inventory/[id]]; [body] is the [warehouseQty] field of
    what [request.json()] resolves to. *)
Definition PUT (id : string) (body : Outcome (option Z)) : M (Reply Product) :=
  session <- getServerSession ;;
  if negb session then ret Status401
  else
    tryCatch
      (warehouseQty <- liftOutcome body ;;
       product <- Prisma.product_update env id (editedRow warehouseQty) ;;
       ret (Json product))
      (fun _ => ret Status500).

End Handlers.
End Routes.


(** ** The Mercado Libre client without variations

    The third unnamed source file: the same [getAccessToken], word for
    word, and the two calls without the optional [variationId]. *)
Module MercadoLibreSimple.
Section Client.

Variable env : Env.

Definition getAccessToken : M string := MercadoLibre.getAccessToken env.

(** Returns [{ quantity } | null]: the quantity, or [None] for [null]. *)
Definition getMLInventory (itemId : string) : M (option Z) :=
  tryCatch
    (accessToken <- getAccessToken ;;
     response <- fetch (mlItemEndpoint env) (MLItemGet accessToken itemId) ;;
     if negb (ok response) then ret None
     else
       data <- liftOutcome (json response) ;;
       ret (Some (orZero (available_quantity data))))
    (fun _ => ret None).

Definition updateMLInventory (itemId : string) (quantity : Z) : M bool :=
  tryCatch
    (accessToken <- getAccessToken ;;
     response <- fetch (mlItemPutEndpoint env)
                   (MLItemPut accessToken itemId (ItemQuantity quantity)) ;;
     if negb (ok response) then ret false else ret true)
    (fun _ => ret false).

End Client.
End MercadoLibreSimple.

(** ** The remaining route handlers

    [DELETE] of [app/api/inventory/[id]/route.ts], [POST] of
    [app/api/sync/route.ts] and the scheduled trigger (the sixth unnamed
    source file).  They need two more things from outside the program: the
    [CRON_SECRET] of the process environment and the faults of
    [prisma.product.delete]. *)
Record RouteEnv : Type := mkRouteEnv {
  base : Env;
  CRON_SECRET : option string;
  deleteFault : nat -> string -> option Thrown
}.

Module Triggers.

(** [`Bearer ${process.env.CRON_SECRET}`]: an unset variable prints as
    [undefined]. *)
Definition bearer (secret : option string) : string :=
  ("Bearer " ++ match secret with
                | Some s => s
                | None => "undefined"
                end)%string.

Section Handlers.

Variable renv : RouteEnv.

(** [prisma.product.delete({ where: { id } })]; an id that matches no row
    raises, as Prisma does. *)
Definition product_delete (id : string) : M Product :=
  t <- interact ;;
  match deleteFault renv t id with
  | Some e => throw e
  | None =>
      rows <- gets products ;;
      match find (Prisma.hasId id) rows with
      | None => throw (ErrorObj "Record to delete does not exist.")
      | Some row =>
          modify (set_products
                    (filter (fun r => negb (Prisma.hasId id r)) rows)) ;;;
          ret row
      end
  end.

(** [DELETE] of [api/inventory/[id]]; the payload is [{ success: true }]. *)
Definition DELETE (id : string) : M (Routes.Reply bool) :=
  session <- Routes.getServerSession (base renv) ;;
  if negb session then ret Routes.Status401
  else
    tryCatch
      (product_delete id ;;; ret (Routes.Json true))
      (fun _ => ret Routes.Status500).

(** [POST] of [api/sync]: the manual trigger. *)
Definition POST : M (Routes.Reply (SyncResult SalesDetail)) :=
  session <- Routes.getServerSession (base renv) ;;
  if negb session then ret Routes.Status401
  else
    tryCatch
      (result <- Sync.syncAllInventory (base renv) ;;
       ret (Routes.Json result))
      (fun _ => ret Routes.Status500).

(** [GET] of the scheduled trigger; [authHeader] is
    [request.headers.get("authorization")]. *)
Definition GET (authHeader : option string)
  : M (Routes.Reply (SyncResult SalesDetail)) :=
  if match authHeader with
     | Some h => negb (String.eqb h (bearer (CRON_SECRET renv)))
     | None => true
     end
  then ret Routes.Status401
  else
    tryCatch
      (result <- Sync.syncAllInventory (base renv) ;;
       ret (Routes.Json result))
      (fun _ => ret Routes.Status500).

End Handlers.
End Triggers.
(** ** Vocabulary of the statements *)



(** The interaction at which the Amazon token exchange is sent when the
    cache does not answer: the cache check reads the clock only if a token
    is cached. *)
Definition amazonExchangeTick (w : World) : nat :=
  match cachedToken w with
  | Some _ => S (tick w)
  | None => tick w
  end.

Definition mlExchangeTick (w : World) : nat :=
  match cachedMLToken w with
  | Some _ => S (tick w)
  | None => tick w
  end.

(** The cached Amazon token is not usable at the next clock reading. *)
Definition amazonStale (env : Env) (w : World) : Prop :=
  match cachedToken w with
  | Some c => ac_expiresAt c <= dateNow env (tick w)
  | None => True
  end.

Definition mlStale (env : Env) (w : World) : Prop :=
  match cachedMLToken w with
  | Some c => mc_expiresAt c <= dateNow env (tick w)
  | None => True
  end.

(** The refresh credential [getAccessToken] of Mercado Libre would use. *)
Definition mlRefreshCredential (env : Env) (w : World) : option string :=
  orElse (match cachedMLToken w with
          | Some c => mc_refreshToken c
          | None => None
          end)
         (ML_REFRESH_TOKEN (process_env env)).


(** ** Sample environments

    A scripted environment: the clock reads [1000 * t] at interaction [t];
    token endpoints answer with success ([tokenOk]) or with status 401; the
    read endpoints report what [amazonStock] and [mlListing] hold; the write
    endpoints answer with [putOk]; the database fails as [fault] says;
    every thrown value can be serialised. *)
Definition scriptedEnv (tokenOk : bool)
    (amazonStock : string -> option Z) (mlListing : string -> option MLItem)
    (putOk : bool) (fault : DbOp -> option Thrown) : Env :=
  mkEnv
    (mkProcessEnv (Some "amz-refresh") (Some "amz-id") (Some "amz-secret")
                  (Some "ml-refresh") (Some "ml-id") (Some "ml-secret"))
    (fun t => 1000 * Z.of_nat t)
    (fun _ _ =>
       if tokenOk
       then Returned (mkResponse true "" (Returned (mkAmazonTokens "amz-token" 3600)))
       else Returned (mkResponse false "denied" (Raised NonError)))
    (fun _ req =>
       match req with
       | AmazonSummariesGet _ sellerSku =>
           match amazonStock sellerSku with
           | Some q =>
               Returned (mkResponse true ""
                 (Returned (mkAmazonSummaries (Some [mkInventorySummary (Some q)]))))
           | None => Returned (mkResponse false "not found" (Raised NonError))
           end
       | _ => Raised NonError
       end)
    (fun _ _ => Returned (mkResponse putOk "" (Returned tt)))
    (fun _ _ =>
       if tokenOk
       then Returned (mkResponse true ""
              (Returned (mkMLTokens "ml-token" (Some "ml-refresh-2") 21600)))
       else Returned (mkResponse false "denied" (Raised NonError)))
    (fun _ req =>
       match req with
       | MLItemGet _ itemId =>
           match mlListing itemId with
           | Some item => Returned (mkResponse true "" (Returned item))
           | None => Returned (mkResponse false "not found" (Raised NonError))
           end
       | _ => Raised NonError
       end)
    (fun _ _ => Returned (mkResponse putOk "" (Returned tt)))
    (fun _ op => fault op)
    (fun _ => true)
    (fun t => ("id-" ++ toString (Z.of_nat t))%string)
    0
    (fun _ => None).

Definition noFault : DbOp -> option Thrown := fun _ => None.

(** A Mercado Libre item with two variations. *)
Definition twoVariations : MLItem :=
  mkMLItem (Some 14) (Some [mkMLVariation 1 (Some 5); mkMLVariation 2 (Some 9)]).

Definition variationsEnv : Env :=
  scriptedEnv true (fun _ => None) (fun _ => Some twoVariations) true noFault.

(** The database tables are as they were. *)
Definition sameTables (w w' : World) : Prop :=
  products w' = products w /\ syncLogs w' = syncLogs w.

(** A computation whose every run relates the state before to the state
    after by [R], whether it returns or raises. *)
Definition keeps {S A} (R : S -> S -> Prop) (c : St S A) : Prop :=
  forall s o s', c s = (o, s') -> R s s'.

(** A computation that never raises. *)
Definition returns {S A} (c : St S A) : Prop :=
  forall s, exists a s', c s = (Returned a, s').

(** The two pushes of one iteration, with the flags they leave in
    [productResult]: [updateAmazonInventory] if an ASIN is set, then
    [updateMLInventory] if an item id is set. *)
Definition pushAmazon (env : Env) (p : Product) (q : Z) : M bool :=
  if truthy (amazonAsin p) then Amazon.updateAmazonInventory env (sku p) q
  else ret false.

Definition pushML (env : Env) (p : Product) (q : Z) : M bool :=
  match mlItemId p with
  | Some (String a s) => MercadoLibre.updateMLInventory env (String a s) q None
  | _ => ret false
  end.

(** The error string recorded for an iteration whose [try] block ended
    with [o]. *)
Definition recordedError {A} (o : Outcome A) : option string :=
  match o with
  | Returned _ => None
  | Raised e => Some (messageOr "Unknown error" e)
  end.

(** The quantity a marketplace currently reports, or the recorded one when
    the read came back as [null]. *)
Definition currentOr (previous : Z) (fetched : option Z) : Z :=
  match fetched with
  | Some quantity => quantity
  | None => previous
  end.

(** The table after an update of the rows with the given id. *)
Definition rowsUpdated (id : string) (data : Product -> Product)
    (rows : list Product) : list Product :=
  map (fun r => if Prisma.hasId id r then data r else r) rows.

(** The table holds a row with the given id. *)
Definition hasRow (id : string) (rows : list Product) : Prop :=
  exists row, In row rows /\ prod_id row = id.

(** A stock of 97 on Amazon and a simple item with 99 on Mercado Libre;
    every write is refused. *)
Definition refusingEnv : Env :=
  scriptedEnv true (fun _ => Some 97)
    (fun _ => Some (mkMLItem (Some 99) None)) false noFault.

Definition tracked : Product :=
  mkProduct "p1" "SKU-1" "Thinner" 100 100 100 (Some "B00ASIN") (Some "MLM1") None.

(** An outcome with its value forgotten. *)
Definition discard {A} (o : Outcome A) : Outcome unit :=
  match o with
  | Returned _ => Returned tt
  | Raised e => Raised e
  end.

(** The loop as a function of the table listing: the details collected and
    the state reached, each product processed in the state its predecessor
    left. *)
Fixpoint runAll {D} (step : Product -> M D) (ps : list Product) (w : World)
  : list D * World :=
  match ps with
  | [] => ([], w)
  | p :: rest =>
      match step p w with
      | (Returned d, w1) =>
          let (ds, w2) := runAll step rest w1 in (d :: ds, w2)
      | (Raised _, w1) => ([], w1)
      end
  end.

(** The inner [try] block of the sales-delta loop raises for this product
    in this state. *)
Definition salesRaises (env : Env) (p : Product) (w : World) : bool :=
  match fst (Sync.tryBlock env p (Sync.initialResult p, w)) with
  | Returned _ => false
  | Raised _ => true
  end.

(** How many products of the listing have their [try] block raise. *)
Fixpoint salesRaisedCount (env : Env) (ps : list Product) (w : World) : nat :=
  match ps with
  | [] => 0
  | p :: rest =>
      ((if salesRaises env p w then 1 else 0)
       + salesRaisedCount env rest (snd (Sync.processProduct env p w)))%nat
  end.

(** Three products listed on Amazon; the database refuses the update of
    the second one. *)
Definition first3 : Product :=
  mkProduct "p1" "SKU-1" "Thinner" 100 100 100 (Some "B001") None None.
Definition second3 : Product :=
  mkProduct "p2" "SKU-2" "Acetona" 50 50 50 (Some "B002") None None.
Definition third3 : Product :=
  mkProduct "p3" "SKU-3" "Alcohol" 20 20 20 (Some "B003") None None.



Definition isolationWorld : World := initialWorld [first3; second3; third3].

(** Both token endpoints answer 401; reads and writes would succeed. *)
Definition deniedEnv : Env :=
  scriptedEnv false (fun _ => Some 97)
    (fun _ => Some (mkMLItem (Some 99) None)) true noFault.

(** The same peers with every token granted, but no Mercado Libre refresh
    token in the process environment. *)
Definition noCredentialEnv : Env :=
  let e := scriptedEnv true (fun _ => Some 97)
             (fun _ => Some (mkMLItem (Some 99) None)) true noFault in
  mkEnv
    (mkProcessEnv (Some "amz-refresh") (Some "amz-id") (Some "amz-secret")
                  None (Some "ml-id") (Some "ml-secret"))
    (dateNow e) (amazonTokenEndpoint e) (amazonSummariesEndpoint e)
    (amazonQuantitiesEndpoint e) (mlTokenEndpoint e) (mlItemEndpoint e)
    (mlItemPutEndpoint e) (dbFault e) (serverSession e) (newProductId e)
    (schemaDefaultQty e) (stringifyFault e).

(** Every quantity column of every row is non-negative. *)
Definition nonNegative (rows : list Product) : Prop :=
  Forall (fun r => 0 <= warehouseQty r /\ 0 <= amazonQty r /\ 0 <= mlQty r) rows.

(** Non-negative quantities stay non-negative. *)
Definition staysNonNegative (w w' : World) : Prop :=
  nonNegative (products w) -> nonNegative (products w').

(** A relation on program states, seen from a block with a local
    variable. *)
Definition onWorld {L} (R : World -> World -> Prop) (s s' : L * World) : Prop :=
  R (snd s) (snd s').

(** Well-behaved peers and database. *)
Definition calmEnv : Env :=
  scriptedEnv true (fun _ => Some 97)
    (fun _ => Some (mkMLItem (Some 99) None)) true noFault.

(** The inner [try] block of the direct-overwrite loop raises for this
    product in this state. *)
Definition pushRaises (env : Env) (p : Product) (w : World) : bool :=
  match fst (SyncOverwrite.tryBlock env p (SyncOverwrite.initialResult p, w)) with
  | Returned _ => false
  | Raised _ => true
  end.





(** The request log grew by requests that all satisfy [P]. *)
Definition extends (P : Request -> Prop) (w w' : World) : Prop :=
  exists extra, sent w' = (sent w ++ extra)%list /\ Forall P extra.

(** What one iteration for product [p] may send when it pushes [q]: token
    and read requests, and writes of [q] addressed to [p]. *)
Definition allowed (p : Product) (q : Z) (r : Request) : Prop :=
  match r with
  | AmazonSkuQuantitiesPut _ sellerSku quantity =>
      sellerSku = sku p /\ quantity = q
  | MLItemPut _ itemId body =>
      mlItemId p = Some itemId /\ body = ItemQuantity q
  | _ => True
  end.


(** The request log and the product table are as they were. *)
Definition sameTraffic (w w' : World) : Prop :=
  sent w' = sent w /\ products w' = products w.


(** Two products stored in the order they were created, not by SKU. *)
Definition zinc : Product :=
  mkProduct "p1" "ZINC-1" "Zinc" 10 10 10 (Some "B00Z") None None.
Definition acetone : Product :=
  mkProduct "p2" "ACET-1" "Acetona" 20 20 20 (Some "B00A") None None.

(** Ascending by SKU. *)
Definition bySku (a b : Product) : Prop := String.leb (sku a) (sku b) = true.

(** Amazon reports 97 and Mercado Libre 100. *)
Definition deltaEnv : Env :=
  scriptedEnv true (fun _ => Some 97)
    (fun _ => Some (mkMLItem (Some 100) None)) true noFault.

(** A state whose cached tokens expire at 5000 ms; the scripted clock reads
    [1000 * tick]. *)
Definition cachedWorld (t : nat) : World :=
  mkWorld t (Some (mkAmazonCache "old-amz" 5000))
    (Some (mkMLCache "old-ml" (Some "ml-refresh-1") 5000)) [] [] [].



(** [Number.isSafeInteger]: an integer of at most [2 ^ 53 - 1] in absolute
    value.  JavaScript prints every digit of such a number. *)
Definition isSafeInteger (n : Z) : bool := Z.abs n <=? 2 ^ 53 - 1.

(** A quantity of at most [2 ^ 50] in absolute value: with such quantities
    the two differences of an iteration, their sum and the difference with
    the warehouse quantity all stay below [2 ^ 53], where the arithmetic of
    the doubles is that of the integers. *)
Definition exactQuantity (n : Z) : bool := Z.abs n <=? 2 ^ 50.

(** The quantities that enter the arithmetic of one iteration for [p]: the
    three recorded ones and the two current ones. *)
Definition exactInputs (p : Product) (curA curB : Z) : bool :=
  exactQuantity (warehouseQty p) && exactQuantity (amazonQty p)
  && exactQuantity (mlQty p) && exactQuantity curA && exactQuantity curB.

(** The database refuses the update of the second of the three products
    with an error whose message is the empty string. *)
Definition faultSilent (op : DbOp) : option Thrown :=
  match op with
  | UpdateProduct id =>
      if String.eqb id "p2" then Some (ErrorObj "") else None
  | _ => None
  end.

Definition silentEnv : Env :=
  scriptedEnv true
    (fun s => if String.eqb s "SKU-1" then Some 97
              else if String.eqb s "SKU-2" then Some 50 else Some 20)
    (fun _ => None) true faultSilent.

(** What a failed listing raises can be serialised by [JSON.stringify]. *)
Definition listingSerialises (env : Env) : Prop :=
  forall t e, dbFault env t FindMany = Some e -> stringifyFault env e = None.

(** The peers of [calmEnv], which report the same quantities whenever they
    are asked, and a database that refuses the updates of rows up to
    interaction 12 and accepts them afterwards. *)
Definition flakyEnv : Env :=
  let e := calmEnv in
  mkEnv (process_env e) (dateNow e) (amazonTokenEndpoint e)
    (amazonSummariesEndpoint e) (amazonQuantitiesEndpoint e)
    (mlTokenEndpoint e) (mlItemEndpoint e) (mlItemPutEndpoint e)
    (fun t op =>
       match op with
       | UpdateProduct _ =>
           if (t <=? 12)%nat then Some (ErrorObj "connection lost") else None
       | _ => None
       end)
    (serverSession e) (newProductId e) (schemaDefaultQty e)
    (stringifyFault e).




(** ** Vocabulary of the further statements *)

(** The body [updateMLInventory] builds: the variation when an id is given
    and not empty, the item otherwise. *)
Definition mlPutBody (variationId : option string) (quantity : Z) : MLPutBody :=
  match variationId with
  | Some (String a s) => VariationQuantity (String a s) quantity
  | _ => ItemQuantity quantity
  end.

(** The state after a request has been sent at the next interaction. *)
Definition afterRequest (req : Request) (w : World) : World :=
  set_sent (sent w ++ [req]) (set_tick (S (tick w)) w).

(** What the outer [catch] of a reconciliation does with the error [e],
    the details [ds] collected so far and the state [w]: it serialises the
    error, inserts an [error] log entry and returns a failure result; if
    the serialisation or the insertion fails, the reconciliation itself
    raises. *)
Definition recovered {D} (env : Env) (e : Thrown) (ds : list D) (w : World)
  : Outcome (SyncResult D) * World :=
  match stringifyFault env e with
  | Some e1 => (Raised e1, w)
  | None =>
      match dbFault env (tick w) CreateSyncLog with
      | Some e2 => (Raised e2, set_tick (S (tick w)) w)
      | None =>
          (Returned
             (mkSyncResult false (messageOr "Error en sincronización" e) ds),
           set_syncLogs
             (syncLogs w ++
              [mkSyncLog "error" (messageOr "Error desconocido" e)
                 (ErrorDetails e) (dateNow env (tick w))])%list
             (set_tick (S (tick w)) w))
      end
  end.

(** The sales-delta reconciliation in closed form: the listing or the log
    insertion may fail, the loop may not. *)
Definition salesBatch (env : Env) (w : World)
  : Outcome (SyncResult SalesDetail) * World :=
  match dbFault env (tick w) FindMany with
  | Some e => recovered env e [] (set_tick (S (tick w)) w)
  | None =>
      let (ds, w2) :=
        runAll (Sync.processProduct env) (products w) (set_tick (S (tick w)) w) in
      match dbFault env (tick w2) CreateSyncLog with
      | Some e => recovered env e ds (set_tick (S (tick w2)) w2)
      | None =>
          (Returned
             (mkSyncResult (Sync.errorCount ds =? 0)%nat
                ("Sincronización completada. "
                 ++ Sync.showNat (Sync.successCount ds)
                 ++ " productos actualizados. Ventas detectadas: "
                 ++ toString (Sync.totalSales ds))%string
                ds),
           set_syncLogs
             (syncLogs w2 ++
              [mkSyncLog
                 (if (Sync.errorCount ds =? 0)%nat then "success" else "partial")
                 ("Sincronizados " ++ Sync.showNat (Sync.successCount ds) ++ "/"
                  ++ Sync.showNat (List.length ds)
                  ++ " productos. Ventas detectadas: "
                  ++ toString (Sync.totalSales ds))%string
                 (SalesDetails ds) (dateNow env (tick w2))])%list
             (set_tick (S (tick w2)) w2))
      end
  end.

(** The direct-overwrite reconciliation in closed form. *)
Definition pushBatch (env : Env) (w : World)
  : Outcome (SyncResult PushDetail) * World :=
  match dbFault env (tick w) FindMany with
  | Some e => recovered env e [] (set_tick (S (tick w)) w)
  | None =>
      let (ds, w2) :=
        runAll (SyncOverwrite.processProduct env) (products w)
          (set_tick (S (tick w)) w) in
      match dbFault env (tick w2) CreateSyncLog with
      | Some e => recovered env e ds (set_tick (S (tick w2)) w2)
      | None =>
          (Returned
             (mkSyncResult (SyncOverwrite.errorCount ds =? 0)%nat
                ("Sincronización completada. "
                 ++ Sync.showNat (SyncOverwrite.successCount ds)
                 ++ " productos actualizados, "
                 ++ Sync.showNat (SyncOverwrite.errorCount ds)
                 ++ " errores.")%string
                ds),
           set_syncLogs
             (syncLogs w2 ++
              [mkSyncLog
                 (if (SyncOverwrite.errorCount ds =? 0)%nat
                  then "success" else "partial")
                 ("Sincronizados " ++ Sync.showNat (SyncOverwrite.successCount ds)
                  ++ "/" ++ Sync.showNat (List.length ds) ++ " productos")%string
                 (PushDetails ds) (dateNow env (tick w2))])%list
             (set_tick (S (tick w2)) w2))
      end
  end.

(** A request that, if it is a write, sets a non-negative quantity on an
    item or SKU (never on a variation). *)
Definition nonNegativeWrite (r : Request) : Prop :=
  match r with
  | AmazonSkuQuantitiesPut _ _ quantity => 0 <= quantity
  | MLItemPut _ _ (ItemQuantity quantity) => 0 <= quantity
  | MLItemPut _ _ (VariationQuantity _ _) => False
  | _ => True
  end.

(** The columns of a row that no reconciliation touches. *)
Definition identityKey (row : Product)
  : string * string * string * option string * option string :=
  (prod_id row, sku row, name row, amazonAsin row, mlItemId row).

Definition sameIdentity (w w' : World) : Prop :=
  map identityKey (products w') = map identityKey (products w).

(** A sound element of the details of a sales-delta reconciliation. *)
Definition soundDetail (d : SalesDetail) : Prop :=
  0 <= amazonSales d /\ 0 <= mlSales d /\ 0 <= newQty d
  /\ newQty d <= Z.max 0 (previousQty d)
  /\ newQty d = Z.max 0 (previousQty d - (amazonSales d + mlSales d)).

(** The database refuses the listing; everything else works. *)
Definition listingDown (op : DbOp) : option Thrown :=
  match op with
  | FindMany => Some (ErrorObj "database unreachable")
  | _ => None
  end.

Definition listingDownEnv : Env :=
  scriptedEnv true (fun _ => Some 97)
    (fun _ => Some (mkMLItem (Some 99) None)) true listingDown.



(** A product listed on no marketplace. *)
Definition unlisted : Product :=
  mkProduct "p7" "SKU-7" "Estopa" 12 5 3 None (Some "") None.

(** Every column of a row but the warehouse quantity. *)
Definition exceptWarehouse (row : Product)
  : string * string * string * Z * Z * option string * option string * option Z :=
  (prod_id row, sku row, name row, amazonQty row, mlQty row, amazonAsin row,
   mlItemId row, lastSyncAt row).

(** The state is as it was, but for the count of interactions. *)
Definition untouched (w w' : World) : Prop :=
  cachedToken w' = cachedToken w /\ cachedMLToken w' = cachedMLToken w
  /\ products w' = products w /\ syncLogs w' = syncLogs w /\ sent w' = sent w.

(** Nobody is logged in. *)
Definition anonymousEnv : Env :=
  let e := calmEnv in
  mkEnv (process_env e) (dateNow e) (amazonTokenEndpoint e)
    (amazonSummariesEndpoint e) (amazonQuantitiesEndpoint e)
    (mlTokenEndpoint e) (mlItemEndpoint e) (mlItemPutEndpoint e)
    (dbFault e) (fun _ => false) (newProductId e) (schemaDefaultQty e)
    (stringifyFault e).

Definition calmRoutes (secret : option string) : RouteEnv :=
  mkRouteEnv calmEnv secret (fun _ _ => None).

Definition anonymousRoutes : RouteEnv :=
  mkRouteEnv anonymousEnv (Some "s3cret") (fun _ _ => None).

(** Three log entries: a success at 10, a partial run at 30, a success at
    20. *)
Definition someLogs : list SyncLog :=
  [mkSyncLog "success" "a" (SalesDetails []) 10;
   mkSyncLog "partial" "b" (SalesDetails []) 30;
   mkSyncLog "success" "c" (SalesDetails []) 20].

(** The variation ids the item endpoint reports are safe integers. *)
Definition safeIds (env : Env) : Prop :=
  forall t req r data vs,
    mlItemEndpoint env t req = Returned r ->
    json r = Returned data ->
    variations data = Some vs ->
    forallb (fun v => isSafeInteger (var_id v)) vs = true.
(** ** Basic facts about computations *)

Lemma bind_returned {S A B} (c : St S A) (k : A -> St S B) s a s' :
  c s = (Returned a, s') -> bind c k s = k a s'.
Proof. intros H. unfold bind. rewrite H. reflexivity. Qed.

Lemma bind_raised {S A B} (c : St S A) (k : A -> St S B) s e s' :
  c s = (Raised e, s') -> bind c k s = (Raised e, s').
Proof. intros H. unfold bind. rewrite H. reflexivity. Qed.

Lemma lift_run {L A} (c : M A) (l : L) w o w' :
  c w = (o, w') -> lift c (l, w) = (o, (l, w')).
Proof. intros H. unfold lift. simpl. rewrite H. reflexivity. Qed.

(** A [try] whose handler only returns a value never raises. *)
Lemma tryCatch_ret_returns {S A} (c : St S A) (d : A) s :
  exists a s', tryCatch c (fun _ => ret d) s = (Returned a, s').
Proof.
  unfold tryCatch, ret. destruct (c s) as [[a | e] s']; simpl; eauto.
Qed.


(** ** The token cache *)

Lemma amazon_token_cached env w c :
  cachedToken w = Some c ->
  dateNow env (tick w) < ac_expiresAt c ->
  Amazon.getAccessToken env w = (Returned (ac_token c), set_tick (S (tick w)) w).
Proof.
  intros Hc Hlt. unfold Amazon.getAccessToken, bind, gets, Date_now, interact, ret.
  rewrite Hc. simpl.
  destruct (Z.ltb_spec (dateNow env (tick w)) (ac_expiresAt c)); [reflexivity | lia].
Qed.



Lemma amazon_stale_exchanges env w :
  amazonStale env w ->
  Amazon.getAccessToken env w =
  Amazon.exchangeToken env (set_tick (amazonExchangeTick w) w).
Proof.
  unfold amazonStale, amazonExchangeTick, Amazon.getAccessToken, bind, gets,
    Date_now, interact, ret.
  destruct w as [t [c |] mc ps ls rs]; simpl.
  - intros Hle. destruct (Z.ltb_spec (dateNow env t) (ac_expiresAt c)); [lia | reflexivity].
  - intros _. reflexivity.
Qed.

Lemma ml_token_cached env w c :
  cachedMLToken w = Some c ->
  dateNow env (tick w) < mc_expiresAt c ->
  MercadoLibre.getAccessToken env w
  = (Returned (mc_token c), set_tick (S (tick w)) w).
Proof.
  intros Hc Hlt.
  unfold MercadoLibre.getAccessToken, bind, gets, Date_now, interact, ret.
  rewrite Hc. simpl.
  destruct (Z.ltb_spec (dateNow env (tick w)) (mc_expiresAt c)); [reflexivity | lia].
Qed.

Lemma ml_exchange_sends_one env refreshToken w o w' :
  MercadoLibre.exchangeToken env refreshToken w = (o, w') ->
  sent w' = (sent w ++
    [MLTokenPost (ML_CLIENT_ID (process_env env))
                 (ML_CLIENT_SECRET (process_env env)) refreshToken])%list.
Proof.
  unfold MercadoLibre.exchangeToken, fetch, bind, interact, modify,
    liftOutcome, Date_now, throw, ret. simpl.
  destruct (mlTokenEndpoint env (tick w) _) as [r | e]; simpl.
  - destruct (ok r); simpl.
    + destruct (json r); simpl; intros H; inversion H; reflexivity.
    + intros H; inversion H; reflexivity.
  - intros H; inversion H; reflexivity.
Qed.


Lemma ml_stale_renews env w :
  mlStale env w ->
  MercadoLibre.getAccessToken env w =
  MercadoLibre.renewToken env (cachedMLToken w) (set_tick (mlExchangeTick w) w).
Proof.
  unfold mlStale, mlExchangeTick, MercadoLibre.getAccessToken, bind, gets,
    Date_now, interact, ret.
  destruct w as [t ac [c |] ps ls rs]; simpl.
  - intros Hle. destruct (Z.ltb_spec (dateNow env t) (mc_expiresAt c)); [lia | reflexivity].
  - intros _. reflexivity.
Qed.

Lemma ml_renew_with_credential env w w0 refreshToken :
  mlRefreshCredential env w = Some refreshToken ->
  refreshToken <> "" ->
  MercadoLibre.renewToken env (cachedMLToken w) w0
  = MercadoLibre.exchangeToken env refreshToken w0.
Proof.
  unfold mlRefreshCredential, MercadoLibre.renewToken. intros -> Hne.
  destruct refreshToken; [congruence | reflexivity].
Qed.

(** Without a refresh credential nothing is sent and the call raises. *)
Lemma ml_renew_without_credential env w w0 :
  truthy (mlRefreshCredential env w) = false ->
  MercadoLibre.renewToken env (cachedMLToken w) w0
  = (Raised (ErrorObj
       "No ML refresh token available. Please authorize the app first."), w0).
Proof.
  unfold mlRefreshCredential, MercadoLibre.renewToken.
  destruct (orElse _ _) as [[| a s] |]; simpl; intros H;
    try discriminate; reflexivity.
Qed.


(** ** Reading a Mercado Libre item *)

(** What [getMLInventory] returns once the token is there and the item
    request is answered with success. *)
Lemma ml_inventory_answered env w itemId variationId tok w1 txt data :
  MercadoLibre.getAccessToken env w = (Returned tok, w1) ->
  mlItemEndpoint env (tick w1) (MLItemGet tok itemId)
  = Returned (mkResponse true txt (Returned data)) ->
  fst (MercadoLibre.getMLInventory env itemId variationId w) =
  Returned
    match variationId, variations data with
    | Some (String a s), Some (v :: vs) =>
        match MercadoLibre.findVariation (String a s) (v :: vs) with
        | Some variation => Some (orZero (var_available_quantity variation))
        | None => None
        end
    | _, _ => Some (orZero (available_quantity data))
    end.
Proof.
  intros Htok Hitem.
  unfold MercadoLibre.getMLInventory, tryCatch.
  rewrite (bind_returned _ _ _ _ _ Htok).
  unfold fetch, bind, interact, modify, liftOutcome, ret. simpl.
  rewrite Hitem. simpl.
  destruct variationId as [[| a s] |]; try reflexivity.
  destruct (variations data) as [[| v vs] |]; try reflexivity.
  simpl.
  destruct (String.eqb (toString (var_id v)) (String a s)); [reflexivity |].
  destruct (MercadoLibre.findVariation (String a s) vs); reflexivity.
Qed.

Lemma findVariation_some variationId vs v :
  MercadoLibre.findVariation variationId vs = Some v ->
  In v vs /\ toString (var_id v) = variationId.
Proof.
  unfold MercadoLibre.findVariation. intros H.
  apply find_some in H. destruct H as [Hin Heq].
  apply String.eqb_eq in Heq. auto.
Qed.

Lemma findVariation_none variationId vs :
  (forall v, In v vs -> toString (var_id v) <> variationId) ->
  MercadoLibre.findVariation variationId vs = None.
Proof.
  unfold MercadoLibre.findVariation. intros H.
  induction vs as [| v vs IH]; simpl; [reflexivity |].
  destruct (String.eqb_spec (toString (var_id v)) variationId) as [Heq | Hne].
  - exfalso. apply (H v); [left; reflexivity | exact Heq].
  - apply IH. intros v' Hin. apply H. right. exact Hin.
Qed.

Lemma findVariation_found variationId vs v :
  In v vs -> toString (var_id v) = variationId ->
  exists v', MercadoLibre.findVariation variationId vs = Some v'.
Proof.
  unfold MercadoLibre.findVariation. intros Hin Heq.
  destruct (find _ vs) as [v' |] eqn:Hf; [eauto |].
  exfalso. apply (find_none _ _ Hf) in Hin.
  rewrite Heq, String.eqb_refl in Hin. discriminate.
Qed.

(** C5. With a requested variation id and a fetched item that carries
    variations, whose ids are safe integers (so that they print as their
    decimal digits), [getMLInventory] returns the quantity of a variation
    whose id prints as the requested id when there is one, and [null] when
    there is none; for variations [{1,5},{2,9}] the id 2 gives 9 and the id
    99 gives [null]. *)
Theorem ml_variation_lookup env w itemId variationId tok w1 txt data v0 vs
    (Htoken : MercadoLibre.getAccessToken env w = (Returned tok, w1))
    (Hitem : mlItemEndpoint env (tick w1) (MLItemGet tok itemId)
             = Returned (mkResponse true txt (Returned data)))
    (Hrequested : variationId <> "")
    (Hvariations : variations data = Some (v0 :: vs))
    (Hids : forallb (fun v => isSafeInteger (var_id v)) (v0 :: vs) = true) :
  ((exists v, In v (v0 :: vs) /\ toString (var_id v) = variationId) ->
   exists v,
     In v (v0 :: vs) /\ toString (var_id v) = variationId
     /\ fst (MercadoLibre.getMLInventory env itemId (Some variationId) w)
        = Returned (Some (orZero (var_available_quantity v))))
  /\ ((forall v, In v (v0 :: vs) -> toString (var_id v) <> variationId) ->
      fst (MercadoLibre.getMLInventory env itemId (Some variationId) w)
      = Returned None)
  /\ (v0 :: vs = [mkMLVariation 1 (Some 5); mkMLVariation 2 (Some 9)] ->
      (variationId = "2" ->
       fst (MercadoLibre.getMLInventory env itemId (Some variationId) w)
       = Returned (Some 9))
      /\ (variationId = "99" ->
          fst (MercadoLibre.getMLInventory env itemId (Some variationId) w)
          = Returned None)).
Proof.
  pose proof (ml_inventory_answered env w itemId (Some variationId)
                tok w1 txt data Htoken Hitem) as Hrun.
  rewrite Hvariations in Hrun.
  destruct variationId as [| a s]; [congruence |].
  split; [| split].
  - intros [v [Hin Heq]].
    destruct (findVariation_found _ _ _ Hin Heq) as [v' Hf].
    rewrite Hf in Hrun. apply findVariation_some in Hf.
    exists v'. tauto.
  - intros Hnone. rewrite (findVariation_none _ _ Hnone) in Hrun. exact Hrun.
  - intros Hvs. rewrite Hvs in Hrun.
    split; intros Hid; rewrite Hid in Hrun |- *; exact Hrun.
Qed.

Lemma ml_variation_lookup_witness :
  fst (MercadoLibre.getMLInventory variationsEnv "MLM1" (Some "2")
         (initialWorld []))
  = Returned (Some 9)
  /\ fst (MercadoLibre.getMLInventory variationsEnv "MLM1" (Some "99")
            (initialWorld []))
     = Returned None.
Proof.
  split.
  - refine (proj1 (proj2 (proj2
      (ml_variation_lookup variationsEnv (initialWorld []) "MLM1" "2"
         "ml-token" (snd (MercadoLibre.getAccessToken variationsEnv (initialWorld [])))
         "" twoVariations (mkMLVariation 1 (Some 5)) [mkMLVariation 2 (Some 9)]
         _ _ _ _ _)) eq_refl) eq_refl);
      [reflexivity | reflexivity | discriminate | reflexivity | reflexivity].
  - refine (proj2 (proj2 (proj2
      (ml_variation_lookup variationsEnv (initialWorld []) "MLM1" "99"
         "ml-token" (snd (MercadoLibre.getAccessToken variationsEnv (initialWorld [])))
         "" twoVariations (mkMLVariation 1 (Some 5)) [mkMLVariation 2 (Some 9)]
         _ _ _ _ _)) eq_refl) eq_refl);
      [reflexivity | reflexivity | discriminate | reflexivity | reflexivity].
Defined.


(** ** Frame rules *)
Section Frames.

Context {S : Type} (R : S -> S -> Prop).
Hypothesis R_refl : forall s, R s s.
Hypothesis R_trans : forall a b c, R a b -> R b c -> R a c.

Lemma keeps_ret {A} (a : A) : keeps R (ret a).
Proof. intros s o s' H. inversion H. apply R_refl. Qed.

Lemma keeps_throw {A} e : keeps R (@throw S A e).
Proof. intros s o s' H. inversion H. apply R_refl. Qed.

Lemma keeps_bind {A B} (c : St S A) (k : A -> St S B) :
  keeps R c -> (forall a, keeps R (k a)) -> keeps R (bind c k).
Proof.
  intros Hc Hk s o s' H. unfold bind in H.
  destruct (c s) as [[a | e] s1] eqn:Hcs.
  - eapply R_trans; [eapply Hc; eassumption | eapply Hk; eassumption].
  - inversion H; subst. eapply Hc; eassumption.
Qed.

Lemma keeps_tryCatch {A} (c : St S A) (h : Thrown -> St S A) :
  keeps R c -> (forall e, keeps R (h e)) -> keeps R (tryCatch c h).
Proof.
  intros Hc Hh s o s' H. unfold tryCatch in H.
  destruct (c s) as [[a | e] s1] eqn:Hcs.
  - inversion H; subst. eapply Hc; eassumption.
  - eapply R_trans; [eapply Hc; eassumption | eapply Hh; eassumption].
Qed.

Lemma keeps_forEach {A} (xs : list A) (body : A -> St S unit) :
  (forall x, keeps R (body x)) -> keeps R (forEach xs body).
Proof.
  intros Hb. induction xs as [| x xs IH]; simpl.
  - apply keeps_ret.
  - apply keeps_bind; [apply Hb | intros _; exact IH].
Qed.

End Frames.

Lemma returns_bind {S A B} (c : St S A) (k : A -> St S B) :
  returns c -> (forall a, returns (k a)) -> returns (bind c k).
Proof.
  intros Hc Hk s. destruct (Hc s) as [a [s1 H1]].
  rewrite (bind_returned _ _ _ _ _ H1). apply Hk.
Qed.

Lemma returns_ret {S A} (a : A) : returns (@ret S A a).
Proof. intros s. unfold ret. eauto. Qed.

Lemma returns_tryCatch_ret {S A} (c : St S A) (d : A) :
  returns (tryCatch c (fun _ => ret d)).
Proof. intros s. apply tryCatch_ret_returns. Qed.

Lemma sameTables_refl w : sameTables w w.
Proof. split; reflexivity. Qed.

Lemma sameTables_trans a b c :
  sameTables a b -> sameTables b c -> sameTables a c.
Proof. intros [H1 H2] [H3 H4]. split; congruence. Qed.

Lemma interact_tables : keeps sameTables interact.
Proof. intros s o s' H. inversion H. split; reflexivity. Qed.

Lemma Date_now_tables env : keeps sameTables (Date_now env).
Proof. intros s o s' H. inversion H. split; reflexivity. Qed.

Lemma fetch_tables {T} (endpoint : nat -> Request -> Outcome (Response T)) req :
  keeps sameTables (fetch endpoint req).
Proof.
  intros s o s' H. unfold fetch, bind, interact, modify, liftOutcome in H.
  simpl in H. inversion H. split; reflexivity.
Qed.

Lemma gets_tables {A} (f : World -> A) : keeps sameTables (gets f).
Proof. intros s o s' H. inversion H. split; reflexivity. Qed.

Lemma liftOutcome_tables {A} (o : Outcome A) : keeps sameTables (liftOutcome o).
Proof. intros s o' s' H. inversion H. split; reflexivity. Qed.

Lemma set_cachedToken_tables c : keeps sameTables (modify (set_cachedToken c)).
Proof. intros s o s' H. inversion H. split; reflexivity. Qed.

Lemma set_cachedMLToken_tables c :
  keeps sameTables (modify (set_cachedMLToken c)).
Proof. intros s o s' H. inversion H. split; reflexivity. Qed.

(** Decomposes a computation along its structure, leaving the leaves to
    the lemmas above. *)
Ltac frame_tables :=
  repeat first
    [ apply keeps_ret; [apply sameTables_refl]
    | apply keeps_throw; [apply sameTables_refl]
    | apply Date_now_tables
    | apply fetch_tables
    | apply gets_tables
    | apply liftOutcome_tables
    | apply set_cachedToken_tables
    | apply set_cachedMLToken_tables
    | apply keeps_bind; [apply sameTables_trans | | intros ?]
    | apply keeps_tryCatch; [apply sameTables_trans | | intros ?]
    | match goal with
      | |- keeps _ (if ?b then _ else _) => destruct b
      | |- keeps _ (match ?x with _ => _ end) => destruct x
      end ].

Lemma amazon_getAccessToken_tables env :
  keeps sameTables (Amazon.getAccessToken env).
Proof. unfold Amazon.getAccessToken, Amazon.exchangeToken. frame_tables. Qed.

Lemma getAmazonInventory_tables env sku :
  keeps sameTables (Amazon.getAmazonInventory env sku).
Proof.
  unfold Amazon.getAmazonInventory.
  apply keeps_tryCatch; [apply sameTables_trans | | intros ?; frame_tables].
  apply keeps_bind; [apply sameTables_trans | apply amazon_getAccessToken_tables |].
  intros ?. frame_tables.
Qed.

Lemma updateAmazonInventory_tables env sku q :
  keeps sameTables (Amazon.updateAmazonInventory env sku q).
Proof.
  unfold Amazon.updateAmazonInventory.
  apply keeps_tryCatch; [apply sameTables_trans | | intros ?; frame_tables].
  apply keeps_bind; [apply sameTables_trans | apply amazon_getAccessToken_tables |].
  intros ?. frame_tables.
Qed.

Lemma ml_getAccessToken_tables env :
  keeps sameTables (MercadoLibre.getAccessToken env).
Proof.
  unfold MercadoLibre.getAccessToken, MercadoLibre.renewToken,
    MercadoLibre.exchangeToken.
  frame_tables.
Qed.

Lemma getMLInventory_tables env itemId variationId :
  keeps sameTables (MercadoLibre.getMLInventory env itemId variationId).
Proof.
  unfold MercadoLibre.getMLInventory.
  apply keeps_tryCatch; [apply sameTables_trans | | intros ?; frame_tables].
  apply keeps_bind; [apply sameTables_trans | apply ml_getAccessToken_tables |].
  intros ?. frame_tables.
Qed.

Lemma updateMLInventory_tables env itemId q variationId :
  keeps sameTables (MercadoLibre.updateMLInventory env itemId q variationId).
Proof.
  unfold MercadoLibre.updateMLInventory.
  apply keeps_tryCatch; [apply sameTables_trans | | intros ?; frame_tables].
  apply keeps_bind; [apply sameTables_trans | apply ml_getAccessToken_tables |].
  intros ?. frame_tables.
Qed.

(** ** The marketplace calls of the loop never raise and leave the tables
    alone *)

Lemma readAmazon_returns env p : returns (Sync.readAmazon env p).
Proof.
  unfold Sync.readAmazon. destruct (truthy (amazonAsin p)).
  - apply returns_bind; [apply returns_tryCatch_ret |].
    intros [q |]; apply returns_ret.
  - apply returns_ret.
Qed.

Lemma readML_returns env p : returns (Sync.readML env p).
Proof.
  unfold Sync.readML. destruct (mlItemId p) as [[| a s] |];
    try apply returns_ret.
  apply returns_bind; [apply returns_tryCatch_ret |].
  intros [q |]; apply returns_ret.
Qed.

Lemma pushAmazon_returns env p q : returns (pushAmazon env p q).
Proof.
  unfold pushAmazon. destruct (truthy (amazonAsin p));
    [apply returns_tryCatch_ret | apply returns_ret].
Qed.

Lemma pushML_returns env p q : returns (pushML env p q).
Proof.
  unfold pushML. destruct (mlItemId p) as [[| a s] |];
    try apply returns_ret.
  apply returns_tryCatch_ret.
Qed.

Lemma readAmazon_tables env p : keeps sameTables (Sync.readAmazon env p).
Proof.
  unfold Sync.readAmazon. destruct (truthy (amazonAsin p)).
  - apply keeps_bind; [apply sameTables_trans | apply getAmazonInventory_tables |].
    intros ?. frame_tables.
  - frame_tables.
Qed.

Lemma readML_tables env p : keeps sameTables (Sync.readML env p).
Proof.
  unfold Sync.readML. destruct (mlItemId p) as [[| a s] |].
  - frame_tables.
  - apply keeps_bind; [apply sameTables_trans | apply getMLInventory_tables |].
    intros ?. frame_tables.
  - frame_tables.
Qed.

Lemma pushAmazon_tables env p q : keeps sameTables (pushAmazon env p q).
Proof.
  unfold pushAmazon. destruct (truthy (amazonAsin p));
    [apply updateAmazonInventory_tables | frame_tables].
Qed.

Lemma pushML_tables env p q : keeps sameTables (pushML env p q).
Proof.
  unfold pushML. destruct (mlItemId p) as [[| a s] |].
  - frame_tables.
  - apply updateMLInventory_tables.
  - frame_tables.
Qed.

(** ** One iteration of the sales-delta loop, step by step *)

Lemma sales_tryBlock env p w :
  exists curA w1 curB w2 upA w3 upB w4,
    Sync.readAmazon env p w = (Returned curA, w1)
    /\ Sync.readML env p w1 = (Returned curB, w2)
    /\ pushAmazon env p
         (Z.max 0 (warehouseQty p
                   - (Z.max 0 (amazonQty p - curA) + Z.max 0 (mlQty p - curB))))
         w2 = (Returned upA, w3)
    /\ pushML env p
         (Z.max 0 (warehouseQty p
                   - (Z.max 0 (amazonQty p - curA) + Z.max 0 (mlQty p - curB))))
         w3 = (Returned upB, w4)
    /\ sameTables w w4
    /\ forall o w5,
        Prisma.product_update env (prod_id p)
          (Sync.syncedRow
             (Z.max 0 (warehouseQty p
                       - (Z.max 0 (amazonQty p - curA) + Z.max 0 (mlQty p - curB))))
             (dateNow env (tick w4)))
          (set_tick (S (tick w4)) w4) = (o, w5) ->
        Sync.tryBlock env p (Sync.initialResult p, w) =
        (discard o,
         (mkSalesDetail (sku p) (warehouseQty p)
            (Z.max 0 (warehouseQty p
                      - (Z.max 0 (amazonQty p - curA) + Z.max 0 (mlQty p - curB))))
            (Z.max 0 (amazonQty p - curA)) (Z.max 0 (mlQty p - curB))
            upA upB None,
          w5)).
Proof.
  destruct (readAmazon_returns env p w) as [curA [w1 HA]].
  destruct (readML_returns env p w1) as [curB [w2 HB]].
  set (nq := Z.max 0 (warehouseQty p
               - (Z.max 0 (amazonQty p - curA) + Z.max 0 (mlQty p - curB)))).
  destruct (pushAmazon_returns env p nq w2) as [upA [w3 HpA]].
  destruct (pushML_returns env p nq w3) as [upB [w4 HpB]].
  exists curA, w1, curB, w2, upA, w3, upB, w4.
  repeat (split; [assumption |]).
  split.
  { eapply sameTables_trans; [eapply readAmazon_tables; eassumption |].
    eapply sameTables_trans; [eapply readML_tables; eassumption |].
    eapply sameTables_trans; [eapply pushAmazon_tables; eassumption |].
    eapply pushML_tables; eassumption. }
  intros o w5 Hupd. fold nq in Hupd.
  unfold Sync.tryBlock.
  rewrite (bind_returned _ _ _ _ _ (lift_run _ _ _ _ _ HA)).
  rewrite (bind_returned _ _ _ _ _ (lift_run _ _ _ _ _ HB)).
  fold nq.
  unfold pushAmazon in HpA. unfold pushML in HpB.
  cbv beta iota zeta delta
    [bind modifyLocal getLocal lift Date_now interact ret fst snd
     Sync.initialResult].
  destruct (truthy (amazonAsin p)).
  - rewrite HpA.
    destruct (mlItemId p) as [[| a s] |].
    + inversion HpB; subst. rewrite Hupd. destruct o; reflexivity.
    + rewrite HpB. rewrite Hupd. destruct o; reflexivity.
    + inversion HpB; subst. rewrite Hupd. destruct o; reflexivity.
  - inversion HpA; subst.
    destruct (mlItemId p) as [[| a s] |].
    + inversion HpB; subst. rewrite Hupd. destruct o; reflexivity.
    + rewrite HpB. rewrite Hupd. destruct o; reflexivity.
    + inversion HpB; subst. rewrite Hupd. destruct o; reflexivity.
Qed.

(** The iteration around a [try] block that ended with [o], leaving the
    result [r]. *)
Lemma sales_processProduct env p w (o : Outcome unit) r w' :
  Sync.tryBlock env p (Sync.initialResult p, w) = (o, (r, w')) ->
  Sync.processProduct env p w =
  (Returned (Sync.set_error (match o with
                             | Returned _ => sd_error r
                             | Raised e => Some (messageOr "Unknown error" e)
                             end) r), w').
Proof.
  intros H. unfold Sync.processProduct, scope, bind, tryCatch.
  rewrite H. destruct o; destruct r; reflexivity.
Qed.

Lemma sales_iteration env p w :
  exists curA w1 curB w2 upA w3 upB w4,
    Sync.readAmazon env p w = (Returned curA, w1)
    /\ Sync.readML env p w1 = (Returned curB, w2)
    /\ pushAmazon env p
         (Z.max 0 (warehouseQty p
                   - (Z.max 0 (amazonQty p - curA) + Z.max 0 (mlQty p - curB))))
         w2 = (Returned upA, w3)
    /\ pushML env p
         (Z.max 0 (warehouseQty p
                   - (Z.max 0 (amazonQty p - curA) + Z.max 0 (mlQty p - curB))))
         w3 = (Returned upB, w4)
    /\ sameTables w w4
    /\ forall o w5,
        Prisma.product_update env (prod_id p)
          (Sync.syncedRow
             (Z.max 0 (warehouseQty p
                       - (Z.max 0 (amazonQty p - curA) + Z.max 0 (mlQty p - curB))))
             (dateNow env (tick w4)))
          (set_tick (S (tick w4)) w4) = (o, w5) ->
        Sync.processProduct env p w =
        (Returned
           (mkSalesDetail (sku p) (warehouseQty p)
              (Z.max 0 (warehouseQty p
                        - (Z.max 0 (amazonQty p - curA) + Z.max 0 (mlQty p - curB))))
              (Z.max 0 (amazonQty p - curA)) (Z.max 0 (mlQty p - curB))
              upA upB (recordedError o)),
         w5).
Proof.
  destruct (sales_tryBlock env p w)
    as (curA & w1 & curB & w2 & upA & w3 & upB & w4
        & HA & HB & HpA & HpB & Hsame & Htry).
  exists curA, w1, curB, w2, upA, w3, upB, w4.
  repeat (split; [assumption |]).
  intros o w5 Hupd.
  rewrite (sales_processProduct env p w _ _ _ (Htry o w5 Hupd)).
  destruct o; reflexivity.
Qed.

Lemma readAmazon_current env p w curA w1 :
  Sync.readAmazon env p w = (Returned curA, w1) ->
  truthy (amazonAsin p) = true ->
  exists fetched,
    Amazon.getAmazonInventory env (sku p) w = (Returned fetched, w1)
    /\ curA = currentOr (amazonQty p) fetched.
Proof.
  unfold Sync.readAmazon. intros H Hasin. rewrite Hasin in H.
  unfold bind in H.
  destruct (Amazon.getAmazonInventory env (sku p) w) as [[[q |] | e] w0];
    inversion H; subst; eexists; split; reflexivity.
Qed.

Lemma readAmazon_unset env p w :
  truthy (amazonAsin p) = false ->
  Sync.readAmazon env p w = (Returned (amazonQty p), w).
Proof. unfold Sync.readAmazon. intros ->. reflexivity. Qed.

Lemma readML_current env p w curB w1 itemId :
  Sync.readML env p w = (Returned curB, w1) ->
  mlItemId p = Some itemId -> itemId <> "" ->
  exists fetched,
    MercadoLibre.getMLInventory env itemId None w = (Returned fetched, w1)
    /\ curB = currentOr (mlQty p) fetched.
Proof.
  unfold Sync.readML. intros H Hid Hne. rewrite Hid in H.
  destruct itemId as [| a s]; [congruence |].
  unfold bind in H.
  destruct (MercadoLibre.getMLInventory env (String a s) None w)
    as [[[q |] | e] w0];
    inversion H; subst; eexists; split; reflexivity.
Qed.

Lemma readML_unset env p w :
  truthy (mlItemId p) = false ->
  Sync.readML env p w = (Returned (mlQty p), w).
Proof.
  unfold Sync.readML. destruct (mlItemId p) as [[| a s] |]; simpl;
    intros H; try discriminate; reflexivity.
Qed.

(** ** The update of a product row *)

Lemma hasRow_find id rows :
  hasRow id rows -> exists row, find (Prisma.hasId id) rows = Some row.
Proof.
  intros [row [Hin Hid]].
  destruct (find (Prisma.hasId id) rows) as [r |] eqn:Hf; [eauto |].
  exfalso. apply (find_none _ _ Hf) in Hin.
  unfold Prisma.hasId in Hin. rewrite Hid, String.eqb_refl in Hin. discriminate.
Qed.

Lemma product_update_done env id data w row :
  dbFault env (tick w) (UpdateProduct id) = None ->
  find (Prisma.hasId id) (products w) = Some row ->
  Prisma.product_update env id data w =
  (Returned (data row),
   set_products (rowsUpdated id data (products w)) (set_tick (S (tick w)) w)).
Proof.
  intros Hdb Hrow.
  unfold Prisma.product_update, dbCall, bind, interact, gets, modify, ret.
  rewrite Hdb. simpl. rewrite Hrow. reflexivity.
Qed.

(** Whatever happens, an update only replaces rows with the given id by
    their image under [data]. *)
Lemma product_update_rows env id data w o w' :
  Prisma.product_update env id data w = (o, w') ->
  syncLogs w' = syncLogs w
  /\ match o with
     | Returned _ => products w' = rowsUpdated id data (products w)
     | Raised _ => products w' = products w
     end.
Proof.
  unfold Prisma.product_update, dbCall, bind, interact, gets, modify, ret, throw.
  destruct (dbFault env (tick w) (UpdateProduct id)); simpl.
  - intros H; inversion H; subst. split; reflexivity.
  - destruct (find (Prisma.hasId id) (products w)); simpl;
      intros H; inversion H; subst; split; reflexivity.
Qed.

Lemma rowsUpdated_in id data rows row :
  In row (rowsUpdated id data rows) -> prod_id row = id ->
  (forall r, prod_id (data r) = prod_id r) ->
  exists r, In r rows /\ prod_id r = id /\ row = data r.
Proof.
  unfold rowsUpdated. intros Hin Hid Hdata.
  apply in_map_iff in Hin. destruct Hin as [r [Hr Hin]].
  exists r. unfold Prisma.hasId in Hr.
  destruct (String.eqb_spec (prod_id r) id) as [Heq | Hne].
  - auto.
  - subst row. contradiction.
Qed.

(** C9. In the sales-delta reconciliation, when the database accepts the
    write, every row with the product's id gets [warehouseQty], [amazonQty]
    and [mlQty] all equal to the new quantity, and the sync time, whatever
    the two pushes returned; with both pushes refused the recorded Amazon
    quantity (96) differs from the 97 that Amazon still holds. *)
Theorem snapshot_overwritten_regardless :
  (forall env p w,
      hasRow (prod_id p) (products w) ->
      (forall t, dbFault env t (UpdateProduct (prod_id p)) = None) ->
      exists d w' now,
        Sync.processProduct env p w = (Returned d, w')
        /\ sd_error d = None
        /\ products w' =
           rowsUpdated (prod_id p) (Sync.syncedRow (newQty d) now) (products w)
        /\ forall row,
            In row (products w') -> prod_id row = prod_id p ->
            warehouseQty row = newQty d /\ amazonQty row = newQty d
            /\ mlQty row = newQty d /\ lastSyncAt row = Some now)
  /\ (exists d w' now,
        Sync.processProduct refusingEnv tracked (initialWorld [tracked])
        = (Returned d, w')
        /\ sd_amazonUpdated d = false /\ sd_mlUpdated d = false
        /\ sd_error d = None
        /\ products w' =
           [mkProduct "p1" "SKU-1" "Thinner" 96 96 96
              (Some "B00ASIN") (Some "MLM1") (Some now)]
        /\ fst (Amazon.getAmazonInventory refusingEnv "SKU-1" w')
           = Returned (Some 97)).
Proof.
  split.
  - intros env p w Hrow Hdb.
    destruct (sales_iteration env p w)
      as (curA & w1 & curB & w2 & upA & w3 & upB & w4
          & HA & HB & _ & _ & [Hps _] & Hrun).
    remember (Z.max 0 (warehouseQty p
                - (Z.max 0 (amazonQty p - curA) + Z.max 0 (mlQty p - curB))))
      as nq.
    destruct (hasRow_find _ _ Hrow) as [row Hfind].
    rewrite <- Hps in Hfind.
    pose proof (product_update_done env (prod_id p)
                  (Sync.syncedRow nq (dateNow env (tick w4)))
                  (set_tick (S (tick w4)) w4) row (Hdb _) Hfind) as Hupd.
    specialize (Hrun _ _ Hupd).
    eexists. eexists. exists (dateNow env (tick w4)).
    split; [exact Hrun |]. split; [reflexivity |].
    cbn [newQty products set_products].
    assert (Hrows : products (set_tick (S (tick w4)) w4) = products w)
      by (rewrite <- Hps; reflexivity).
    rewrite Hrows. split; [reflexivity |].
    intros r Hin Hid.
    destruct (rowsUpdated_in _ _ _ _ Hin Hid) as [r0 [_ [_ ->]]];
      [reflexivity |].
    repeat split; reflexivity.
  - eexists. eexists. eexists.
    split; [vm_compute; reflexivity |].
    repeat split; vm_compute; reflexivity.
Qed.

Lemma snapshot_overwritten_regardless_witness :
  exists d w' now,
    Sync.processProduct refusingEnv tracked (initialWorld [tracked])
    = (Returned d, w')
    /\ sd_error d = None
    /\ products w' =
       rowsUpdated "p1" (Sync.syncedRow (newQty d) now) [tracked]
    /\ forall row,
        In row (products w') -> prod_id row = "p1" ->
        warehouseQty row = newQty d /\ amazonQty row = newQty d
        /\ mlQty row = newQty d /\ lastSyncAt row = Some now.
Proof.
  apply (proj1 snapshot_overwritten_regardless
           refusingEnv tracked (initialWorld [tracked])).
  - exists tracked. split; [left; reflexivity | reflexivity].
  - intros t. reflexivity.
Defined.

(** ** The loop *)

Lemma sales_processProduct_returns env p : returns (Sync.processProduct env p).
Proof.
  intros w.
  destruct (Sync.tryBlock env p (Sync.initialResult p, w)) as [o [r w']] eqn:H.
  rewrite (sales_processProduct env p w o r w' H). eauto.
Qed.

Lemma runAll_returns {D} (step : Product -> M D) p rest w :
  returns (step p) ->
  exists d w1,
    step p w = (Returned d, w1)
    /\ runAll step (p :: rest) w
       = (d :: fst (runAll step rest w1), snd (runAll step rest w1)).
Proof.
  intros Hstep. destruct (Hstep w) as [d [w1 H1]].
  exists d, w1. split; [exact H1 |].
  simpl. rewrite H1. destruct (runAll step rest w1); reflexivity.
Qed.

(** The [for] loop pushes onto [results] what [runAll] collects. *)
Lemma forEach_collect {D} (step : Product -> M D) ps :
  (forall p, returns (step p)) ->
  forall acc w,
    forEach ps
      (fun product =>
         productResult <- lift (step product) ;;
         modifyLocal (fun results => results ++ [productResult])%list)
      (acc, w)
    = (Returned tt,
       ((acc ++ fst (runAll step ps w))%list, snd (runAll step ps w))).
Proof.
  intros Hstep. induction ps as [| p rest IH]; intros acc w.
  - simpl. rewrite app_nil_r. reflexivity.
  - destruct (runAll_returns step p rest w (Hstep p)) as [d [w1 [H1 Hrun]]].
    rewrite Hrun. cbn [forEach fst snd].
    unfold bind at 1.
    rewrite (bind_returned _ _ _ _ _ (lift_run _ _ _ _ _ H1)).
    unfold modifyLocal. cbn [fst snd].
    rewrite IH. rewrite <- app_assoc. reflexivity.
Qed.

Lemma runAll_app {D} (step : Product -> M D) ps1 ps2 w :
  (forall p, returns (step p)) ->
  runAll step (ps1 ++ ps2) w =
  ((fst (runAll step ps1 w)
    ++ fst (runAll step ps2 (snd (runAll step ps1 w))))%list,
   snd (runAll step ps2 (snd (runAll step ps1 w)))).
Proof.
  intros Hstep. revert w. induction ps1 as [| p rest IH]; intros w.
  - simpl. destruct (runAll step ps2 w); reflexivity.
  - destruct (runAll_returns step p rest w (Hstep p)) as [d [w1 [H1 Hrun]]].
    rewrite Hrun. cbn [fst snd].
    destruct (runAll_returns step p (rest ++ ps2) w (Hstep p))
      as [d' [w1' [H1' Hrun']]].
    rewrite H1 in H1'. inversion H1'; subst d' w1'.
    change ((p :: rest) ++ ps2)%list with (p :: (rest ++ ps2))%list.
    rewrite Hrun'. rewrite IH. reflexivity.
Qed.

Lemma runAll_length {D} (step : Product -> M D) ps w :
  (forall p, returns (step p)) ->
  List.length (fst (runAll step ps w)) = List.length ps.
Proof.
  intros Hstep. revert w. induction ps as [| p rest IH]; intros w.
  - reflexivity.
  - destruct (runAll_returns step p rest w (Hstep p)) as [d [w1 [_ Hrun]]].
    rewrite Hrun. simpl. rewrite IH. reflexivity.
Qed.

(** A property of each single result holds along the whole listing. *)
Lemma runAll_map {D B} (step : Product -> M D) (f : D -> B) (g : Product -> B) :
  (forall p, returns (step p)) ->
  (forall p w d w', step p w = (Returned d, w') -> f d = g p) ->
  forall ps w, map f (fst (runAll step ps w)) = map g ps.
Proof.
  intros Hstep Hfg. induction ps as [| p rest IH]; intros w.
  - reflexivity.
  - destruct (runAll_returns step p rest w (Hstep p)) as [d [w1 [H1 Hrun]]].
    rewrite Hrun. simpl. rewrite IH, (Hfg _ _ _ _ H1). reflexivity.
Qed.

Lemma sales_detail_sku env p w d w' :
  Sync.processProduct env p w = (Returned d, w') -> sd_sku d = sku p.
Proof.
  destruct (sales_iteration env p w)
    as (curA & w1 & curB & w2 & upA & w3 & upB & w4 & _ & _ & _ & _ & _ & Hrun).
  destruct (Prisma.product_update env (prod_id p)
              (Sync.syncedRow
                 (Z.max 0 (warehouseQty p
                    - (Z.max 0 (amazonQty p - curA) + Z.max 0 (mlQty p - curB))))
                 (dateNow env (tick w4)))
              (set_tick (S (tick w4)) w4)) as [o w5] eqn:Hupd.
  rewrite (Hrun o w5 eq_refl). intros H. inversion H. reflexivity.
Qed.

Lemma syncLog_create_done env st msg det w :
  dbFault env (tick w) CreateSyncLog = None ->
  Prisma.syncLog_create env st msg det w =
  (Returned tt,
   set_syncLogs (syncLogs w ++ [mkSyncLog st msg det (dateNow env (tick w))])%list
     (set_tick (S (tick w)) w)).
Proof.
  intros H. unfold Prisma.syncLog_create, bind, interact, modify.
  rewrite H. reflexivity.
Qed.

(** The whole routine when the listing and the log insertion go through. *)
Lemma sales_sync_run env w :
  dbFault env (tick w) FindMany = None ->
  forall ds w2,
    runAll (Sync.processProduct env) (products w) (set_tick (S (tick w)) w)
    = (ds, w2) ->
    dbFault env (tick w2) CreateSyncLog = None ->
    exists msg logmsg,
      Sync.syncAllInventory env w =
      (Returned (mkSyncResult (Sync.errorCount ds =? 0)%nat msg ds),
       set_syncLogs
         (syncLogs w2 ++
          [mkSyncLog (if (Sync.errorCount ds =? 0)%nat then "success" else "partial")
             logmsg (SalesDetails ds) (dateNow env (tick w2))])%list
         (set_tick (S (tick w2)) w2)).
Proof.
  intros Hlist ds w2 Hrun Hlog.
  eexists. eexists.
  unfold Sync.syncAllInventory, scope, tryCatch, Sync.mainBlock.
  assert (Hfind : Prisma.product_findMany env w
                  = (Returned (products w), set_tick (S (tick w)) w)).
  { unfold Prisma.product_findMany, dbCall, bind, interact, gets, ret.
    rewrite Hlist. reflexivity. }
  rewrite (bind_returned _ _ _ _ _ (lift_run _ _ _ _ _ Hfind)).
  rewrite (bind_returned _ _ _ _ _
             (forEach_collect (Sync.processProduct env) (products w)
                (sales_processProduct_returns env) [] _)).
  rewrite Hrun. cbn [fst snd app].
  unfold bind at 1. unfold getLocal at 1. cbn [fst snd].
  rewrite (bind_returned _ _ _ _ _
             (lift_run _ _ _ _ _ (syncLog_create_done env _ _ _ w2 Hlog))).
  reflexivity.
Qed.

(** ** Relations kept by the loop *)
Section LoopInvariant.

Variable env : Env.
Variable R : World -> World -> Prop.
Hypothesis R_refl : forall w, R w w.
Hypothesis R_trans : forall a b c, R a b -> R b c -> R a c.
Hypothesis R_tables : forall w w', sameTables w w' -> R w w'.

Lemma runAll_keeps {D} (step : Product -> M D) :
  (forall p, keeps R (step p)) ->
  forall ps w, R w (snd (runAll step ps w)).
Proof.
  intros Hstep. induction ps as [| p rest IH]; intros w; simpl.
  - apply R_refl.
  - destruct (step p w) as [[d | e] w1] eqn:H1.
    + specialize (IH w1). destruct (runAll step rest w1) as [ds w2].
      simpl in *. eapply R_trans; [eapply Hstep; eassumption | exact IH].
    + simpl. eapply Hstep; eassumption.
Qed.

Lemma sales_processProduct_keeps p :
  (forall q now,
      0 <= q ->
      keeps R (Prisma.product_update env (prod_id p) (Sync.syncedRow q now))) ->
  keeps R (Sync.processProduct env p).
Proof.
  intros Hupdate w o w' Hrun.
  destruct (sales_iteration env p w)
    as (curA & w1 & curB & w2 & upA & w3 & upB & w4
        & _ & _ & _ & _ & Hsame & Hstep).
  destruct (Prisma.product_update env (prod_id p)
              (Sync.syncedRow
                 (Z.max 0 (warehouseQty p
                    - (Z.max 0 (amazonQty p - curA) + Z.max 0 (mlQty p - curB))))
                 (dateNow env (tick w4)))
              (set_tick (S (tick w4)) w4)) as [o5 w5] eqn:Hupd.
  rewrite (Hstep o5 w5 eq_refl) in Hrun. inversion Hrun; subst.
  eapply R_trans; [apply R_tables; exact Hsame |].
  eapply R_trans; [| eapply Hupdate; [apply Z.le_max_l | exact Hupd]].
  apply R_tables. split; reflexivity.
Qed.

End LoopInvariant.

Lemma product_update_raised env id data w e w' :
  Prisma.product_update env id data w = (Raised e, w') ->
  dbFault env (tick w) (UpdateProduct id) = Some e
  \/ e = ErrorObj "Record to update not found.".
Proof.
  unfold Prisma.product_update, dbCall, bind, interact, gets, modify, ret, throw.
  destruct (dbFault env (tick w) (UpdateProduct id)); simpl.
  - intros H; inversion H; subst. left; reflexivity.
  - destruct (find (Prisma.hasId id) (products w)); simpl;
      intros H; inversion H; subst. right; reflexivity.
Qed.

Lemma product_update_logs env id data :
  keeps (fun w w' => syncLogs w' = syncLogs w) (Prisma.product_update env id data).
Proof.
  intros w o w' H. apply (product_update_rows env id data w o w' H).
Qed.

(** The error string of an iteration is the one recorded for the way its
    [try] block ended. *)
Lemma sales_error_recorded env p w d w' :
  Sync.processProduct env p w = (Returned d, w') ->
  sd_error d = recordedError (fst (Sync.tryBlock env p (Sync.initialResult p, w))).
Proof.
  destruct (sales_tryBlock env p w)
    as (curA & w1 & curB & w2 & upA & w3 & upB & w4
        & _ & _ & _ & _ & _ & Htry).
  destruct (Prisma.product_update env (prod_id p)
              (Sync.syncedRow
                 (Z.max 0 (warehouseQty p
                    - (Z.max 0 (amazonQty p - curA) + Z.max 0 (mlQty p - curB))))
                 (dateNow env (tick w4)))
              (set_tick (S (tick w4)) w4)) as [o w5] eqn:Hupd.
  specialize (Htry o w5 eq_refl).
  rewrite (sales_processProduct env p w _ _ _ Htry). rewrite Htry.
  intros H. inversion H. destruct o; reflexivity.
Qed.

(** What a [try] block of the sales-delta loop raises comes from the
    database update. *)
Lemma sales_raised_by_update env p w e :
  fst (Sync.tryBlock env p (Sync.initialResult p, w)) = Raised e ->
  (exists t, dbFault env t (UpdateProduct (prod_id p)) = Some e)
  \/ e = ErrorObj "Record to update not found.".
Proof.
  destruct (sales_tryBlock env p w)
    as (curA & w1 & curB & w2 & upA & w3 & upB & w4
        & _ & _ & _ & _ & _ & Htry).
  destruct (Prisma.product_update env (prod_id p)
              (Sync.syncedRow
                 (Z.max 0 (warehouseQty p
                    - (Z.max 0 (amazonQty p - curA) + Z.max 0 (mlQty p - curB))))
                 (dateNow env (tick w4)))
              (set_tick (S (tick w4)) w4)) as [o w5] eqn:Hupd.
  rewrite (Htry o w5 eq_refl). simpl. destruct o as [row | e']; simpl;
    intros H; inversion H; subst.
  destruct (product_update_raised _ _ _ _ _ _ Hupd) as [Hdb | Hnf]; eauto.
Qed.



Lemma sales_loop_logs env ps w :
  syncLogs (snd (runAll (Sync.processProduct env) ps w)) = syncLogs w.
Proof.
  apply (runAll_keeps (fun w w' => syncLogs w' = syncLogs w)).
  - reflexivity.
  - intros a b c H1 H2. congruence.
  - intros p. apply sales_processProduct_keeps.
    + intros a b c H1 H2. congruence.
    + intros a b [_ H]. exact H.
    + intros q now _. apply product_update_logs.
Qed.

(** C3, as stated, fails.  The database refuses the update of the second
    of three products with an error whose message is the empty string: the
    [try] block of that product raises, the recorded error string is empty,
    and the batch counts no error: [errorCount] is 0, [success] is [true]
    and the log entry has status [success]. *)
Lemma failure_with_empty_message_uncounted :
  salesRaisedCount silentEnv (products isolationWorld)
    (set_tick 1 isolationWorld) = 1%nat
  /\ exists res w',
      Sync.syncAllInventory silentEnv isolationWorld = (Returned res, w')
      /\ map sd_error (res_details res) = [None; Some ""; None]
      /\ Sync.errorCount (res_details res) = 0%nat
      /\ success res = true
      /\ map status (syncLogs w') = ["success"].
Proof.
  split; [vm_compute; reflexivity |].
  destruct (Sync.syncAllInventory silentEnv isolationWorld) as [o w'] eqn:H.
  vm_compute in H. inversion H; subst o w'. clear H.
  eexists. eexists. split; [reflexivity |].
  repeat split; reflexivity.
Qed.



(** ** Authentication failures *)

Lemma amazon_exchange_denied env w r :
  amazonTokenEndpoint env (tick w)
    (AmazonTokenPost (AMAZON_REFRESH_TOKEN (process_env env))
                     (AMAZON_CLIENT_ID (process_env env))
                     (AMAZON_CLIENT_SECRET (process_env env)))
  = Returned r ->
  ok r = false ->
  fst (Amazon.exchangeToken env w)
  = Raised (ErrorObj ("Failed to get Amazon access token: " ++ text r)).
Proof.
  intros H Hok.
  unfold Amazon.exchangeToken, fetch, bind, interact, modify, liftOutcome, throw.
  simpl. rewrite H. simpl. rewrite Hok. reflexivity.
Qed.

Lemma ml_exchange_denied env refreshToken w r :
  mlTokenEndpoint env (tick w)
    (MLTokenPost (ML_CLIENT_ID (process_env env))
                 (ML_CLIENT_SECRET (process_env env)) refreshToken)
  = Returned r ->
  ok r = false ->
  fst (MercadoLibre.exchangeToken env refreshToken w)
  = Raised (ErrorObj ("Failed to get ML access token: " ++ text r)).
Proof.
  intros H Hok.
  unfold MercadoLibre.exchangeToken, fetch, bind, interact, modify,
    liftOutcome, throw.
  simpl. rewrite H. simpl. rewrite Hok. reflexivity.
Qed.

Lemma amazon_calls_absorb env w e w1 sku q :
  Amazon.getAccessToken env w = (Raised e, w1) ->
  Amazon.getAmazonInventory env sku w = (Returned None, w1)
  /\ Amazon.updateAmazonInventory env sku q w = (Returned false, w1).
Proof.
  intros H. unfold Amazon.getAmazonInventory, Amazon.updateAmazonInventory,
    tryCatch.
  rewrite !(bind_raised _ _ _ _ _ H). split; reflexivity.
Qed.

Lemma ml_calls_absorb env w e w1 itemId variationId q :
  MercadoLibre.getAccessToken env w = (Raised e, w1) ->
  MercadoLibre.getMLInventory env itemId variationId w = (Returned None, w1)
  /\ MercadoLibre.updateMLInventory env itemId q variationId w
     = (Returned false, w1).
Proof.
  intros H. unfold MercadoLibre.getMLInventory, MercadoLibre.updateMLInventory,
    tryCatch.
  rewrite !(bind_raised _ _ _ _ _ H). split; reflexivity.
Qed.

(** Counterexample to C2 as stated.  The claim that an authentication
    failure reaches the caller of
    [getInventory]/[updateInventory] and becomes the product's error fails:
    with both token endpoints answering 401, [getAccessToken] raises, the
    reads return [null], the writes return [false], the product is recorded
    without an error and the batch reports success. *)
Lemma auth_failure_not_propagated :
  fst (Amazon.getAccessToken deniedEnv (initialWorld [tracked]))
  = Raised (ErrorObj "Failed to get Amazon access token: denied")
  /\ fst (Amazon.getAmazonInventory deniedEnv "SKU-1" (initialWorld [tracked]))
     = Returned None
  /\ fst (Amazon.updateAmazonInventory deniedEnv "SKU-1" 100 (initialWorld [tracked]))
     = Returned false
  /\ fst (MercadoLibre.getAccessToken noCredentialEnv (initialWorld [tracked]))
     = Raised (ErrorObj
         "No ML refresh token available. Please authorize the app first.")
  /\ fst (MercadoLibre.getMLInventory noCredentialEnv "MLM1" None
            (initialWorld [tracked]))
     = Returned None
  /\ fst (Sync.processProduct deniedEnv tracked (initialWorld [tracked]))
     = Returned (mkSalesDetail "SKU-1" 100 100 0 0 false false None)
  /\ (exists res w',
         Sync.syncAllInventory deniedEnv (initialWorld [tracked])
         = (Returned res, w')
         /\ success res = true
         /\ Sync.errorCount (res_details res) = 0%nat
         /\ map sd_error (res_details res) = [None]).
Proof.
  repeat split; try (vm_compute; reflexivity).
  eexists. eexists. split; [vm_compute; reflexivity |].
  repeat split; reflexivity.
Qed.

(** C2, as the code has it. When [getAccessToken] raises (a token endpoint
    answers with a non-success status; for Mercado Libre also when no
    refresh credential is at hand), [getInventory] catches the error and
    returns [null] and [updateInventory] catches it and returns [false]; in
    the loop the read then falls back to the recorded quantity, and an error
    string is recorded for a product only when its database update raises. *)
Theorem auth_failure_absorbed env w :
  (amazonStale env w ->
   forall r,
     amazonTokenEndpoint env (amazonExchangeTick w)
       (AmazonTokenPost (AMAZON_REFRESH_TOKEN (process_env env))
                        (AMAZON_CLIENT_ID (process_env env))
                        (AMAZON_CLIENT_SECRET (process_env env)))
     = Returned r ->
     ok r = false ->
     fst (Amazon.getAccessToken env w)
     = Raised (ErrorObj ("Failed to get Amazon access token: " ++ text r)))
  /\ (mlStale env w ->
      truthy (mlRefreshCredential env w) = false ->
      fst (MercadoLibre.getAccessToken env w)
      = Raised (ErrorObj
          "No ML refresh token available. Please authorize the app first."))
  /\ (mlStale env w ->
      forall refreshToken r,
        mlRefreshCredential env w = Some refreshToken ->
        refreshToken <> "" ->
        mlTokenEndpoint env (mlExchangeTick w)
          (MLTokenPost (ML_CLIENT_ID (process_env env))
                       (ML_CLIENT_SECRET (process_env env)) refreshToken)
        = Returned r ->
        ok r = false ->
        fst (MercadoLibre.getAccessToken env w)
        = Raised (ErrorObj ("Failed to get ML access token: " ++ text r)))
  /\ (forall e w1,
        Amazon.getAccessToken env w = (Raised e, w1) ->
        (forall sku q,
            Amazon.getAmazonInventory env sku w = (Returned None, w1)
            /\ Amazon.updateAmazonInventory env sku q w = (Returned false, w1))
        /\ (forall p,
              truthy (amazonAsin p) = true ->
              Sync.readAmazon env p w = (Returned (amazonQty p), w1)))
  /\ (forall e w1,
        MercadoLibre.getAccessToken env w = (Raised e, w1) ->
        (forall itemId variationId q,
            MercadoLibre.getMLInventory env itemId variationId w
            = (Returned None, w1)
            /\ MercadoLibre.updateMLInventory env itemId q variationId w
               = (Returned false, w1))
        /\ (forall p,
              truthy (mlItemId p) = true ->
              Sync.readML env p w = (Returned (mlQty p), w1)))
  /\ (forall p d w' msg,
        Sync.processProduct env p w = (Returned d, w') ->
        sd_error d = Some msg ->
        (exists t e,
            dbFault env t (UpdateProduct (prod_id p)) = Some e
            /\ msg = messageOr "Unknown error" e)
        \/ msg = "Record to update not found.").
Proof.
  split; [| split; [| split; [| split; [| split]]]].
  - intros Hstale r Hresp Hok.
    rewrite (amazon_stale_exchanges env w Hstale).
    exact (amazon_exchange_denied env (set_tick (amazonExchangeTick w) w) r Hresp Hok).
  - intros Hstale Hcred.
    rewrite (ml_stale_renews env w Hstale).
    rewrite (ml_renew_without_credential env w _ Hcred). reflexivity.
  - intros Hstale refreshToken r Hcred Hne Hresp Hok.
    rewrite (ml_stale_renews env w Hstale).
    rewrite (ml_renew_with_credential env w _ refreshToken Hcred Hne).
    exact (ml_exchange_denied env refreshToken (set_tick (mlExchangeTick w) w) r Hresp Hok).
  - intros e w1 Hraise. split.
    + intros sku q. exact (amazon_calls_absorb env w e w1 sku q Hraise).
    + intros p Hasin. unfold Sync.readAmazon. rewrite Hasin.
      rewrite (bind_returned _ _ _ _ _
                 (proj1 (amazon_calls_absorb env w e w1 (sku p) 0 Hraise))).
      reflexivity.
  - intros e w1 Hraise. split.
    + intros itemId variationId q.
      exact (ml_calls_absorb env w e w1 itemId variationId q Hraise).
    + intros p Hid. unfold Sync.readML.
      destruct (mlItemId p) as [[| a s] |]; try discriminate.
      rewrite (bind_returned _ _ _ _ _
                 (proj1 (ml_calls_absorb env w e w1 (String a s) None 0 Hraise))).
      reflexivity.
  - intros p d w' msg Hrun Herr.
    rewrite (sales_error_recorded env p w d w' Hrun) in Herr.
    destruct (fst (Sync.tryBlock env p (Sync.initialResult p, w)))
      as [u | e] eqn:Ht; [discriminate |].
    simpl in Herr. inversion Herr; subst.
    destruct (sales_raised_by_update env p w e Ht) as [[t Hdb] | ->].
    + left. exists t, e. split; [exact Hdb | reflexivity].
    + right. reflexivity.
Qed.

(** ** Relations kept by a whole reconciliation *)
Section BatchInvariant.

Variable R : World -> World -> Prop.
Hypothesis R_refl : forall w, R w w.
Hypothesis R_trans : forall a b c, R a b -> R b c -> R a c.
Hypothesis R_products : forall w w', products w' = products w -> R w w'.

Lemma onWorld_refl {L} (s : L * World) : onWorld R s s.
Proof. apply R_refl. Qed.

Lemma onWorld_trans {L} (a b c : L * World) :
  onWorld R a b -> onWorld R b c -> onWorld R a c.
Proof. unfold onWorld. apply R_trans. Qed.

Lemma keeps_lift {L A} (c : M A) :
  keeps R c -> keeps (@onWorld L R) (lift c).
Proof.
  intros Hc [l w] o [l' w'] H. unfold lift in H. simpl in H.
  destruct (c w) as [o1 w1] eqn:Hcw. inversion H; subst.
  unfold onWorld. simpl. eapply Hc. eassumption.
Qed.

Lemma keeps_modifyLocal {L} (f : L -> L) : keeps (onWorld R) (modifyLocal f).
Proof. intros s o s' H. inversion H. unfold onWorld. simpl. apply R_refl. Qed.

Lemma keeps_getLocal {L} : keeps (onWorld R) (@getLocal L).
Proof. intros s o s' H. inversion H. subst. apply R_refl. Qed.

Lemma keeps_scope {L A} (l : L) (c : Scoped L A) :
  keeps (onWorld R) c -> keeps R (scope l c).
Proof.
  intros Hc w o w' H. unfold scope in H.
  destruct (c (l, w)) as [o1 s1] eqn:Hcw. inversion H; subst.
  exact (Hc _ _ _ Hcw).
Qed.

Lemma findMany_keeps env : keeps R (Prisma.product_findMany env).
Proof.
  intros w o w' H. apply R_products.
  unfold Prisma.product_findMany, dbCall, bind, interact, gets, throw, ret in H.
  destruct (dbFault env (tick w) FindMany); inversion H; reflexivity.
Qed.

Lemma syncLog_create_keeps env st msg det :
  keeps R (Prisma.syncLog_create env st msg det).
Proof.
  intros w o w' H. apply R_products.
  unfold Prisma.syncLog_create, bind, interact, modify, throw in H.
  destruct (dbFault env (tick w) CreateSyncLog); inversion H; reflexivity.
Qed.

Lemma stringify_keeps env e : keeps R (JSON_stringify_error env e).
Proof.
  intros w o w' H. unfold JSON_stringify_error, throw, ret in H.
  destruct (stringifyFault env e); inversion H; apply R_refl.
Qed.

(** A reconciliation built from a loop body that keeps [R] keeps [R],
    however it ends. *)
Lemma batch_keeps {D} env (step : Product -> M D)
    (finish : list D -> Scoped (list D) (SyncResult D))
    (recover : Thrown -> Scoped (list D) (SyncResult D)) :
  (forall p, keeps R (step p)) ->
  (forall ds, keeps (onWorld R) (finish ds)) ->
  (forall e, keeps (onWorld R) (recover e)) ->
  keeps R
    (scope []
       (tryCatch
          (products <- lift (Prisma.product_findMany env) ;;
           forEach products
             (fun product =>
                productResult <- lift (step product) ;;
                modifyLocal (fun results => results ++ [productResult])%list) ;;;
           results <- getLocal ;;
           finish results)
          recover)).
Proof.
  intros Hstep Hfinish Hrecover.
  apply keeps_scope.
  apply keeps_tryCatch; [apply onWorld_trans | | exact Hrecover].
  apply keeps_bind; [apply onWorld_trans | apply keeps_lift, findMany_keeps |].
  intros ps.
  apply keeps_bind; [apply onWorld_trans | |].
  - apply keeps_forEach; [apply onWorld_refl | apply onWorld_trans |].
    intros p.
    apply keeps_bind; [apply onWorld_trans | apply keeps_lift, Hstep |].
    intros d. apply keeps_modifyLocal.
  - intros _. apply keeps_bind; [apply onWorld_trans | apply keeps_getLocal |].
    exact Hfinish.
Qed.

Lemma sales_sync_keeps env :
  (forall p q now,
      0 <= q ->
      keeps R (Prisma.product_update env (prod_id p) (Sync.syncedRow q now))) ->
  keeps R (Sync.syncAllInventory env).
Proof.
  intros Hupdate. unfold Sync.syncAllInventory, Sync.mainBlock.
  apply batch_keeps.
  - intros p. apply sales_processProduct_keeps; auto.
    intros w w' [H _]. apply R_products. exact H.
  - intros ds.
    apply keeps_bind;
      [apply onWorld_trans | apply keeps_lift, syncLog_create_keeps |].
    intros _. apply keeps_ret. apply onWorld_refl.
  - intros e.
    apply keeps_bind;
      [apply onWorld_trans | apply keeps_lift, stringify_keeps |].
    intros det.
    apply keeps_bind;
      [apply onWorld_trans | apply keeps_lift, syncLog_create_keeps |].
    intros _.
    apply keeps_bind; [apply onWorld_trans | apply keeps_getLocal |].
    intros ds. apply keeps_ret. apply onWorld_refl.
Qed.

End BatchInvariant.

(** ** Non-negative quantities *)

Lemma staysNonNegative_trans a b c :
  staysNonNegative a b -> staysNonNegative b c -> staysNonNegative a c.
Proof. unfold staysNonNegative. auto. Qed.

Lemma staysNonNegative_products w w' :
  products w' = products w -> staysNonNegative w w'.
Proof. unfold staysNonNegative. intros ->. auto. Qed.

Lemma product_update_nonNegative env id data :
  (forall r,
      0 <= warehouseQty r /\ 0 <= amazonQty r /\ 0 <= mlQty r ->
      0 <= warehouseQty (data r) /\ 0 <= amazonQty (data r) /\ 0 <= mlQty (data r)) ->
  keeps staysNonNegative (Prisma.product_update env id data).
Proof.
  intros Hdata w o w' H Hnn.
  destruct (product_update_rows env id data w o w' H) as [_ Hrows].
  destruct o.
  - rewrite Hrows. unfold rowsUpdated, nonNegative in *.
    apply Forall_map. eapply Forall_impl; [| exact Hnn].
    intros r Hr. simpl. destruct (Prisma.hasId id r); auto.
  - rewrite Hrows. exact Hnn.
Qed.

Lemma PUT_nonNegative env id body w :
  (forall q, body = Returned (Some q) -> 0 <= q) ->
  staysNonNegative w (snd (Routes.PUT env id body w)).
Proof.
  intros Hbody. unfold Routes.PUT, Routes.getServerSession.
  unfold bind at 1. unfold bind at 1. unfold interact, ret.
  destruct (serverSession env (tick w)); simpl; [| intros H; exact H].
  unfold tryCatch, bind, liftOutcome, ret.
  destruct body as [warehouseQty | e]; [| intros H; exact H].
  destruct (Prisma.product_update env id (Routes.editedRow warehouseQty)
              (set_tick (S (tick w)) w)) as [o w'] eqn:Hupd.
  assert (Hstep : staysNonNegative (set_tick (S (tick w)) w) w').
  { refine (product_update_nonNegative env id (Routes.editedRow warehouseQty)
              _ _ _ _ Hupd).
    intros r [Hw [Ha Hm]]. unfold Routes.editedRow.
    destruct warehouseQty as [q |]; simpl; auto. }
  destruct o; exact Hstep.
Qed.

Lemma POST_nonNegative env body w :
  (forall b, body = Returned b -> 0 <= orZero (Routes.body_warehouseQty b)) ->
  0 <= schemaDefaultQty env ->
  staysNonNegative w (snd (Routes.POST env body w)).
Proof.
  intros Hbody Hdefault. unfold Routes.POST, Routes.getServerSession.
  unfold bind at 1. unfold bind at 1. unfold interact, ret.
  destruct (serverSession env (tick w)); simpl; [| intros H; exact H].
  unfold tryCatch, bind, liftOutcome, ret.
  destruct body as [b | e]; [| intros H; exact H].
  unfold Prisma.product_create, bind, interact, modify, throw, ret. simpl.
  destruct (dbFault env (S (tick w)) (CreateProduct (Routes.body_sku b)));
    simpl; [intros H; exact H |].
  intros Hnn. unfold nonNegative in *. apply Forall_app. split; [exact Hnn |].
  constructor; [| constructor]. simpl.
  repeat split; auto.
Qed.

Lemma sales_sync_nonNegative env :
  keeps staysNonNegative (Sync.syncAllInventory env).
Proof.
  apply sales_sync_keeps.
  - intros w H; exact H.
  - apply staysNonNegative_trans.
  - apply staysNonNegative_products.
  - intros p q now Hq. apply product_update_nonNegative.
    intros r _. simpl. auto.
Qed.

(** Counterexample to C6 as stated.  The claim that every operation keeps
    quantities non-negative fails for
    the manual edit and for product creation: a negative [warehouseQty] in
    the request body is stored as it is. *)
Lemma manual_edit_stores_negative :
  nonNegative (products (initialWorld [tracked]))
  /\ fst (Routes.PUT calmEnv "p1" (Returned (Some (-5))) (initialWorld [tracked]))
     = Returned (Routes.Json (mkProduct "p1" "SKU-1" "Thinner" (-5) 100 100
                                (Some "B00ASIN") (Some "MLM1") None))
  /\ map warehouseQty
       (products (snd (Routes.PUT calmEnv "p1" (Returned (Some (-5)))
                         (initialWorld [tracked]))))
     = [-5]
  /\ ~ nonNegative
         (products (snd (Routes.PUT calmEnv "p1" (Returned (Some (-5)))
                           (initialWorld [tracked]))))
  /\ ~ nonNegative
         (products (snd (Routes.POST calmEnv
                           (Returned (Routes.mkPostBody "SKU-9" "Resina"
                                        (Some (-3)) None None))
                           (initialWorld [])))).
Proof.
  split.
  { repeat constructor; simpl; lia. }
  split; [vm_compute; reflexivity |].
  split; [vm_compute; reflexivity |].
  split.
  - intros H. vm_compute in H. inversion H as [| r rs [Hw _] _]; subst.
    apply Hw. reflexivity.
  - intros H. vm_compute in H. inversion H as [| r rs [Hw _] _]; subst.
    apply Hw. reflexivity.
Qed.

(** C6, as the code has it. The sales-delta reconciliation always computes
    a new quantity >= 0, also when the detected sales exceed the warehouse
    quantity, and a whole batch keeps all stored quantities non-negative.
    Product creation and the manual edit store the submitted warehouse
    quantity unchecked: they keep the quantities non-negative when the
    submitted quantity is non-negative (and, for creation, the schema
    default of the marketplace columns is). *)
Theorem quantities_non_negative env w :
  (forall p d w',
      Sync.processProduct env p w = (Returned d, w') ->
      0 <= newQty d /\ 0 <= amazonSales d /\ 0 <= mlSales d
      /\ staysNonNegative w w')
  /\ (forall o w', Sync.syncAllInventory env w = (o, w') -> staysNonNegative w w')
  /\ (forall id body,
        (forall q, body = Returned (Some q) -> 0 <= q) ->
        staysNonNegative w (snd (Routes.PUT env id body w)))
  /\ (forall body,
        (forall b, body = Returned b -> 0 <= orZero (Routes.body_warehouseQty b)) ->
        0 <= schemaDefaultQty env ->
        staysNonNegative w (snd (Routes.POST env body w))).
Proof.
  split; [| split; [| split]].
  - intros p d w' Hrun.
    assert (Hkeep : staysNonNegative w w').
    { refine (sales_processProduct_keeps env staysNonNegative
                (fun a b c => staysNonNegative_trans a b c) _ p _ w _ w' Hrun).
      - intros a b [H _]. apply staysNonNegative_products. exact H.
      - intros q now Hq. apply product_update_nonNegative.
        intros r _. simpl. auto. }
    destruct (sales_iteration env p w)
      as (curA & w1 & curB & w2 & upA & w3 & upB & w4
          & _ & _ & _ & _ & _ & Hstep).
    destruct (Prisma.product_update env (prod_id p)
                (Sync.syncedRow
                   (Z.max 0 (warehouseQty p
                      - (Z.max 0 (amazonQty p - curA) + Z.max 0 (mlQty p - curB))))
                   (dateNow env (tick w4)))
                (set_tick (S (tick w4)) w4)) as [o w5] eqn:Hupd.
    rewrite (Hstep o w5 eq_refl) in Hrun. inversion Hrun; subst. simpl.
    repeat split; try apply Z.le_max_l. exact Hkeep.
  - intros o w' Hrun. exact (sales_sync_nonNegative env w o w' Hrun).
  - intros id body Hbody. exact (PUT_nonNegative env id body w Hbody).
  - intros body Hbody Hdefault. exact (POST_nonNegative env body w Hbody Hdefault).
Qed.

(** ** One iteration of the direct-overwrite loop, step by step *)

Lemma push_tryBlock env p w :
  exists fetchedA w1 fetchedB w2 upA w3 upB w4,
    Sync.readAmazon env p w = (Returned fetchedA, w1)
    /\ Sync.readML env p w1 = (Returned fetchedB, w2)
    /\ pushAmazon env p (warehouseQty p) w2 = (Returned upA, w3)
    /\ pushML env p (warehouseQty p) w3 = (Returned upB, w4)
    /\ sameTables w w4
    /\ forall o w5,
        Prisma.product_update env (prod_id p)
          (SyncOverwrite.refreshedRow fetchedA fetchedB (dateNow env (tick w4)))
          (set_tick (S (tick w4)) w4) = (o, w5) ->
        SyncOverwrite.tryBlock env p (SyncOverwrite.initialResult p, w) =
        (discard o, (mkPushDetail (sku p) upA upB None, w5)).
Proof.
  destruct (readAmazon_returns env p w) as [fetchedA [w1 HA]].
  destruct (readML_returns env p w1) as [fetchedB [w2 HB]].
  destruct (pushAmazon_returns env p (warehouseQty p) w2) as [upA [w3 HpA]].
  destruct (pushML_returns env p (warehouseQty p) w3) as [upB [w4 HpB]].
  exists fetchedA, w1, fetchedB, w2, upA, w3, upB, w4.
  repeat (split; [assumption |]).
  split.
  { eapply sameTables_trans; [eapply readAmazon_tables; eassumption |].
    eapply sameTables_trans; [eapply readML_tables; eassumption |].
    eapply sameTables_trans; [eapply pushAmazon_tables; eassumption |].
    eapply pushML_tables; eassumption. }
  intros o w5 Hupd.
  unfold SyncOverwrite.tryBlock.
  rewrite (bind_returned _ _ _ _ _ (lift_run _ _ _ _ _ HA)).
  rewrite (bind_returned _ _ _ _ _ (lift_run _ _ _ _ _ HB)).
  unfold pushAmazon in HpA. unfold pushML in HpB.
  cbv beta iota zeta delta
    [bind modifyLocal getLocal lift Date_now interact ret fst snd
     SyncOverwrite.initialResult].
  destruct (truthy (amazonAsin p)).
  - rewrite HpA.
    destruct (mlItemId p) as [[| a s] |].
    + inversion HpB; subst. rewrite Hupd. destruct o; reflexivity.
    + rewrite HpB. rewrite Hupd. destruct o; reflexivity.
    + inversion HpB; subst. rewrite Hupd. destruct o; reflexivity.
  - inversion HpA; subst.
    destruct (mlItemId p) as [[| a s] |].
    + inversion HpB; subst. rewrite Hupd. destruct o; reflexivity.
    + rewrite HpB. rewrite Hupd. destruct o; reflexivity.
    + inversion HpB; subst. rewrite Hupd. destruct o; reflexivity.
Qed.

Lemma push_processProduct env p w (o : Outcome unit) r w' :
  SyncOverwrite.tryBlock env p (SyncOverwrite.initialResult p, w) = (o, (r, w')) ->
  SyncOverwrite.processProduct env p w =
  (Returned (SyncOverwrite.set_error
               (match o with
                | Returned _ => pd_error r
                | Raised e => Some (messageOr "Unknown error" e)
                end) r), w').
Proof.
  intros H. unfold SyncOverwrite.processProduct, scope, bind, tryCatch.
  rewrite H. destruct o; destruct r; reflexivity.
Qed.

Lemma push_iteration env p w :
  exists fetchedA w1 fetchedB w2 upA w3 upB w4,
    Sync.readAmazon env p w = (Returned fetchedA, w1)
    /\ Sync.readML env p w1 = (Returned fetchedB, w2)
    /\ pushAmazon env p (warehouseQty p) w2 = (Returned upA, w3)
    /\ pushML env p (warehouseQty p) w3 = (Returned upB, w4)
    /\ sameTables w w4
    /\ forall o w5,
        Prisma.product_update env (prod_id p)
          (SyncOverwrite.refreshedRow fetchedA fetchedB (dateNow env (tick w4)))
          (set_tick (S (tick w4)) w4) = (o, w5) ->
        SyncOverwrite.processProduct env p w =
        (Returned (mkPushDetail (sku p) upA upB (recordedError o)), w5).
Proof.
  destruct (push_tryBlock env p w)
    as (fA & w1 & fB & w2 & upA & w3 & upB & w4
        & HA & HB & HpA & HpB & Hsame & Htry).
  exists fA, w1, fB, w2, upA, w3, upB, w4.
  repeat (split; [assumption |]).
  intros o w5 Hupd.
  rewrite (push_processProduct env p w _ _ _ (Htry o w5 Hupd)).
  destruct o; reflexivity.
Qed.

Lemma push_processProduct_returns env p :
  returns (SyncOverwrite.processProduct env p).
Proof.
  intros w.
  destruct (SyncOverwrite.tryBlock env p (SyncOverwrite.initialResult p, w))
    as [o [r w']] eqn:H.
  rewrite (push_processProduct env p w o r w' H). eauto.
Qed.

Lemma push_processProduct_keeps env (R : World -> World -> Prop) p :
  (forall a b c, R a b -> R b c -> R a c) ->
  (forall w w', sameTables w w' -> R w w') ->
  (forall a m now,
      keeps R (Prisma.product_update env (prod_id p)
                 (SyncOverwrite.refreshedRow a m now))) ->
  keeps R (SyncOverwrite.processProduct env p).
Proof.
  intros R_trans R_tables Hupdate w o w' Hrun.
  destruct (push_iteration env p w)
    as (fA & w1 & fB & w2 & upA & w3 & upB & w4
        & _ & _ & _ & _ & Hsame & Hstep).
  destruct (Prisma.product_update env (prod_id p)
              (SyncOverwrite.refreshedRow fA fB (dateNow env (tick w4)))
              (set_tick (S (tick w4)) w4)) as [o5 w5] eqn:Hupd.
  rewrite (Hstep o5 w5 eq_refl) in Hrun. inversion Hrun; subst.
  eapply R_trans; [apply R_tables; exact Hsame |].
  eapply R_trans; [| eapply Hupdate; exact Hupd].
  apply R_tables. split; reflexivity.
Qed.

Lemma push_sync_keeps env (R : World -> World -> Prop) :
  (forall w, R w w) ->
  (forall a b c, R a b -> R b c -> R a c) ->
  (forall w w', products w' = products w -> R w w') ->
  (forall p a m now,
      keeps R (Prisma.product_update env (prod_id p)
                 (SyncOverwrite.refreshedRow a m now))) ->
  keeps R (SyncOverwrite.syncAllInventory env).
Proof.
  intros R_refl R_trans R_products Hupdate.
  unfold SyncOverwrite.syncAllInventory, SyncOverwrite.mainBlock.
  apply batch_keeps; auto.
  - intros p. apply push_processProduct_keeps; auto.
    intros w w' [H _]. apply R_products. exact H.
  - intros ds.
    apply keeps_bind;
      [apply onWorld_trans; auto
      | apply keeps_lift, syncLog_create_keeps; auto |].
    intros _. apply keeps_ret. apply onWorld_refl; auto.
  - intros e.
    apply keeps_bind;
      [apply onWorld_trans; auto
      | apply keeps_lift, stringify_keeps; auto |].
    intros det.
    apply keeps_bind;
      [apply onWorld_trans; auto
      | apply keeps_lift, syncLog_create_keeps; auto |].
    intros _.
    apply keeps_bind; [apply onWorld_trans; auto | apply keeps_getLocal; auto |].
    intros ds. apply keeps_ret. apply onWorld_refl; auto.
Qed.

(** ** What the direct-overwrite reconciliation leaves untouched *)








(** ** Errors of the direct-overwrite loop under a steady database *)



(** ** What is sent *)
Section Sent.

Variable P : Request -> Prop.

Lemma extends_refl w : extends P w w.
Proof. exists []. split; [rewrite app_nil_r; reflexivity | constructor]. Qed.

Lemma extends_trans a b c : extends P a b -> extends P b c -> extends P a c.
Proof.
  intros [x [Hx Px]] [y [Hy Py]]. exists (x ++ y)%list. split.
  - rewrite Hy, Hx, app_assoc. reflexivity.
  - apply Forall_app. split; assumption.
Qed.

Lemma extends_same w w' : sent w' = sent w -> extends P w w'.
Proof. intros H. exists []. split; [rewrite app_nil_r; exact H | constructor]. Qed.

Lemma Date_now_extends env : keeps (extends P) (Date_now env).
Proof. intros s o s' H. inversion H. apply extends_same. reflexivity. Qed.

Lemma gets_extends {A} (f : World -> A) : keeps (extends P) (gets f).
Proof. intros s o s' H. inversion H. apply extends_refl. Qed.

Lemma liftOutcome_extends {A} (o : Outcome A) : keeps (extends P) (liftOutcome o).
Proof. intros s o' s' H. inversion H. apply extends_refl. Qed.

Lemma set_cachedToken_extends c : keeps (extends P) (modify (set_cachedToken c)).
Proof. intros s o s' H. inversion H. apply extends_same. reflexivity. Qed.

Lemma set_cachedMLToken_extends c :
  keeps (extends P) (modify (set_cachedMLToken c)).
Proof. intros s o s' H. inversion H. apply extends_same. reflexivity. Qed.

Lemma fetch_extends {T} (endpoint : nat -> Request -> Outcome (Response T)) req :
  P req -> keeps (extends P) (fetch endpoint req).
Proof.
  intros Hreq s o s' H. unfold fetch, bind, interact, modify, liftOutcome in H.
  simpl in H. inversion H. exists [req]. split; [reflexivity |].
  constructor; [exact Hreq | constructor].
Qed.

Lemma product_update_extends env id data :
  keeps (extends P) (Prisma.product_update env id data).
Proof.
  intros w o w' H. apply extends_same.
  unfold Prisma.product_update, dbCall, bind, interact, gets, modify, ret, throw in H.
  destruct (dbFault env (tick w) (UpdateProduct id)); simpl in H.
  - inversion H; reflexivity.
  - destruct (find (Prisma.hasId id) (products w)); inversion H; reflexivity.
Qed.

Ltac frame_sent :=
  repeat first
    [ apply keeps_ret; [apply extends_refl]
    | apply keeps_throw; [apply extends_refl]
    | apply Date_now_extends
    | apply gets_extends
    | apply liftOutcome_extends
    | apply set_cachedToken_extends
    | apply set_cachedMLToken_extends
    | apply fetch_extends; solve [auto]
    | apply keeps_bind; [apply extends_trans | | intros ?]
    | apply keeps_tryCatch; [apply extends_trans | | intros ?]
    | match goal with
      | |- keeps _ (if ?b then _ else _) => destruct b
      | |- keeps _ (match ?x with _ => _ end) => destruct x
      end ].

Hypothesis P_amazonToken : forall a b c, P (AmazonTokenPost a b c).
Hypothesis P_mlToken : forall a b c, P (MLTokenPost a b c).
Hypothesis P_amazonGet : forall tok s, P (AmazonSummariesGet tok s).
Hypothesis P_mlGet : forall tok i, P (MLItemGet tok i).

Lemma amazon_getAccessToken_extends env :
  keeps (extends P) (Amazon.getAccessToken env).
Proof. unfold Amazon.getAccessToken, Amazon.exchangeToken. frame_sent. Qed.

Lemma ml_getAccessToken_extends env :
  keeps (extends P) (MercadoLibre.getAccessToken env).
Proof.
  unfold MercadoLibre.getAccessToken, MercadoLibre.renewToken,
    MercadoLibre.exchangeToken.
  frame_sent.
Qed.

Lemma getAmazonInventory_extends env sku :
  keeps (extends P) (Amazon.getAmazonInventory env sku).
Proof.
  unfold Amazon.getAmazonInventory.
  apply keeps_tryCatch; [apply extends_trans | | intros ?; frame_sent].
  apply keeps_bind; [apply extends_trans | apply amazon_getAccessToken_extends |].
  intros ?. frame_sent.
Qed.

Lemma getMLInventory_extends env itemId variationId :
  keeps (extends P) (MercadoLibre.getMLInventory env itemId variationId).
Proof.
  unfold MercadoLibre.getMLInventory.
  apply keeps_tryCatch; [apply extends_trans | | intros ?; frame_sent].
  apply keeps_bind; [apply extends_trans | apply ml_getAccessToken_extends |].
  intros ?. frame_sent.
Qed.

Lemma updateAmazonInventory_extends env sku q :
  (forall tok, P (AmazonSkuQuantitiesPut tok sku q)) ->
  keeps (extends P) (Amazon.updateAmazonInventory env sku q).
Proof.
  intros Hput. unfold Amazon.updateAmazonInventory.
  apply keeps_tryCatch; [apply extends_trans | | intros ?; frame_sent].
  apply keeps_bind; [apply extends_trans | apply amazon_getAccessToken_extends |].
  intros ?. frame_sent.
Qed.

Lemma updateMLInventory_extends env itemId q :
  (forall tok, P (MLItemPut tok itemId (ItemQuantity q))) ->
  keeps (extends P) (MercadoLibre.updateMLInventory env itemId q None).
Proof.
  intros Hput. unfold MercadoLibre.updateMLInventory.
  apply keeps_tryCatch; [apply extends_trans | | intros ?; frame_sent].
  apply keeps_bind; [apply extends_trans | apply ml_getAccessToken_extends |].
  intros ?. frame_sent.
Qed.

Lemma readAmazon_extends env p : keeps (extends P) (Sync.readAmazon env p).
Proof.
  unfold Sync.readAmazon. destruct (truthy (amazonAsin p)).
  - apply keeps_bind; [apply extends_trans | apply getAmazonInventory_extends |].
    intros ?. frame_sent.
  - frame_sent.
Qed.

Lemma readML_extends env p : keeps (extends P) (Sync.readML env p).
Proof.
  unfold Sync.readML. destruct (mlItemId p) as [[| a s] |].
  - frame_sent.
  - apply keeps_bind; [apply extends_trans | apply getMLInventory_extends |].
    intros ?. frame_sent.
  - frame_sent.
Qed.

End Sent.

Lemma pushAmazon_extends env p q : keeps (extends (allowed p q)) (pushAmazon env p q).
Proof.
  unfold pushAmazon. destruct (truthy (amazonAsin p)).
  - apply updateAmazonInventory_extends; simpl; auto.
  - apply keeps_ret. apply extends_refl.
Qed.

Lemma pushML_extends env p q : keeps (extends (allowed p q)) (pushML env p q).
Proof.
  unfold pushML. destruct (mlItemId p) as [[| a s] |] eqn:Hid.
  - apply keeps_ret. apply extends_refl.
  - apply updateMLInventory_extends; simpl; auto.
  - apply keeps_ret. apply extends_refl.
Qed.

Lemma extends_weaken (P Q : Request -> Prop) w w' :
  (forall r, P r -> Q r) -> extends P w w' -> extends Q w w'.
Proof.
  intros H [extra [Hs Hp]]. exists extra. split; [exact Hs |].
  eapply Forall_impl; [exact H | exact Hp].
Qed.


(** ** The state a batch ends in *)


Lemma sameTraffic_trans a b c :
  sameTraffic a b -> sameTraffic b c -> sameTraffic a c.
Proof. intros [H1 H2] [H3 H4]. split; congruence. Qed.

Lemma syncLog_create_traffic env st msg det :
  keeps sameTraffic (Prisma.syncLog_create env st msg det).
Proof.
  intros w o w' H.
  unfold Prisma.syncLog_create, bind, interact, modify, throw in H.
  destruct (dbFault env (tick w) CreateSyncLog); inversion H; split; reflexivity.
Qed.

(** A batch ends with the traffic and the table either as they were (the
    listing failed) or as the loop over the listing left them. *)
Lemma batch_after {D} env (step : Product -> M D)
    (finish : list D -> Scoped (list D) (SyncResult D))
    (recover : Thrown -> Scoped (list D) (SyncResult D)) w o w' :
  (forall p, returns (step p)) ->
  (forall ds, keeps (onWorld sameTraffic) (finish ds)) ->
  (forall e, keeps (onWorld sameTraffic) (recover e)) ->
  scope []
    (tryCatch
       (products <- lift (Prisma.product_findMany env) ;;
        forEach products
          (fun product =>
             productResult <- lift (step product) ;;
             modifyLocal (fun results => results ++ [productResult])%list) ;;;
        results <- getLocal ;;
        finish results)
       recover) w = (o, w') ->
  (dbFault env (tick w) FindMany <> None /\ sameTraffic w w')
  \/ (dbFault env (tick w) FindMany = None
      /\ sameTraffic
           (snd (runAll step (products w) (set_tick (S (tick w)) w))) w').
Proof.
  intros Hstep Hfinish Hrecover. unfold scope, tryCatch.
  destruct (dbFault env (tick w) FindMany) as [e |] eqn:Hdb.
  - assert (Hfind : Prisma.product_findMany env w
                    = (Raised e, set_tick (S (tick w)) w)).
    { unfold Prisma.product_findMany, dbCall, bind, interact, gets, throw.
      rewrite Hdb. reflexivity. }
    rewrite (bind_raised _ _ _ _ _ (lift_run _ _ _ _ _ Hfind)).
    destruct (recover e ([], set_tick (S (tick w)) w)) as [o1 s1] eqn:Hrec.
    intros H. inversion H; subst. left. split; [discriminate |].
    pose proof (Hrecover e _ _ _ Hrec) as [Hs Hp]. simpl in Hs, Hp.
    split; [rewrite Hs | rewrite Hp]; reflexivity.
  - assert (Hfind : Prisma.product_findMany env w
                    = (Returned (products w), set_tick (S (tick w)) w)).
    { unfold Prisma.product_findMany, dbCall, bind, interact, gets, ret.
      rewrite Hdb. reflexivity. }
    rewrite (bind_returned _ _ _ _ _ (lift_run _ _ _ _ _ Hfind)).
    rewrite (bind_returned _ _ _ _ _ (forEach_collect step (products w) Hstep [] _)).
    cbn [app]. unfold bind at 1. unfold getLocal at 1. cbn [fst].
    destruct (finish _ _) as [[r | e] s1] eqn:Hfin.
    + intros H. inversion H; subst. right. split; [reflexivity |].
      exact (Hfinish _ _ _ _ Hfin).
    + destruct (recover e s1) as [o2 s2] eqn:Hrec.
      intros H. inversion H; subst. right. split; [reflexivity |].
      eapply sameTraffic_trans;
        [exact (Hfinish _ _ _ _ Hfin) | exact (Hrecover _ _ _ _ Hrec)].
Qed.




(** ** The log entry of a direct-overwrite batch *)

Lemma push_loop_logs env ps w :
  syncLogs (snd (runAll (SyncOverwrite.processProduct env) ps w)) = syncLogs w.
Proof.
  apply (runAll_keeps (fun w w' => syncLogs w' = syncLogs w)).
  - reflexivity.
  - intros a b c H1 H2. congruence.
  - intros p. apply push_processProduct_keeps.
    + intros a b c H1 H2. congruence.
    + intros a b [_ H]. exact H.
    + intros a m now. apply product_update_logs.
Qed.

Lemma push_sync_run env w :
  dbFault env (tick w) FindMany = None ->
  forall ds w2,
    runAll (SyncOverwrite.processProduct env) (products w)
      (set_tick (S (tick w)) w) = (ds, w2) ->
    dbFault env (tick w2) CreateSyncLog = None ->
    exists msg logmsg,
      SyncOverwrite.syncAllInventory env w =
      (Returned (mkSyncResult (SyncOverwrite.errorCount ds =? 0)%nat msg ds),
       set_syncLogs
         (syncLogs w2 ++
          [mkSyncLog
             (if (SyncOverwrite.errorCount ds =? 0)%nat
              then "success" else "partial")
             logmsg (PushDetails ds) (dateNow env (tick w2))])%list
         (set_tick (S (tick w2)) w2)).
Proof.
  intros Hlist ds w2 Hrun Hlog.
  eexists. eexists.
  unfold SyncOverwrite.syncAllInventory, scope, tryCatch, SyncOverwrite.mainBlock.
  assert (Hfind : Prisma.product_findMany env w
                  = (Returned (products w), set_tick (S (tick w)) w)).
  { unfold Prisma.product_findMany, dbCall, bind, interact, gets, ret.
    rewrite Hlist. reflexivity. }
  rewrite (bind_returned _ _ _ _ _ (lift_run _ _ _ _ _ Hfind)).
  rewrite (bind_returned _ _ _ _ _
             (forEach_collect (SyncOverwrite.processProduct env) (products w)
                (push_processProduct_returns env) [] _)).
  rewrite Hrun. cbn [fst snd app].
  unfold bind at 1. unfold getLocal at 1. cbn [fst snd].
  rewrite (bind_returned _ _ _ _ _
             (lift_run _ _ _ _ _ (syncLog_create_done env _ _ _ w2 Hlog))).
  reflexivity.
Qed.

(** ** A write once the token is there *)

Lemma fetch_run {T} (endpoint : nat -> Request -> Outcome (Response T)) req w :
  fetch endpoint req w = (endpoint (tick w) req, afterRequest req w).
Proof. reflexivity. Qed.

Lemma updateAmazonInventory_with_token env sku q w tok w1 :
  Amazon.getAccessToken env w = (Returned tok, w1) ->
  Amazon.updateAmazonInventory env sku q w =
  (Returned
     match amazonQuantitiesEndpoint env (tick w1)
             (AmazonSkuQuantitiesPut tok sku q) with
     | Returned r => ok r
     | Raised _ => false
     end,
   afterRequest (AmazonSkuQuantitiesPut tok sku q) w1).
Proof.
  intros Htok. unfold Amazon.updateAmazonInventory, tryCatch.
  rewrite (bind_returned _ _ _ _ _ Htok).
  unfold bind at 1. rewrite fetch_run.
  destruct (amazonQuantitiesEndpoint env (tick w1) (AmazonSkuQuantitiesPut tok sku q))
    as [r | e]; [| reflexivity].
  destruct (ok r); reflexivity.
Qed.

Lemma updateMLInventory_with_token env itemId q variationId w tok w1 :
  MercadoLibre.getAccessToken env w = (Returned tok, w1) ->
  MercadoLibre.updateMLInventory env itemId q variationId w =
  (Returned
     match mlItemPutEndpoint env (tick w1)
             (MLItemPut tok itemId (mlPutBody variationId q)) with
     | Returned r => ok r
     | Raised _ => false
     end,
   afterRequest (MLItemPut tok itemId (mlPutBody variationId q)) w1).
Proof.
  intros Htok. unfold MercadoLibre.updateMLInventory, tryCatch.
  rewrite (bind_returned _ _ _ _ _ Htok).
  unfold bind at 1. fold (mlPutBody variationId q). rewrite fetch_run.
  destruct (mlItemPutEndpoint env (tick w1)
              (MLItemPut tok itemId (mlPutBody variationId q)))
    as [r | e]; [| reflexivity].
  destruct (ok r); reflexivity.
Qed.



(** ** The reconciliations in closed form *)

Lemma syncLog_create_refused env st msg det w e :
  dbFault env (tick w) CreateSyncLog = Some e ->
  Prisma.syncLog_create env st msg det w = (Raised e, set_tick (S (tick w)) w).
Proof.
  intros H. unfold Prisma.syncLog_create, bind, interact, throw.
  rewrite H. reflexivity.
Qed.

Lemma stringify_done env e w :
  stringifyFault env e = None ->
  JSON_stringify_error env e w = (Returned (ErrorDetails e), w).
Proof. intros H. unfold JSON_stringify_error. rewrite H. reflexivity. Qed.

Lemma stringify_refused env e w e1 :
  stringifyFault env e = Some e1 ->
  JSON_stringify_error env e w = (Raised e1, w).
Proof. intros H. unfold JSON_stringify_error. rewrite H. reflexivity. Qed.

(** The outer [catch] handler of either reconciliation. *)
Lemma handler_recovered {D} env (e : Thrown) (ds : list D) w :
  (let (o, s') :=
     (details <- lift (JSON_stringify_error env e) ;;
      lift (Prisma.syncLog_create env "error"
              (messageOr "Error desconocido" e) details) ;;;
      results <- getLocal ;;
      ret (mkSyncResult false (messageOr "Error en sincronización" e) results))
       (ds, w) in
   (o, snd s'))
  = recovered env e ds w.
Proof.
  unfold recovered.
  destruct (stringifyFault env e) as [e1 |] eqn:Hser.
  - rewrite (bind_raised _ _ _ _ _
               (lift_run _ _ _ _ _ (stringify_refused env e w e1 Hser))).
    reflexivity.
  - rewrite (bind_returned _ _ _ _ _
               (lift_run _ _ _ _ _ (stringify_done env e w Hser))).
    destruct (dbFault env (tick w) CreateSyncLog) as [e2 |] eqn:Hdb.
    + rewrite (bind_raised _ _ _ _ _
                 (lift_run _ _ _ _ _ (syncLog_create_refused env _ _ _ w e2 Hdb))).
      reflexivity.
    + rewrite (bind_returned _ _ _ _ _
                 (lift_run _ _ _ _ _ (syncLog_create_done env _ _ _ w Hdb))).
      reflexivity.
Qed.

Lemma findMany_listed env w :
  dbFault env (tick w) FindMany = None ->
  Prisma.product_findMany env w = (Returned (products w), set_tick (S (tick w)) w).
Proof.
  intros H. unfold Prisma.product_findMany, dbCall, bind, interact, gets, ret.
  rewrite H. reflexivity.
Qed.

Lemma findMany_refused env w e :
  dbFault env (tick w) FindMany = Some e ->
  Prisma.product_findMany env w = (Raised e, set_tick (S (tick w)) w).
Proof.
  intros H. unfold Prisma.product_findMany, dbCall, bind, interact, gets, throw.
  rewrite H. reflexivity.
Qed.

Lemma sales_sync_closed env w : Sync.syncAllInventory env w = salesBatch env w.
Proof.
  unfold Sync.syncAllInventory, salesBatch, scope, tryCatch, Sync.mainBlock.
  destruct (dbFault env (tick w) FindMany) as [e |] eqn:Hlist.
  - rewrite (bind_raised _ _ _ _ _
               (lift_run _ _ _ _ _ (findMany_refused env w e Hlist))).
    apply (handler_recovered env e (@nil SalesDetail)).
  - rewrite (bind_returned _ _ _ _ _
               (lift_run _ _ _ _ _ (findMany_listed env w Hlist))).
    rewrite (bind_returned _ _ _ _ _
               (forEach_collect (Sync.processProduct env) (products w)
                  (sales_processProduct_returns env) [] _)).
    destruct (runAll (Sync.processProduct env) (products w)
                (set_tick (S (tick w)) w)) as [ds w2].
    cbn [fst snd app].
    unfold bind at 1. unfold getLocal at 1. cbn [fst snd].
    destruct (dbFault env (tick w2) CreateSyncLog) as [e |] eqn:Hlog.
    + rewrite (bind_raised _ _ _ _ _
                 (lift_run _ _ _ _ _ (syncLog_create_refused env _ _ _ w2 e Hlog))).
      apply (handler_recovered env e ds).
    + rewrite (bind_returned _ _ _ _ _
                 (lift_run _ _ _ _ _ (syncLog_create_done env _ _ _ w2 Hlog))).
      reflexivity.
Qed.

Lemma push_sync_closed env w :
  SyncOverwrite.syncAllInventory env w = pushBatch env w.
Proof.
  unfold SyncOverwrite.syncAllInventory, pushBatch, scope, tryCatch,
    SyncOverwrite.mainBlock.
  destruct (dbFault env (tick w) FindMany) as [e |] eqn:Hlist.
  - rewrite (bind_raised _ _ _ _ _
               (lift_run _ _ _ _ _ (findMany_refused env w e Hlist))).
    apply (handler_recovered env e (@nil PushDetail)).
  - rewrite (bind_returned _ _ _ _ _
               (lift_run _ _ _ _ _ (findMany_listed env w Hlist))).
    rewrite (bind_returned _ _ _ _ _
               (forEach_collect (SyncOverwrite.processProduct env) (products w)
                  (push_processProduct_returns env) [] _)).
    destruct (runAll (SyncOverwrite.processProduct env) (products w)
                (set_tick (S (tick w)) w)) as [ds w2].
    cbn [fst snd app].
    unfold bind at 1. unfold getLocal at 1. cbn [fst snd].
    destruct (dbFault env (tick w2) CreateSyncLog) as [e |] eqn:Hlog.
    + rewrite (bind_raised _ _ _ _ _
                 (lift_run _ _ _ _ _ (syncLog_create_refused env _ _ _ w2 e Hlog))).
      apply (handler_recovered env e ds).
    + rewrite (bind_returned _ _ _ _ _
                 (lift_run _ _ _ _ _ (syncLog_create_done env _ _ _ w2 Hlog))).
      reflexivity.
Qed.




(** C7, as stated, fails.  With marketplaces that report the same
    quantities whenever they are asked, two direct-overwrite
    reconciliations in succession log entries of different status when the
    database refuses a row update during the first run only: [partial],
    then [success]. *)
Lemma overwrite_status_differs :
  (forall t t' req,
      amazonSummariesEndpoint flakyEnv t req
      = amazonSummariesEndpoint flakyEnv t' req
      /\ mlItemEndpoint flakyEnv t req = mlItemEndpoint flakyEnv t' req)
  /\ discard (fst (SyncOverwrite.syncAllInventory flakyEnv (initialWorld [tracked])))
     = Returned tt
  /\ discard
       (fst (SyncOverwrite.syncAllInventory flakyEnv
               (snd (SyncOverwrite.syncAllInventory flakyEnv
                       (initialWorld [tracked])))))
     = Returned tt
  /\ map status
       (syncLogs
          (snd (SyncOverwrite.syncAllInventory flakyEnv
                  (snd (SyncOverwrite.syncAllInventory flakyEnv
                          (initialWorld [tracked]))))))
     = ["partial"; "success"].
Proof.
  split; [intros t t' req; split; reflexivity |].
  vm_compute. repeat split; reflexivity.
Qed.




(** ** Order of processing and order of listing *)

Lemma insertBySku_perm p rows :
  Permutation (p :: rows) (Prisma.insertBySku p rows).
Proof.
  induction rows as [| q rest IH]; simpl.
  - apply Permutation_refl.
  - destruct (String.leb (sku p) (sku q)).
    + apply Permutation_refl.
    + eapply perm_trans; [apply perm_swap |]. apply perm_skip. exact IH.
Qed.

Lemma orderBySkuAsc_perm rows : Permutation rows (Prisma.orderBySkuAsc rows).
Proof.
  induction rows as [| p rest IH]; simpl.
  - apply Permutation_refl.
  - eapply perm_trans; [apply perm_skip; exact IH |]. apply insertBySku_perm.
Qed.

Lemma insertBySku_sorted p rows :
  Sorted bySku rows -> Sorted bySku (Prisma.insertBySku p rows).
Proof.
  induction rows as [| q rest IH]; simpl; intros Hs.
  - repeat constructor.
  - destruct (String.leb (sku p) (sku q)) eqn:Hpq.
    + constructor; [exact Hs |]. constructor. exact Hpq.
    + assert (Hqp : bySku q p).
      { unfold bySku. destruct (String.leb_total (sku p) (sku q)); congruence. }
      inversion Hs as [| q' rest' Hrest Hhd]; subst.
      constructor; [apply IH; exact Hrest |].
      destruct rest as [| r rest]; simpl.
      * constructor. exact Hqp.
      * destruct (String.leb (sku p) (sku r)); constructor; [exact Hqp |].
        inversion Hhd; subst. assumption.
Qed.

Lemma orderBySkuAsc_sorted rows : Sorted bySku (Prisma.orderBySkuAsc rows).
Proof.
  induction rows as [| p rest IH]; simpl.
  - constructor.
  - apply insertBySku_sorted. exact IH.
Qed.

Lemma GET_listing env w ps lastSync w' :
  Routes.GET env w = (Returned (Routes.Json (ps, lastSync)), w') ->
  ps = Prisma.orderBySkuAsc (products w).
Proof.
  unfold Routes.GET, Routes.getServerSession.
  unfold bind at 1. unfold bind at 1. unfold interact, ret.
  destruct (serverSession env (tick w)); simpl; [| discriminate].
  unfold tryCatch, Prisma.product_findMany_orderBy_sku,
    Prisma.syncLog_findFirst_success, dbCall, bind, interact, gets, throw, ret.
  simpl.
  destruct (dbFault env (S (tick w)) FindManyOrdered); simpl; [discriminate |].
  destruct (dbFault env (S (S (tick w))) FindFirstSyncLog); simpl;
    [discriminate |].
  intros H. inversion H. reflexivity.
Qed.

Lemma push_detail_sku env p w d w' :
  SyncOverwrite.processProduct env p w = (Returned d, w') -> pd_sku d = sku p.
Proof.
  destruct (push_iteration env p w)
    as (fA & w1 & fB & w2 & upA & w3 & upB & w4 & _ & _ & _ & _ & _ & Hrun).
  destruct (Prisma.product_update env (prod_id p)
              (SyncOverwrite.refreshedRow fA fB (dateNow env (tick w4)))
              (set_tick (S (tick w4)) w4)) as [o w5] eqn:Hupd.
  rewrite (Hrun o w5 eq_refl). intros H. inversion H. reflexivity.
Qed.

(** Counterexample to C8 as stated.  The claim that a batch processes
    products in ascending order of SKU
    fails: a table holding ZINC-1 before ACET-1 is processed in that order,
    while the dashboard listing of the same table starts with ACET-1. *)
Lemma batch_order_not_by_sku :
  (exists res w',
      Sync.syncAllInventory calmEnv (initialWorld [zinc; acetone])
      = (Returned res, w')
      /\ map sd_sku (res_details res) = ["ZINC-1"; "ACET-1"])
  /\ (exists res w',
         SyncOverwrite.syncAllInventory calmEnv (initialWorld [zinc; acetone])
         = (Returned res, w')
         /\ map pd_sku (res_details res) = ["ZINC-1"; "ACET-1"])
  /\ String.leb "ZINC-1" "ACET-1" = false
  /\ fst (Routes.GET calmEnv (initialWorld [zinc; acetone]))
     = Returned (Routes.Json ([acetone; zinc], None)).
Proof.
  split; [| split; [| split]].
  - eexists. eexists. split; [vm_compute; reflexivity | reflexivity].
  - eexists. eexists. split; [vm_compute; reflexivity | reflexivity].
  - reflexivity.
  - vm_compute. reflexivity.
Qed.

(** C8, as the code has it. A batch processes the products one after the
    other in the order in which its own listing query, which asks for no
    ordering, returns the rows: the details follow the listing, and the
    products after any prefix are processed from the state the prefix left.
    Only the dashboard listing ([GET]) is sorted by SKU, ascending. *)
Theorem processing_order env w :
  (dbFault env (tick w) FindMany = None ->
   (forall t, dbFault env t CreateSyncLog = None) ->
   (exists res w',
       Sync.syncAllInventory env w = (Returned res, w')
       /\ map sd_sku (res_details res) = map sku (products w)
       /\ forall before after,
           products w = (before ++ after)%list ->
           res_details res
           = (fst (runAll (Sync.processProduct env) before
                     (set_tick (S (tick w)) w))
              ++ fst (runAll (Sync.processProduct env) after
                        (snd (runAll (Sync.processProduct env) before
                                (set_tick (S (tick w)) w)))))%list)
   /\ (exists res w',
          SyncOverwrite.syncAllInventory env w = (Returned res, w')
          /\ map pd_sku (res_details res) = map sku (products w)
          /\ forall before after,
              products w = (before ++ after)%list ->
              res_details res
              = (fst (runAll (SyncOverwrite.processProduct env) before
                        (set_tick (S (tick w)) w))
                 ++ fst (runAll (SyncOverwrite.processProduct env) after
                           (snd (runAll (SyncOverwrite.processProduct env) before
                                   (set_tick (S (tick w)) w)))))%list))
  /\ (forall ps lastSync w',
        Routes.GET env w = (Returned (Routes.Json (ps, lastSync)), w') ->
        Sorted bySku ps /\ Permutation (products w) ps).
Proof.
  split.
  - intros Hlist Hlog. split.
    + destruct (runAll (Sync.processProduct env) (products w)
                  (set_tick (S (tick w)) w)) as [ds w2] eqn:Hloop.
      destruct (sales_sync_run env w Hlist ds w2 Hloop (Hlog _))
        as [msg [logmsg Hres]].
      eexists. eexists. split; [exact Hres |]. cbn [res_details].
      assert (Hds : ds = fst (runAll (Sync.processProduct env) (products w)
                                (set_tick (S (tick w)) w)))
        by (rewrite Hloop; reflexivity).
      split.
      * rewrite Hds. apply runAll_map.
        -- apply sales_processProduct_returns.
        -- intros p w0 d w0' H. exact (sales_detail_sku env p w0 d w0' H).
      * intros before after Hsplit. rewrite Hds, Hsplit.
        rewrite (runAll_app _ before after _ (sales_processProduct_returns env)).
        reflexivity.
    + destruct (runAll (SyncOverwrite.processProduct env) (products w)
                  (set_tick (S (tick w)) w)) as [ds w2] eqn:Hloop.
      destruct (push_sync_run env w Hlist ds w2 Hloop (Hlog _))
        as [msg [logmsg Hres]].
      eexists. eexists. split; [exact Hres |]. cbn [res_details].
      assert (Hds : ds = fst (runAll (SyncOverwrite.processProduct env) (products w)
                                (set_tick (S (tick w)) w)))
        by (rewrite Hloop; reflexivity).
      split.
      * rewrite Hds. apply runAll_map.
        -- apply push_processProduct_returns.
        -- intros p w0 d w0' H. exact (push_detail_sku env p w0 d w0' H).
      * intros before after Hsplit. rewrite Hds, Hsplit.
        rewrite (runAll_app _ before after _ (push_processProduct_returns env)).
        reflexivity.
  - intros ps lastSync w' Hget.
    rewrite (GET_listing env w ps lastSync w' Hget).
    split; [apply orderBySkuAsc_sorted | apply orderBySkuAsc_perm].
Qed.

(** ** Instances *)

(** The details of a batch that read its listing and returned are those
    of the loop over the listing. *)
Lemma sales_sync_details env w res w' :
  dbFault env (tick w) FindMany = None ->
  Sync.syncAllInventory env w = (Returned res, w') ->
  res_details res
  = fst (runAll (Sync.processProduct env) (products w) (set_tick (S (tick w)) w)).
Proof.
  intros Hlist. rewrite sales_sync_closed. unfold salesBatch, recovered.
  rewrite Hlist.
  destruct (runAll (Sync.processProduct env) (products w)
              (set_tick (S (tick w)) w)) as [ds w2].
  destruct (dbFault env (tick w2) CreateSyncLog) as [e |].
  - destruct (stringifyFault env e); [discriminate |].
    destruct (dbFault env _ CreateSyncLog); intros H; inversion H; reflexivity.
  - intros H; inversion H; reflexivity.
Qed.

(** C1. In the sales-delta reconciliation the current quantity of a
    marketplace is the fetched one or, when the read returns [null] or the
    product is not configured for the marketplace, the recorded one.  For
    quantities on which the arithmetic of the doubles is exact, the sales
    recorded for a marketplace are max(0, previous - current) and the new
    quantity is max(0, warehouse - (sales_A + sales_B)); a current quantity
    above the previous one gives sales 0; previous 100/100, current 97/100
    and warehouse 100 give sales 3 and 0 and new quantity 97.  The detail so
    computed is the one a batch returns for the product, at the product's
    position in the listing. *)
Theorem sales_delta_accounting env p w :
  exists curA w1 curB w2 d w',
    Sync.readAmazon env p w = (Returned curA, w1)
    /\ Sync.readML env p w1 = (Returned curB, w2)
    /\ (truthy (amazonAsin p) = true ->
        exists fetched,
          Amazon.getAmazonInventory env (sku p) w = (Returned fetched, w1)
          /\ curA = currentOr (amazonQty p) fetched)
    /\ (truthy (amazonAsin p) = false -> curA = amazonQty p /\ w1 = w)
    /\ (forall itemId,
          mlItemId p = Some itemId -> itemId <> "" ->
          exists fetched,
            MercadoLibre.getMLInventory env itemId None w1 = (Returned fetched, w2)
            /\ curB = currentOr (mlQty p) fetched)
    /\ (truthy (mlItemId p) = false -> curB = mlQty p /\ w2 = w1)
    /\ Sync.processProduct env p w = (Returned d, w')
    /\ sd_sku d = sku p /\ previousQty d = warehouseQty p
    /\ (exactInputs p curA curB = true ->
        amazonSales d = Z.max 0 (amazonQty p - curA)
        /\ mlSales d = Z.max 0 (mlQty p - curB)
        /\ newQty d = Z.max 0 (warehouseQty p - (amazonSales d + mlSales d)))
    /\ (amazonQty p < curA -> amazonSales d = 0)
    /\ (mlQty p < curB -> mlSales d = 0)
    /\ (amazonQty p = 100 -> curA = 97 -> mlQty p = 100 -> curB = 100 ->
        warehouseQty p = 100 ->
        amazonSales d = 3 /\ mlSales d = 0 /\ newQty d = 97)
    /\ (forall w0 before after res wend,
          products w0 = (before ++ p :: after)%list ->
          dbFault env (tick w0) FindMany = None ->
          w = snd (runAll (Sync.processProduct env) before
                     (set_tick (S (tick w0)) w0)) ->
          Sync.syncAllInventory env w0 = (Returned res, wend) ->
          nth_error (res_details res) (List.length before) = Some d).
Proof.
  destruct (sales_iteration env p w)
    as (curA & w1 & curB & w2 & upA & w3 & upB & w4 & HA & HB & _ & _ & _ & Hrun).
  destruct (Prisma.product_update env (prod_id p)
              (Sync.syncedRow
                 (Z.max 0 (warehouseQty p
                    - (Z.max 0 (amazonQty p - curA) + Z.max 0 (mlQty p - curB))))
                 (dateNow env (tick w4)))
              (set_tick (S (tick w4)) w4)) as [o w5] eqn:Hupd.
  specialize (Hrun o w5 eq_refl).
  exists curA, w1, curB, w2. eexists. exists w5.
  split; [exact HA |]. split; [exact HB |].
  split; [intros Hasin; exact (readAmazon_current env p w curA w1 HA Hasin) |].
  split.
  { intros Hasin. rewrite (readAmazon_unset env p w Hasin) in HA.
    inversion HA. split; reflexivity. }
  split; [intros itemId Hid Hne;
          exact (readML_current env p w1 curB w2 itemId HB Hid Hne) |].
  split.
  { intros Hid. rewrite (readML_unset env p w1 Hid) in HB.
    inversion HB. split; reflexivity. }
  split; [exact Hrun |].
  cbn [amazonSales mlSales newQty sd_sku previousQty].
  split; [reflexivity |]. split; [reflexivity |].
  split; [intros _; repeat split; reflexivity |].
  split; [intros; lia |]. split; [intros; lia |].
  split.
  { intros HpA HcA HpB HcB Hwh. rewrite HpA, HcA, HpB, HcB, Hwh.
    repeat split; reflexivity. }
  intros w0 before after res wend Hsplit Hlist Hw Hsync.
  rewrite (sales_sync_details env w0 res wend Hlist Hsync), Hsplit.
  rewrite (runAll_app _ before (p :: after) _ (sales_processProduct_returns env)).
  cbn [fst].
  destruct (runAll_returns (Sync.processProduct env) p after
              (snd (runAll (Sync.processProduct env) before
                      (set_tick (S (tick w0)) w0)))
              (sales_processProduct_returns env p)) as [d [wq [Hp Hrest]]].
  rewrite Hrest. cbn [fst]. rewrite <- Hw in Hp. rewrite Hrun in Hp.
  inversion Hp; subst d wq.
  rewrite nth_error_app2;
    rewrite (runAll_length _ before _ (sales_processProduct_returns env));
    [| apply Nat.le_refl].
  rewrite Nat.sub_diag. reflexivity.
Qed.

(** On the instance of the claim: Amazon reports 97 and Mercado Libre 100
    for a product recorded with 100 everywhere; and a product listed on no
    marketplace has its recorded quantities taken as current. *)
Lemma sales_delta_accounting_witness :
  (exists d w',
      Sync.processProduct deltaEnv tracked (initialWorld [tracked]) = (Returned d, w')
      /\ amazonSales d = 3 /\ mlSales d = 0 /\ newQty d = 97)
  /\ (exists d w',
         Sync.processProduct calmEnv unlisted (initialWorld [unlisted])
         = (Returned d, w')
         /\ amazonSales d = 0 /\ mlSales d = 0 /\ newQty d = 12).
Proof.
  split.
  - destruct (sales_delta_accounting deltaEnv tracked (initialWorld [tracked]))
      as (curA & w1 & curB & w2 & d & w' & HA & HB & _ & _ & _ & _ & Hrun & _ & _
          & _ & _ & _ & Hexample & _).
    exists d, w'. split; [exact Hrun |].
    vm_compute in HA. inversion HA; subst curA w1.
    vm_compute in HB. inversion HB; subst curB w2.
    apply Hexample; reflexivity.
  - destruct (sales_delta_accounting calmEnv unlisted (initialWorld [unlisted]))
      as (curA & w1 & curB & w2 & d & w' & _ & _ & _ & HnoA & _ & HnoB & Hrun & _
          & _ & Hexact & _).
    destruct (HnoA eq_refl) as [HcA _]. destruct (HnoB eq_refl) as [HcB _].
    subst curA curB.
    destruct (Hexact eq_refl) as (HsA & HsB & Hnew).
    exists d, w'. split; [exact Hrun |].
    rewrite Hnew, HsA, HsB. repeat split; reflexivity.
Defined.



Lemma auth_failure_absorbed_witness :
  fst (Amazon.getAccessToken deniedEnv (initialWorld [tracked]))
  = Raised (ErrorObj "Failed to get Amazon access token: denied")
  /\ Sync.readAmazon deniedEnv tracked (initialWorld [tracked])
     = (Returned 100,
        snd (Amazon.getAccessToken deniedEnv (initialWorld [tracked]))).
Proof.
  split.
  - refine (proj1 (auth_failure_absorbed deniedEnv (initialWorld [tracked]))
              _ (mkResponse false "denied" (Raised NonError)) _ _);
      [exact I | reflexivity | reflexivity].
  - refine (proj2 (proj1 (proj2 (proj2 (proj2
              (auth_failure_absorbed deniedEnv (initialWorld [tracked])))))
              (ErrorObj "Failed to get Amazon access token: denied") _ _)
              tracked _);
      reflexivity.
Defined.

Lemma quantities_non_negative_witness :
  staysNonNegative (initialWorld [tracked])
    (snd (Routes.PUT calmEnv "p1" (Returned (Some 7)) (initialWorld [tracked])))
  /\ staysNonNegative (initialWorld [tracked])
       (snd (Routes.POST calmEnv
               (Returned (Routes.mkPostBody "SKU-9" "Resina" (Some 4) None None))
               (initialWorld [tracked]))).
Proof.
  split.
  - apply (proj1 (proj2 (proj2
             (quantities_non_negative calmEnv (initialWorld [tracked])))) "p1").
    intros q H. inversion H. lia.
  - apply (proj2 (proj2 (proj2
             (quantities_non_negative calmEnv (initialWorld [tracked]))))).
    + intros b H. inversion H. simpl. lia.
    + simpl. lia.
Defined.

Lemma processing_order_witness :
  exists res w',
    Sync.syncAllInventory calmEnv (initialWorld [zinc; acetone]) = (Returned res, w')
    /\ map sd_sku (res_details res) = ["ZINC-1"; "ACET-1"].
Proof.
  destruct (proj1 (proj1 (processing_order calmEnv (initialWorld [zinc; acetone]))
                     eq_refl (fun _ => eq_refl)))
    as [res [w' [Hrun [Hskus _]]]].
  exists res, w'. split; [exact Hrun | exact Hskus].
Defined.

(** * Further properties of the code *)

(** ** The marketplace calls *)

Lemma getAmazonInventory_returns env sku :
  returns (Amazon.getAmazonInventory env sku).
Proof. unfold Amazon.getAmazonInventory. apply returns_tryCatch_ret. Qed.

Lemma updateAmazonInventory_returns env sku q :
  returns (Amazon.updateAmazonInventory env sku q).
Proof. unfold Amazon.updateAmazonInventory. apply returns_tryCatch_ret. Qed.

Lemma getMLInventory_returns env itemId variationId :
  returns (MercadoLibre.getMLInventory env itemId variationId).
Proof. unfold MercadoLibre.getMLInventory. apply returns_tryCatch_ret. Qed.

Lemma updateMLInventory_returns env itemId q variationId :
  returns (MercadoLibre.updateMLInventory env itemId q variationId).
Proof. unfold MercadoLibre.updateMLInventory. apply returns_tryCatch_ret. Qed.

(** X1. The four marketplace calls never raise, whatever the token
    endpoint, the network or the peer do, and they leave both database
    tables as they were. *)
Theorem marketplace_calls_never_raise env w :
  (forall sku,
      exists r w',
        Amazon.getAmazonInventory env sku w = (Returned r, w')
        /\ sameTables w w')
  /\ (forall sku q,
        exists b w',
          Amazon.updateAmazonInventory env sku q w = (Returned b, w')
          /\ sameTables w w')
  /\ (forall itemId variationId,
        exists r w',
          MercadoLibre.getMLInventory env itemId variationId w = (Returned r, w')
          /\ sameTables w w')
  /\ (forall itemId q variationId,
        exists b w',
          MercadoLibre.updateMLInventory env itemId q variationId w
          = (Returned b, w')
          /\ sameTables w w').
Proof.
  split; [| split; [| split]].
  - intros sku.
    destruct (getAmazonInventory_returns env sku w) as [r [w' H]].
    exists r, w'. split; [exact H |].
    exact (getAmazonInventory_tables env sku w _ w' H).
  - intros sku q.
    destruct (updateAmazonInventory_returns env sku q w) as [b [w' H]].
    exists b, w'. split; [exact H |].
    exact (updateAmazonInventory_tables env sku q w _ w' H).
  - intros itemId variationId.
    destruct (getMLInventory_returns env itemId variationId w) as [r [w' H]].
    exists r, w'. split; [exact H |].
    exact (getMLInventory_tables env itemId variationId w _ w' H).
  - intros itemId q variationId.
    destruct (updateMLInventory_returns env itemId q variationId w) as [b [w' H]].
    exists b, w'. split; [exact H |].
    exact (updateMLInventory_tables env itemId q variationId w _ w' H).
Qed.

(** [getAmazonInventory] once the token is there. *)
Lemma getAmazonInventory_with_token env sku w tok w1 :
  Amazon.getAccessToken env w = (Returned tok, w1) ->
  Amazon.getAmazonInventory env sku w =
  (Returned
     match amazonSummariesEndpoint env (tick w1) (AmazonSummariesGet tok sku) with
     | Returned r =>
         if ok r then
           match json r with
           | Returned data =>
               match inventorySummaries data with
               | Some (s :: _) => Some (orZero (totalQuantity s))
               | _ => None
               end
           | Raised _ => None
           end
         else None
     | Raised _ => None
     end,
   afterRequest (AmazonSummariesGet tok sku) w1).
Proof.
  intros Htok. unfold Amazon.getAmazonInventory, tryCatch.
  rewrite (bind_returned _ _ _ _ _ Htok).
  unfold bind at 1. rewrite fetch_run.
  destruct (amazonSummariesEndpoint env (tick w1) (AmazonSummariesGet tok sku))
    as [r | e]; [| reflexivity].
  destruct (ok r); [| reflexivity]. cbn [negb].
  unfold bind, liftOutcome, ret.
  destruct (json r) as [data | e]; [| reflexivity].
  destruct (inventorySummaries data) as [[| s rest] |]; reflexivity.
Qed.

(** X2. [getAmazonInventory] returns a quantity exactly when the token was
    obtained, the summaries request was answered with success, its body
    parsed and held at least one summary; the quantity is then the first
    summary's [totalQuantity], or 0 when that field is missing.  In every
    other case (token failure, network failure, non-success status,
    unparsable body, no summary) it returns [null]. *)
Theorem amazon_read_quantity_iff env sku w q :
  fst (Amazon.getAmazonInventory env sku w) = Returned (Some q)
  <-> exists tok w1 r data s rest,
        Amazon.getAccessToken env w = (Returned tok, w1)
        /\ amazonSummariesEndpoint env (tick w1) (AmazonSummariesGet tok sku)
           = Returned r
        /\ ok r = true
        /\ json r = Returned data
        /\ inventorySummaries data = Some (s :: rest)
        /\ q = orZero (totalQuantity s).
Proof.
  split.
  - destruct (Amazon.getAccessToken env w) as [[tok | e] w1] eqn:Htok.
    + rewrite (getAmazonInventory_with_token env sku w tok w1 Htok). cbn [fst].
      destruct (amazonSummariesEndpoint env (tick w1) (AmazonSummariesGet tok sku))
        as [r | e] eqn:Hresp; [| discriminate].
      destruct (ok r) eqn:Hok; [| discriminate].
      destruct (json r) as [data | e] eqn:Hjson; [| discriminate].
      destruct (inventorySummaries data) as [[| s rest] |] eqn:Hsum;
        try discriminate.
      intros H. inversion H; subst.
      exists tok, w1, r, data, s, rest. repeat split; assumption || reflexivity.
    + rewrite (proj1 (amazon_calls_absorb env w e w1 sku 0 Htok)). discriminate.
  - intros (tok & w1 & r & data & s & rest & Htok & Hresp & Hok & Hjson & Hsum & ->).
    rewrite (getAmazonInventory_with_token env sku w tok w1 Htok). cbn [fst].
    rewrite Hresp, Hok, Hjson, Hsum. reflexivity.
Qed.

Lemma amazon_read_quantity_iff_witness :
  fst (Amazon.getAmazonInventory calmEnv "SKU-1" (initialWorld [])) = Returned (Some 97).
Proof.
  apply (proj2 (amazon_read_quantity_iff calmEnv "SKU-1" (initialWorld []) 97)).
  exists "amz-token",
    (snd (Amazon.getAccessToken calmEnv (initialWorld []))),
    (mkResponse true ""
       (Returned (mkAmazonSummaries (Some [mkInventorySummary (Some 97)])))),
    (mkAmazonSummaries (Some [mkInventorySummary (Some 97)])),
    (mkInventorySummary (Some 97)), [].
  repeat split; reflexivity.
Defined.

(** X3. A write reports [true] exactly when the token was obtained and the
    write request was answered with success; the request then sent is the
    only one after the token's, and it names the SKU (Amazon) or the item
    (Mercado Libre: the variation when a non-empty variation id is given,
    the item otherwise) with the quantity to set. *)
Theorem update_true_iff env w :
  (forall sku q,
      fst (Amazon.updateAmazonInventory env sku q w) = Returned true
      <-> exists tok w1 r,
            Amazon.getAccessToken env w = (Returned tok, w1)
            /\ amazonQuantitiesEndpoint env (tick w1)
                 (AmazonSkuQuantitiesPut tok sku q) = Returned r
            /\ ok r = true
            /\ sent (snd (Amazon.updateAmazonInventory env sku q w))
               = (sent w1 ++ [AmazonSkuQuantitiesPut tok sku q])%list)
  /\ (forall itemId q variationId,
        fst (MercadoLibre.updateMLInventory env itemId q variationId w)
        = Returned true
        <-> exists tok w1 r,
              MercadoLibre.getAccessToken env w = (Returned tok, w1)
              /\ mlItemPutEndpoint env (tick w1)
                   (MLItemPut tok itemId (mlPutBody variationId q)) = Returned r
              /\ ok r = true
              /\ sent (snd (MercadoLibre.updateMLInventory env itemId q variationId w))
                 = (sent w1 ++ [MLItemPut tok itemId (mlPutBody variationId q)])%list).
Proof.
  split.
  - intros sku q. split.
    + destruct (Amazon.getAccessToken env w) as [[tok | e] w1] eqn:Htok.
      * rewrite (updateAmazonInventory_with_token env sku q w tok w1 Htok).
        cbn [fst snd].
        destruct (amazonQuantitiesEndpoint env (tick w1)
                    (AmazonSkuQuantitiesPut tok sku q)) as [r | e] eqn:Hresp;
          [| discriminate].
        intros H. inversion H.
        exists tok, w1, r. repeat split; try assumption; reflexivity.
      * rewrite (proj2 (amazon_calls_absorb env w e w1 sku q Htok)). discriminate.
    + intros (tok & w1 & r & Htok & Hresp & Hok & _).
      rewrite (updateAmazonInventory_with_token env sku q w tok w1 Htok).
      cbn [fst]. rewrite Hresp, Hok. reflexivity.
  - intros itemId q variationId. split.
    + destruct (MercadoLibre.getAccessToken env w) as [[tok | e] w1] eqn:Htok.
      * rewrite (updateMLInventory_with_token env itemId q variationId w tok w1 Htok).
        cbn [fst snd].
        destruct (mlItemPutEndpoint env (tick w1)
                    (MLItemPut tok itemId (mlPutBody variationId q)))
          as [r | e] eqn:Hresp; [| discriminate].
        intros H. inversion H.
        exists tok, w1, r. repeat split; try assumption; reflexivity.
      * rewrite (proj2 (ml_calls_absorb env w e w1 itemId variationId q Htok)).
        discriminate.
    + intros (tok & w1 & r & Htok & Hresp & Hok & _).
      rewrite (updateMLInventory_with_token env itemId q variationId w tok w1 Htok).
      cbn [fst]. rewrite Hresp, Hok. reflexivity.
Qed.

Lemma update_true_iff_witness :
  fst (MercadoLibre.updateMLInventory calmEnv "MLM1" 7 (Some "183") (initialWorld []))
  = Returned true.
Proof.
  apply (proj2 (proj2 (update_true_iff calmEnv (initialWorld []))
                  "MLM1" 7 (Some "183"))).
  exists "ml-token", (snd (MercadoLibre.getAccessToken calmEnv (initialWorld []))),
    (mkResponse true "" (Returned tt)).
  repeat split; reflexivity.
Defined.

(** ** The token caches *)

Lemma amazon_exchange_cache env w o w' :
  Amazon.exchangeToken env w = (o, w') ->
  cachedMLToken w' = cachedMLToken w
  /\ match o with
     | Returned tok => exists c, cachedToken w' = Some c /\ ac_token c = tok
     | Raised _ => cachedToken w' = cachedToken w
     end.
Proof.
  unfold Amazon.exchangeToken. unfold bind at 1. rewrite fetch_run.
  destruct (amazonTokenEndpoint env (tick w) _) as [r | e].
  - destruct (ok r); cbn [negb].
    + unfold bind, liftOutcome, Date_now, interact, modify, ret.
      destruct (json r) as [data | e]; intros H; inversion H; subst.
      * split; [reflexivity |]. eexists. split; reflexivity.
      * split; reflexivity.
    + unfold throw. intros H; inversion H; subst. split; reflexivity.
  - intros H; inversion H; subst. split; reflexivity.
Qed.

Lemma ml_exchange_cache env refreshToken w o w' :
  MercadoLibre.exchangeToken env refreshToken w = (o, w') ->
  cachedToken w' = cachedToken w
  /\ match o with
     | Returned tok => exists c, cachedMLToken w' = Some c /\ mc_token c = tok
     | Raised _ => cachedMLToken w' = cachedMLToken w
     end.
Proof.
  unfold MercadoLibre.exchangeToken. unfold bind at 1. rewrite fetch_run.
  destruct (mlTokenEndpoint env (tick w) _) as [r | e].
  - destruct (ok r); cbn [negb].
    + unfold bind, liftOutcome, Date_now, interact, modify, ret.
      destruct (json r) as [data | e]; intros H; inversion H; subst.
      * split; [reflexivity |]. eexists. split; reflexivity.
      * split; reflexivity.
    + unfold throw. intros H; inversion H; subst. split; reflexivity.
  - intros H; inversion H; subst. split; reflexivity.
Qed.

Lemma amazon_getAccessToken_cache env w o w' :
  Amazon.getAccessToken env w = (o, w') ->
  cachedMLToken w' = cachedMLToken w
  /\ match o with
     | Returned tok => exists c, cachedToken w' = Some c /\ ac_token c = tok
     | Raised _ => cachedToken w' = cachedToken w
     end.
Proof.
  intros H.
  assert (Hcases : (exists c, cachedToken w = Some c
                              /\ dateNow env (tick w) < ac_expiresAt c)
                   \/ amazonStale env w).
  { unfold amazonStale. destruct (cachedToken w) as [c |]; [| right; exact I].
    destruct (Z.lt_ge_cases (dateNow env (tick w)) (ac_expiresAt c));
      [left; eauto | right; assumption]. }
  destruct Hcases as [[c [Hc Hlt]] | Hstale].
  - rewrite (amazon_token_cached env w c Hc Hlt) in H. inversion H; subst.
    split; [reflexivity |]. exists c. split; [exact Hc | reflexivity].
  - rewrite (amazon_stale_exchanges env w Hstale) in H.
    apply amazon_exchange_cache in H. exact H.
Qed.

Lemma ml_getAccessToken_cache env w o w' :
  MercadoLibre.getAccessToken env w = (o, w') ->
  cachedToken w' = cachedToken w
  /\ match o with
     | Returned tok => exists c, cachedMLToken w' = Some c /\ mc_token c = tok
     | Raised _ => cachedMLToken w' = cachedMLToken w
     end.
Proof.
  assert (Hrenew : forall cached w0 o0 w0',
             MercadoLibre.renewToken env cached w0 = (o0, w0') ->
             cachedToken w0' = cachedToken w0
             /\ match o0 with
                | Returned tok =>
                    exists c, cachedMLToken w0' = Some c /\ mc_token c = tok
                | Raised _ => cachedMLToken w0' = cachedMLToken w0
                end).
  { intros cached w0 o0 w0'. unfold MercadoLibre.renewToken.
    destruct (orElse _ _) as [[| a s] |];
      try (unfold throw; intros H; inversion H; subst; split; reflexivity).
    apply ml_exchange_cache. }
  intros H.
  assert (Hcases : (exists c, cachedMLToken w = Some c
                              /\ dateNow env (tick w) < mc_expiresAt c)
                   \/ mlStale env w).
  { unfold mlStale. destruct (cachedMLToken w) as [c |]; [| right; exact I].
    destruct (Z.lt_ge_cases (dateNow env (tick w)) (mc_expiresAt c));
      [left; eauto | right; assumption]. }
  destruct Hcases as [[c [Hc Hlt]] | Hstale].
  - rewrite (ml_token_cached env w c Hc Hlt) in H. inversion H; subst.
    split; [reflexivity |]. exists c. split; [exact Hc | reflexivity].
  - rewrite (ml_stale_renews env w Hstale) in H.
    apply Hrenew in H. exact H.
Qed.

(** X4. [getAccessToken] replaces the cached token wholesale or not at
    all: when it returns, the cache holds the token it returned; when it
    raises, the cache is as it was; and a client never touches the cache of
    the other marketplace. *)
Theorem token_cache_integrity env w :
  (forall o w',
      Amazon.getAccessToken env w = (o, w') ->
      cachedMLToken w' = cachedMLToken w
      /\ (forall tok, o = Returned tok ->
          exists c, cachedToken w' = Some c /\ ac_token c = tok)
      /\ (forall e, o = Raised e -> cachedToken w' = cachedToken w))
  /\ (forall o w',
        MercadoLibre.getAccessToken env w = (o, w') ->
        cachedToken w' = cachedToken w
        /\ (forall tok, o = Returned tok ->
            exists c, cachedMLToken w' = Some c /\ mc_token c = tok)
        /\ (forall e, o = Raised e -> cachedMLToken w' = cachedMLToken w)).
Proof.
  split; intros o w' H.
  - destruct (amazon_getAccessToken_cache env w o w' H) as [Hother Hown].
    split; [exact Hother |]. split.
    + intros tok ->. exact Hown.
    + intros e ->. exact Hown.
  - destruct (ml_getAccessToken_cache env w o w' H) as [Hother Hown].
    split; [exact Hother |]. split.
    + intros tok ->. exact Hown.
    + intros e ->. exact Hown.
Qed.

Lemma token_cache_integrity_witness :
  cachedToken (snd (Amazon.getAccessToken deniedEnv (cachedWorld 7)))
  = Some (mkAmazonCache "old-amz" 5000).
Proof.
  refine (proj2 (proj2 (proj1 (token_cache_integrity deniedEnv (cachedWorld 7))
            _ _ (surjective_pairing _)))
            (ErrorObj "Failed to get Amazon access token: denied") _).
  reflexivity.
Defined.

(** X5. A token that [getAccessToken] has returned is served again from
    the cache, with nothing sent, by the next call whose clock reading is
    before the cached expiry. *)
Theorem token_reused_until_expiry env w :
  (forall tok w1,
      Amazon.getAccessToken env w = (Returned tok, w1) ->
      exists c,
        cachedToken w1 = Some c
        /\ (dateNow env (tick w1) < ac_expiresAt c ->
            exists w2,
              Amazon.getAccessToken env w1 = (Returned tok, w2)
              /\ sent w2 = sent w1 /\ cachedToken w2 = Some c))
  /\ (forall tok w1,
        MercadoLibre.getAccessToken env w = (Returned tok, w1) ->
        exists c,
          cachedMLToken w1 = Some c
          /\ (dateNow env (tick w1) < mc_expiresAt c ->
              exists w2,
                MercadoLibre.getAccessToken env w1 = (Returned tok, w2)
                /\ sent w2 = sent w1 /\ cachedMLToken w2 = Some c)).
Proof.
  split; intros tok w1 H.
  - destruct (amazon_getAccessToken_cache env w _ w1 H) as [_ [c [Hc Htok]]].
    exists c. split; [exact Hc |]. intros Hlt.
    rewrite (amazon_token_cached env w1 c Hc Hlt), Htok.
    eexists. split; [reflexivity |]. split; [reflexivity | exact Hc].
  - destruct (ml_getAccessToken_cache env w _ w1 H) as [_ [c [Hc Htok]]].
    exists c. split; [exact Hc |]. intros Hlt.
    rewrite (ml_token_cached env w1 c Hc Hlt), Htok.
    eexists. split; [reflexivity |]. split; [reflexivity | exact Hc].
Qed.

Lemma token_reused_until_expiry_witness :
  exists w2,
    Amazon.getAccessToken calmEnv
      (snd (Amazon.getAccessToken calmEnv (initialWorld [])))
    = (Returned "amz-token", w2)
    /\ sent w2 = sent (snd (Amazon.getAccessToken calmEnv (initialWorld []))).
Proof.
  destruct (proj1 (token_reused_until_expiry calmEnv (initialWorld []))
              "amz-token" _ (surjective_pairing _)) as [c [Hc Hnext]].
  vm_compute in Hc. inversion Hc; subst c.
  destruct (Hnext ltac:(vm_compute; reflexivity)) as [w2 [H2 [Hs _]]].
  exists w2. split; [exact H2 | exact Hs].
Defined.

(** X6. When the cached Mercado Libre token is stale, the exchange sends
    the refresh token kept in the cache (the one the last exchange
    returned) rather than the configured one; the configured
    [ML_REFRESH_TOKEN] is used only when the cache holds none or an empty
    one. *)
Theorem ml_refresh_token_precedence env w c
    (Hcached : cachedMLToken w = Some c)
    (Hstale : mlStale env w) :
  (forall rotated,
      mc_refreshToken c = Some rotated -> rotated <> "" ->
      forall o w',
        MercadoLibre.getAccessToken env w = (o, w') ->
        sent w' = (sent w ++
          [MLTokenPost (ML_CLIENT_ID (process_env env))
                       (ML_CLIENT_SECRET (process_env env)) rotated])%list)
  /\ (truthy (mc_refreshToken c) = false ->
      forall configured,
        ML_REFRESH_TOKEN (process_env env) = Some configured ->
        configured <> "" ->
        forall o w',
          MercadoLibre.getAccessToken env w = (o, w') ->
          sent w' = (sent w ++
            [MLTokenPost (ML_CLIENT_ID (process_env env))
                         (ML_CLIENT_SECRET (process_env env)) configured])%list).
Proof.
  split.
  - intros rotated Hr Hne o w' Hrun.
    rewrite (ml_stale_renews env w Hstale) in Hrun.
    assert (Hcred : mlRefreshCredential env w = Some rotated).
    { unfold mlRefreshCredential, orElse. rewrite Hcached, Hr.
      destruct rotated; [congruence | reflexivity]. }
    rewrite (ml_renew_with_credential env w _ rotated Hcred Hne) in Hrun.
    apply ml_exchange_sends_one in Hrun. exact Hrun.
  - intros Hnone configured Hconf Hne o w' Hrun.
    rewrite (ml_stale_renews env w Hstale) in Hrun.
    assert (Hcred : mlRefreshCredential env w = Some configured).
    { unfold mlRefreshCredential, orElse. rewrite Hcached, Hnone. exact Hconf. }
    rewrite (ml_renew_with_credential env w _ configured Hcred Hne) in Hrun.
    apply ml_exchange_sends_one in Hrun. exact Hrun.
Qed.

Lemma ml_refresh_token_precedence_witness :
  sent (snd (MercadoLibre.getAccessToken calmEnv (cachedWorld 7)))
  = [MLTokenPost (Some "ml-id") (Some "ml-secret") "ml-refresh-1"].
Proof.
  refine (proj1 (ml_refresh_token_precedence calmEnv (cachedWorld 7)
                   (mkMLCache "old-ml" (Some "ml-refresh-1") 5000) eq_refl _)
            "ml-refresh-1" eq_refl _ _ _ (surjective_pairing _)).
  - unfold mlStale. simpl. lia.
  - discriminate.
Defined.

(** ** Batches: empty table, failed listing, failed log *)

(** X7. On an empty product table, with the listing read and the log
    written, either reconciliation returns success with no details, sends
    nothing, and logs one [success] entry with zero counts. *)
Theorem sync_of_empty_table env w
    (Hempty : products w = [])
    (Hlist : dbFault env (tick w) FindMany = None)
    (Hlog : dbFault env (S (tick w)) CreateSyncLog = None) :
  (exists w',
      Sync.syncAllInventory env w =
      (Returned
         (mkSyncResult true
            "Sincronización completada. 0 productos actualizados. Ventas detectadas: 0"
            []), w')
      /\ sent w' = sent w /\ products w' = []
      /\ syncLogs w' =
         (syncLogs w ++
          [mkSyncLog "success"
             "Sincronizados 0/0 productos. Ventas detectadas: 0"
             (SalesDetails []) (dateNow env (S (tick w)))])%list)
  /\ (exists w',
         SyncOverwrite.syncAllInventory env w =
         (Returned
            (mkSyncResult true
               "Sincronización completada. 0 productos actualizados, 0 errores."
               []), w')
         /\ sent w' = sent w /\ products w' = []
         /\ syncLogs w' =
            (syncLogs w ++
             [mkSyncLog "success" "Sincronizados 0/0 productos"
                (PushDetails []) (dateNow env (S (tick w)))])%list).
Proof.
  split.
  - rewrite sales_sync_closed. unfold salesBatch. rewrite Hlist, Hempty.
    cbn [runAll tick set_tick]. rewrite Hlog.
    eexists. split; [reflexivity |].
    cbn [sent products syncLogs set_syncLogs set_tick].
    repeat split; assumption || reflexivity.
  - rewrite push_sync_closed. unfold pushBatch. rewrite Hlist, Hempty.
    cbn [runAll tick set_tick]. rewrite Hlog.
    eexists. split; [reflexivity |].
    cbn [sent products syncLogs set_syncLogs set_tick].
    repeat split; assumption || reflexivity.
Qed.

Lemma sync_of_empty_table_witness :
  exists w',
    Sync.syncAllInventory calmEnv (initialWorld []) =
    (Returned
       (mkSyncResult true
          "Sincronización completada. 0 productos actualizados. Ventas detectadas: 0"
          []), w')
    /\ sent w' = [].
Proof.
  destruct (proj1 (sync_of_empty_table calmEnv (initialWorld [])
                     eq_refl eq_refl eq_refl)) as [w' [Hrun [Hsent _]]].
  exists w'. split; [exact Hrun | exact Hsent].
Defined.



Lemma recovered_raised {D} env e (ds : list D) w e2 w' :
  recovered env e ds w = (Raised e2, w') ->
  stringifyFault env e = Some e2
  \/ dbFault env (tick w) CreateSyncLog = Some e2.
Proof.
  unfold recovered. destruct (stringifyFault env e) as [e1 |].
  - intros H. inversion H. left. reflexivity.
  - destruct (dbFault env (tick w) CreateSyncLog);
      intros H; inversion H. right. reflexivity.
Qed.

(** What makes a closed-form batch raise: an insertion into the log that
    raised on behalf of the [catch], or the serialisation of the error
    that reached the [catch] (from the listing or from the log). *)
Lemma batch_raised {D} env (step : Product -> M D)
    (finish : list D -> World -> Outcome (SyncResult D) * World) w e w' :
  match dbFault env (tick w) FindMany with
  | Some e0 => recovered env e0 [] (set_tick (S (tick w)) w)
  | None =>
      let (ds, w2) := runAll step (products w) (set_tick (S (tick w)) w) in
      match dbFault env (tick w2) CreateSyncLog with
      | Some e0 => recovered env e0 ds (set_tick (S (tick w2)) w2)
      | None => finish ds w2
      end
  end = (Raised e, w') ->
  (forall ds w2 e1 w3, finish ds w2 <> (Raised e1, w3)) ->
  (exists t, dbFault env t CreateSyncLog = Some e)
  \/ (exists t e0,
         (dbFault env t FindMany = Some e0 \/ dbFault env t CreateSyncLog = Some e0)
         /\ stringifyFault env e0 = Some e).
Proof.
  intros H Hfinish.
  destruct (dbFault env (tick w) FindMany) as [e0 |] eqn:Hlist.
  - apply recovered_raised in H. destruct H as [H | H]; [right | left; eauto].
    exists (tick w), e0. split; [left; exact Hlist | exact H].
  - destruct (runAll step (products w) (set_tick (S (tick w)) w)) as [ds w2].
    destruct (dbFault env (tick w2) CreateSyncLog) as [e0 |] eqn:Hlog.
    + apply recovered_raised in H. destruct H as [H | H]; [right | left; eauto].
      exists (tick w2), e0. split; [right; exact Hlog | exact H].
    + exfalso. exact (Hfinish _ _ _ _ H).
Qed.

Lemma sales_sync_raised_by_handler env w e w' :
  Sync.syncAllInventory env w = (Raised e, w') ->
  (exists t, dbFault env t CreateSyncLog = Some e)
  \/ (exists t e0,
         (dbFault env t FindMany = Some e0 \/ dbFault env t CreateSyncLog = Some e0)
         /\ stringifyFault env e0 = Some e).
Proof.
  rewrite sales_sync_closed. unfold salesBatch. intros H.
  eapply (batch_raised env (Sync.processProduct env)
            (fun ds w2 => (Returned _, _))); [exact H |].
  intros ds w2 e1 w3. discriminate.
Qed.

Lemma sales_sync_returns_with_log env w :
  (forall t, dbFault env t CreateSyncLog = None) ->
  listingSerialises env ->
  exists res w' log,
    Sync.syncAllInventory env w = (Returned res, w')
    /\ syncLogs w' = (syncLogs w ++ [log])%list.
Proof.
  intros Hlog Hser. rewrite sales_sync_closed. unfold salesBatch, recovered.
  destruct (dbFault env (tick w) FindMany) as [e0 |] eqn:Hlist.
  - rewrite (Hser _ _ Hlist), Hlog.
    eexists. eexists. eexists. split; reflexivity.
  - destruct (runAll (Sync.processProduct env) (products w)
                (set_tick (S (tick w)) w)) as [ds w2] eqn:Hloop.
    rewrite Hlog. eexists. eexists. eexists. split; [reflexivity |].
    cbn [syncLogs set_syncLogs set_tick].
    replace w2 with (snd (runAll (Sync.processProduct env) (products w)
                            (set_tick (S (tick w)) w))) at 1
      by (rewrite Hloop; reflexivity).
    rewrite sales_loop_logs. reflexivity.
Qed.

(** X9. A reconciliation raises only from its outer [catch]: when the
    insertion of the [error] entry into the log raised, with that very
    error, or when [JSON.stringify] raised on the error that reached the
    [catch] (the error of the listing or of the batch's log insertion).
    When the log accepts its insertions and an error of the listing can be
    serialised, it always returns a result and adds exactly one log entry,
    whatever else fails. *)
Theorem sync_raises_only_from_its_handler env w :
  (forall e w',
      Sync.syncAllInventory env w = (Raised e, w') ->
      (exists t, dbFault env t CreateSyncLog = Some e)
      \/ (exists t e0,
             (dbFault env t FindMany = Some e0
              \/ dbFault env t CreateSyncLog = Some e0)
             /\ stringifyFault env e0 = Some e))
  /\ (forall e w',
        SyncOverwrite.syncAllInventory env w = (Raised e, w') ->
        (exists t, dbFault env t CreateSyncLog = Some e)
        \/ (exists t e0,
               (dbFault env t FindMany = Some e0
                \/ dbFault env t CreateSyncLog = Some e0)
               /\ stringifyFault env e0 = Some e))
  /\ ((forall t, dbFault env t CreateSyncLog = None) ->
      listingSerialises env ->
      (exists res w' log,
          Sync.syncAllInventory env w = (Returned res, w')
          /\ syncLogs w' = (syncLogs w ++ [log])%list)
      /\ (exists res w' log,
             SyncOverwrite.syncAllInventory env w = (Returned res, w')
             /\ syncLogs w' = (syncLogs w ++ [log])%list)).
Proof.
  split; [| split].
  - intros e w' H. exact (sales_sync_raised_by_handler env w e w' H).
  - intros e w'. rewrite push_sync_closed. unfold pushBatch. intros H.
    eapply (batch_raised env (SyncOverwrite.processProduct env)
              (fun ds w2 => (Returned _, _))); [exact H |].
    intros ds w2 e1 w3. discriminate.
  - intros Hlog Hser. split.
    + exact (sales_sync_returns_with_log env w Hlog Hser).
    + rewrite push_sync_closed. unfold pushBatch, recovered.
      destruct (dbFault env (tick w) FindMany) as [e0 |] eqn:Hlist.
      * rewrite (Hser _ _ Hlist), Hlog.
        eexists. eexists. eexists. split; reflexivity.
      * destruct (runAll (SyncOverwrite.processProduct env) (products w)
                    (set_tick (S (tick w)) w)) as [ds w2] eqn:Hloop.
        rewrite Hlog. eexists. eexists. eexists. split; [reflexivity |].
        cbn [syncLogs set_syncLogs set_tick].
        replace w2 with (snd (runAll (SyncOverwrite.processProduct env) (products w)
                                (set_tick (S (tick w)) w))) at 1
          by (rewrite Hloop; reflexivity).
        rewrite push_loop_logs. reflexivity.
Qed.

Lemma sync_raises_only_from_its_handler_witness :
  exists res w' log,
    Sync.syncAllInventory listingDownEnv (initialWorld [tracked]) = (Returned res, w')
    /\ syncLogs w' = ([] ++ [log])%list.
Proof.
  apply (proj1 (proj2 (proj2 (sync_raises_only_from_its_handler listingDownEnv
                                (initialWorld [tracked])))
                  (fun _ => eq_refl) (fun _ _ _ => eq_refl))).
Defined.



(** ** What a sales-delta batch sends and stores *)

Lemma sales_processProduct_sends env p w d w' :
  Sync.processProduct env p w = (Returned d, w') ->
  extends (allowed p (newQty d)) w w'.
Proof.
  intros Hrun.
  destruct (sales_iteration env p w)
    as (curA & w1 & curB & w2 & upA & w3 & upB & w4
        & HA & HB & HpA & HpB & _ & Hstep).
  destruct (Prisma.product_update env (prod_id p)
              (Sync.syncedRow
                 (Z.max 0 (warehouseQty p
                    - (Z.max 0 (amazonQty p - curA) + Z.max 0 (mlQty p - curB))))
                 (dateNow env (tick w4)))
              (set_tick (S (tick w4)) w4)) as [o5 w5] eqn:Hupd.
  rewrite (Hstep o5 w5 eq_refl) in Hrun. inversion Hrun; subst d w'.
  cbn [newQty].
  eapply extends_trans;
    [eapply (readAmazon_extends (allowed p _)); simpl; auto; exact HA |].
  eapply extends_trans;
    [eapply (readML_extends (allowed p _)); simpl; auto; exact HB |].
  eapply extends_trans; [eapply pushAmazon_extends; exact HpA |].
  eapply extends_trans; [eapply pushML_extends; exact HpB |].
  eapply extends_trans;
    [apply (extends_same _ w4 (set_tick (S (tick w4)) w4)); reflexivity |].
  eapply product_update_extends. exact Hupd.
Qed.

Lemma sales_detail_sound env p w d w' :
  Sync.processProduct env p w = (Returned d, w') ->
  soundDetail d /\ previousQty d = warehouseQty p.
Proof.
  intros Hrun.
  destruct (sales_iteration env p w)
    as (curA & w1 & curB & w2 & upA & w3 & upB & w4
        & _ & _ & _ & _ & _ & Hstep).
  destruct (Prisma.product_update env (prod_id p)
              (Sync.syncedRow
                 (Z.max 0 (warehouseQty p
                    - (Z.max 0 (amazonQty p - curA) + Z.max 0 (mlQty p - curB))))
                 (dateNow env (tick w4)))
              (set_tick (S (tick w4)) w4)) as [o5 w5] eqn:Hupd.
  rewrite (Hstep o5 w5 eq_refl) in Hrun. inversion Hrun; subst d w'.
  unfold soundDetail. cbn [amazonSales mlSales newQty previousQty].
  repeat split; lia.
Qed.

Lemma allowed_nonNegativeWrite p q r :
  0 <= q -> allowed p q r -> nonNegativeWrite r.
Proof.
  intros Hq. destruct r; simpl; auto.
  - intros [_ ->]. exact Hq.
  - intros [_ ->]. exact Hq.
Qed.

Lemma sales_sync_after env w o w' :
  Sync.syncAllInventory env w = (o, w') ->
  (dbFault env (tick w) FindMany <> None /\ sameTraffic w w')
  \/ (dbFault env (tick w) FindMany = None
      /\ sameTraffic
           (snd (runAll (Sync.processProduct env) (products w)
                   (set_tick (S (tick w)) w))) w').
Proof.
  unfold Sync.syncAllInventory, Sync.mainBlock.
  apply batch_after.
  - apply sales_processProduct_returns.
  - intros ds.
    apply keeps_bind;
      [apply onWorld_trans; apply sameTraffic_trans
      | apply keeps_lift, syncLog_create_traffic |].
    intros _. apply keeps_ret. intros s; split; reflexivity.
  - intros e.
    apply keeps_bind;
      [apply onWorld_trans; apply sameTraffic_trans
      | apply keeps_lift, stringify_keeps; intros s; split; reflexivity |].
    intros det.
    apply keeps_bind;
      [apply onWorld_trans; apply sameTraffic_trans
      | apply keeps_lift, syncLog_create_traffic |].
    intros _.
    apply keeps_bind; [apply onWorld_trans; apply sameTraffic_trans | |].
    + intros s o' s' H. inversion H; subst. split; reflexivity.
    + intros ds. apply keeps_ret. intros s; split; reflexivity.
Qed.

(** X11. Every write request of a sales-delta iteration names the product
    (its SKU on Amazon, its item id on Mercado Libre) and carries the new
    quantity of that iteration; so a whole batch, however it ends, never
    asks a marketplace to set a negative quantity, and never addresses a
    variation. *)
Theorem sales_writes_are_clamped env w :
  (forall p d w',
      Sync.processProduct env p w = (Returned d, w') ->
      extends (allowed p (newQty d)) w w' /\ 0 <= newQty d)
  /\ (forall o w',
        Sync.syncAllInventory env w = (o, w') ->
        extends nonNegativeWrite w w').
Proof.
  split.
  - intros p d w' Hrun. split.
    + exact (sales_processProduct_sends env p w d w' Hrun).
    + destruct (sales_detail_sound env p w d w' Hrun) as [[_ [_ [H _]]] _].
      exact H.
  - intros o w' Hrun.
    destruct (sales_sync_after env w o w' Hrun) as [[_ [Hs _]] | [_ [Hs _]]].
    + apply extends_same. exact Hs.
    + eapply extends_trans;
        [apply (extends_same _ w (set_tick (S (tick w)) w)); reflexivity |].
      eapply extends_trans; [| apply extends_same; exact Hs].
      apply (runAll_keeps (extends nonNegativeWrite)).
      * apply extends_refl.
      * apply extends_trans.
      * intros p w0 o0 w0' Hp.
        destruct (sales_processProduct_returns env p w0) as [d [w1 Hd]].
        rewrite Hd in Hp. inversion Hp; subst o0 w0'.
        apply (extends_weaken (allowed p (newQty d))).
        -- intros r. apply allowed_nonNegativeWrite.
           destruct (sales_detail_sound env p w0 d w1 Hd) as [[_ [_ [H _]]] _].
           exact H.
        -- exact (sales_processProduct_sends env p w0 d w1 Hd).
Qed.

Lemma sales_writes_are_clamped_witness :
  extends (allowed tracked 96) (initialWorld [tracked])
    (snd (Sync.processProduct calmEnv tracked (initialWorld [tracked]))).
Proof.
  apply (proj1 (proj1 (sales_writes_are_clamped calmEnv (initialWorld [tracked]))
                  tracked (mkSalesDetail "SKU-1" 100 96 3 1 true true None)
                  _ ltac:(vm_compute; reflexivity))).
Defined.

Lemma rowsUpdated_nth id data rows i :
  nth_error (rowsUpdated id data rows) i
  = option_map (fun r => if Prisma.hasId id r then data r else r)
      (nth_error rows i).
Proof. unfold rowsUpdated. apply nth_error_map. Qed.

(** X12. An iteration of the sales-delta loop rewrites no row but those
    with the product's id: the table keeps its length, every other row
    stays where and as it was, and a row with the product's id is either
    left alone (the update raised) or gets the iteration's new quantity in
    all three quantity columns. *)
Theorem iteration_rewrites_only_its_row env p w d w'
    (Hrun : Sync.processProduct env p w = (Returned d, w')) :
  List.length (products w') = List.length (products w)
  /\ forall i r,
      nth_error (products w) i = Some r ->
      (prod_id r <> prod_id p -> nth_error (products w') i = Some r)
      /\ (prod_id r = prod_id p ->
          (sd_error d <> None /\ nth_error (products w') i = Some r)
          \/ (sd_error d = None
              /\ exists now,
                  nth_error (products w') i
                  = Some (Sync.syncedRow (newQty d) now r))).
Proof.
  destruct (sales_iteration env p w)
    as (curA & w1 & curB & w2 & upA & w3 & upB & w4
        & _ & _ & _ & _ & [Hps _] & Hstep).
  destruct (Prisma.product_update env (prod_id p)
              (Sync.syncedRow
                 (Z.max 0 (warehouseQty p
                    - (Z.max 0 (amazonQty p - curA) + Z.max 0 (mlQty p - curB))))
                 (dateNow env (tick w4)))
              (set_tick (S (tick w4)) w4)) as [o5 w5] eqn:Hupd.
  rewrite (Hstep o5 w5 eq_refl) in Hrun. inversion Hrun; subst d w'.
  destruct (product_update_rows env _ _ _ _ _ Hupd) as [_ Hrows].
  cbn [products set_tick] in Hrows. rewrite Hps in Hrows.
  cbn [sd_error newQty].
  destruct o5 as [row | e]; cbn [recordedError]; rewrite Hrows.
  - split; [unfold rowsUpdated; apply length_map |].
    intros i r Hi. rewrite rowsUpdated_nth, Hi. cbn [option_map].
    unfold Prisma.hasId.
    destruct (String.eqb_spec (prod_id r) (prod_id p)) as [Heq | Hne].
    + split; [intros H; contradiction |].
      intros _. right. split; [reflexivity |]. eexists. reflexivity.
    + split; [reflexivity | intros H; contradiction].
  - split; [reflexivity |].
    intros i r Hi. split; [intros _; exact Hi |].
    intros _. left. split; [discriminate | exact Hi].
Qed.

Lemma iteration_rewrites_only_its_row_witness :
  nth_error
    (products (snd (Sync.processProduct calmEnv zinc (initialWorld [zinc; acetone]))))
    1
  = Some acetone.
Proof.
  refine (proj1 (proj2 (iteration_rewrites_only_its_row calmEnv zinc
                          (initialWorld [zinc; acetone]) _ _
                          (surjective_pairing _))
                   1%nat acetone eq_refl) _).
  discriminate.
Defined.

(** X13. A product with neither an ASIN nor an item id (missing or empty)
    causes no request at all: both flags stay [false], both sales are 0, the
    new quantity is max(0, warehouse), and the product does not count as
    synced; its row is still rewritten, so its recorded marketplace
    quantities become that new quantity. *)
Theorem unlisted_product_is_only_rewritten env p w
    (Hasin : truthy (amazonAsin p) = false)
    (Hitem : truthy (mlItemId p) = false) :
  forall o w5,
    Prisma.product_update env (prod_id p)
      (Sync.syncedRow (Z.max 0 (warehouseQty p)) (dateNow env (tick w)))
      (set_tick (S (tick w)) w) = (o, w5) ->
    Sync.processProduct env p w =
    (Returned
       (mkSalesDetail (sku p) (warehouseQty p) (Z.max 0 (warehouseQty p))
          0 0 false false (recordedError o)), w5)
    /\ sent w5 = sent w
    /\ Sync.counted
         (mkSalesDetail (sku p) (warehouseQty p) (Z.max 0 (warehouseQty p))
            0 0 false false (recordedError o)) = false.
Proof.
  intros o w5 Hupd.
  destruct (sales_iteration env p w)
    as (curA & w1 & curB & w2 & upA & w3 & upB & w4
        & HA & HB & HpA & HpB & _ & Hstep).
  rewrite (readAmazon_unset env p w Hasin) in HA. inversion HA; subst curA w1.
  rewrite (readML_unset env p w Hitem) in HB. inversion HB; subst curB w2.
  unfold pushAmazon in HpA. rewrite Hasin in HpA. inversion HpA; subst upA w3.
  assert (HpB' : pushML env p
                   (Z.max 0 (warehouseQty p
                      - (Z.max 0 (amazonQty p - amazonQty p)
                         + Z.max 0 (mlQty p - mlQty p)))) w
                 = (Returned false, w)).
  { unfold pushML. destruct (mlItemId p) as [[| a s] |]; try reflexivity.
    discriminate. }
  rewrite HpB' in HpB. inversion HpB; subst upB w4.
  assert (Hq : Z.max 0 (warehouseQty p
                 - (Z.max 0 (amazonQty p - amazonQty p)
                    + Z.max 0 (mlQty p - mlQty p)))
               = Z.max 0 (warehouseQty p)) by lia.
  rewrite Hq in Hstep. rewrite !Z.sub_diag in Hstep.
  change (Z.max 0 0) with 0 in Hstep.
  split; [exact (Hstep o w5 Hupd) |].
  split.
  - destruct (product_update_extends (fun _ => True) env _ _ _ _ _ Hupd)
      as [extra [Hs _]].
    unfold Prisma.product_update, dbCall, bind, interact, gets, modify, ret,
      throw in Hupd.
    cbn [tick set_tick] in Hupd.
    destruct (dbFault env (S (tick w)) _); [inversion Hupd; reflexivity |].
    cbn [products set_tick] in Hupd.
    destruct (find _ (products w)); inversion Hupd; reflexivity.
  - unfold Sync.counted. cbn. destruct (negb _); reflexivity.
Qed.

Lemma unlisted_product_is_only_rewritten_witness :
  Sync.processProduct calmEnv unlisted (initialWorld [unlisted])
  = (Returned (mkSalesDetail "SKU-7" 12 12 0 0 false false None),
     snd (Sync.processProduct calmEnv unlisted (initialWorld [unlisted])))
  /\ map amazonQty
       (products (snd (Sync.processProduct calmEnv unlisted (initialWorld [unlisted]))))
     = [12].
Proof.
  destruct (unlisted_product_is_only_rewritten calmEnv unlisted
              (initialWorld [unlisted]) eq_refl eq_refl _ _
              (surjective_pairing _)) as [Hrun _].
  split.
  - rewrite Hrun. vm_compute. reflexivity.
  - rewrite Hrun. vm_compute. reflexivity.
Defined.

(** ** What a sales-delta batch keeps *)

Lemma product_update_sameIdentity env id data :
  (forall r, identityKey (data r) = identityKey r) ->
  keeps sameIdentity (Prisma.product_update env id data).
Proof.
  intros Hdata w o w' H.
  destruct (product_update_rows env id data w o w' H) as [_ Hrows].
  unfold sameIdentity. destruct o; rewrite Hrows; [| reflexivity].
  unfold rowsUpdated. rewrite map_map. apply map_ext.
  intros r. destruct (Prisma.hasId id r); [apply Hdata | reflexivity].
Qed.

(** X14. A reconciliation of either kind, however it ends, creates and
    deletes no product row and changes no row's id, SKU, name, ASIN or
    item id; the row order stays too. *)
Theorem sync_keeps_row_identity env w :
  (forall o w', Sync.syncAllInventory env w = (o, w') -> sameIdentity w w')
  /\ (forall o w',
        SyncOverwrite.syncAllInventory env w = (o, w') -> sameIdentity w w').
Proof.
  assert (Htrans : forall a b c,
             sameIdentity a b -> sameIdentity b c -> sameIdentity a c)
    by (unfold sameIdentity; congruence).
  assert (Hprod : forall a b, products b = products a -> sameIdentity a b)
    by (unfold sameIdentity; intros a b ->; reflexivity).
  split; intros o w' Hrun.
  - refine (sales_sync_keeps sameIdentity _ Htrans Hprod env _ w o w' Hrun).
    + intros a. reflexivity.
    + intros p q now _. apply product_update_sameIdentity. reflexivity.
  - refine (push_sync_keeps env sameIdentity _ Htrans Hprod _ w o w' Hrun).
    + intros a. reflexivity.
    + intros p a m now. apply product_update_sameIdentity. reflexivity.
Qed.

Lemma sync_keeps_row_identity_witness :
  map prod_id
    (products (snd (Sync.syncAllInventory calmEnv (initialWorld [zinc; acetone]))))
  = ["p1"; "p2"].
Proof.
  pose proof (proj1 (sync_keeps_row_identity calmEnv (initialWorld [zinc; acetone]))
                _ _ (surjective_pairing _)) as H.
  unfold sameIdentity in H.
  apply (f_equal (map (fun k => fst (fst (fst (fst k)))))) in H.
  rewrite !map_map in H. exact H.
Defined.






(** ** The route handlers *)

Lemma session_absent env w :
  serverSession env (tick w) = false ->
  Routes.getServerSession env w = (Returned false, set_tick (S (tick w)) w).
Proof.
  intros H. unfold Routes.getServerSession, bind, interact, ret. rewrite H.
  reflexivity.
Qed.

Lemma session_present env w :
  serverSession env (tick w) = true ->
  Routes.getServerSession env w = (Returned true, set_tick (S (tick w)) w).
Proof.
  intros H. unfold Routes.getServerSession, bind, interact, ret. rewrite H.
  reflexivity.
Qed.

(** X16. Without a session every handler that asks for one answers 401
    and does nothing else: no database call, no request to a marketplace,
    no reconciliation; the state differs only by the one session lookup. *)
Theorem no_session_no_effect renv w
    (Hanon : serverSession (base renv) (tick w) = false) :
  Routes.GET (base renv) w = (Returned Routes.Status401, set_tick (S (tick w)) w)
  /\ (forall body,
        Routes.POST (base renv) body w
        = (Returned Routes.Status401, set_tick (S (tick w)) w))
  /\ (forall id body,
        Routes.PUT (base renv) id body w
        = (Returned Routes.Status401, set_tick (S (tick w)) w))
  /\ (forall id,
        Triggers.DELETE renv id w
        = (Returned Routes.Status401, set_tick (S (tick w)) w))
  /\ Triggers.POST renv w = (Returned Routes.Status401, set_tick (S (tick w)) w)
  /\ untouched w (set_tick (S (tick w)) w).
Proof.
  pose proof (session_absent (base renv) w Hanon) as Hs.
  repeat split.
  - unfold Routes.GET. rewrite (bind_returned _ _ _ _ _ Hs). reflexivity.
  - intros body. unfold Routes.POST. rewrite (bind_returned _ _ _ _ _ Hs).
    reflexivity.
  - intros id body. unfold Routes.PUT. rewrite (bind_returned _ _ _ _ _ Hs).
    reflexivity.
  - intros id. unfold Triggers.DELETE. rewrite (bind_returned _ _ _ _ _ Hs).
    reflexivity.
  - unfold Triggers.POST. rewrite (bind_returned _ _ _ _ _ Hs). reflexivity.
Qed.

Lemma no_session_no_effect_witness :
  Triggers.POST anonymousRoutes (initialWorld [tracked])
  = (Returned Routes.Status401, set_tick 1 (initialWorld [tracked])).
Proof.
  exact (proj1 (proj2 (proj2 (proj2 (proj2
           (no_session_no_effect anonymousRoutes (initialWorld [tracked])
              eq_refl)))))).
Defined.

Lemma PUT_with_session env id body w :
  serverSession env (tick w) = true ->
  Routes.PUT env id body w =
  match body with
  | Raised _ => (Returned Routes.Status500, set_tick (S (tick w)) w)
  | Returned warehouseQty =>
      match Prisma.product_update env id (Routes.editedRow warehouseQty)
              (set_tick (S (tick w)) w) with
      | (Returned product, w') => (Returned (Routes.Json product), w')
      | (Raised _, w') => (Returned Routes.Status500, w')
      end
  end.
Proof.
  intros Hs. unfold Routes.PUT.
  rewrite (bind_returned _ _ _ _ _ (session_present env w Hs)). cbn [negb].
  unfold tryCatch, bind, liftOutcome, ret.
  destruct body as [q | e]; [| reflexivity].
  destruct (Prisma.product_update env id (Routes.editedRow q) _) as [[p | e] w'];
    reflexivity.
Qed.

Lemma exceptWarehouse_edited q r :
  exceptWarehouse (Routes.editedRow q r) = exceptWarehouse r.
Proof. destruct q; reflexivity. Qed.

(** X17. The manual edit never raises and contacts no marketplace.  It
    writes nothing but the warehouse quantity of the rows with the given
    id: every other column of every row, the row order and the log stay as
    they are.  It answers with the edited row only if a row has that id;
    with 401 or 500 the table is unchanged. *)
Theorem manual_edit_scope env id body w :
  exists reply w',
    Routes.PUT env id body w = (Returned reply, w')
    /\ sent w' = sent w /\ syncLogs w' = syncLogs w
    /\ map exceptWarehouse (products w') = map exceptWarehouse (products w)
    /\ (forall i r,
          nth_error (products w) i = Some r -> prod_id r <> id ->
          nth_error (products w') i = Some r)
    /\ match reply with
       | Routes.Json product =>
           hasRow id (products w) /\ prod_id product = id
           /\ products w' = rowsUpdated id
                              (Routes.editedRow
                                 (match body with
                                  | Returned q => q
                                  | Raised _ => None
                                  end)) (products w)
       | _ => products w' = products w
       end.
Proof.
  destruct (serverSession env (tick w)) eqn:Hs.
  - rewrite (PUT_with_session env id body w Hs).
    destruct body as [q | e].
    + destruct (Prisma.product_update env id (Routes.editedRow q)
                  (set_tick (S (tick w)) w)) as [[p | e] w'] eqn:Hupd.
      * destruct (product_update_rows env _ _ _ _ _ Hupd) as [Hlogs Hrows].
        destruct (product_update_extends (fun _ => True) env _ _ _ _ _ Hupd)
          as [extra [Hsent _]].
        cbn [products syncLogs set_tick] in Hrows, Hlogs.
        assert (Hsame : sent w' = sent w).
        { unfold Prisma.product_update, dbCall, bind, interact, gets, modify,
            ret, throw in Hupd. cbn [tick set_tick] in Hupd.
          destruct (dbFault env (S (tick w)) _); [discriminate |].
          cbn [products set_tick] in Hupd.
          destruct (find _ (products w)); inversion Hupd; reflexivity. }
        assert (Hfound : exists row, find (Prisma.hasId id) (products w) = Some row
                                     /\ p = Routes.editedRow q row).
        { unfold Prisma.product_update, dbCall, bind, interact, gets, modify,
            ret, throw in Hupd. cbn [tick set_tick] in Hupd.
          destruct (dbFault env (S (tick w)) _); [discriminate |].
          cbn [products set_tick] in Hupd.
          destruct (find _ (products w)) as [row |]; inversion Hupd.
          eauto. }
        destruct Hfound as [row [Hfind ->]].
        apply find_some in Hfind. destruct Hfind as [Hin Hid].
        unfold Prisma.hasId in Hid. apply String.eqb_eq in Hid.
        eexists. eexists. split; [reflexivity |].
        split; [exact Hsame |]. split; [exact Hlogs |].
        rewrite Hrows. split.
        { unfold rowsUpdated. rewrite map_map. apply map_ext. intros r.
          destruct (Prisma.hasId id r);
            [apply exceptWarehouse_edited | reflexivity]. }
        split.
        { intros i r Hi Hne. rewrite rowsUpdated_nth, Hi. cbn [option_map].
          unfold Prisma.hasId.
          destruct (String.eqb_spec (prod_id r) id); [contradiction | reflexivity]. }
        split; [exists row; auto |]. split; [| reflexivity].
        destruct q; simpl; exact Hid.
      * destruct (product_update_rows env _ _ _ _ _ Hupd) as [Hlogs Hrows].
        cbn [products syncLogs set_tick] in Hrows, Hlogs.
        assert (Hsame : sent w' = sent w).
        { unfold Prisma.product_update, dbCall, bind, interact, gets, modify,
            ret, throw in Hupd. cbn [tick set_tick] in Hupd.
          destruct (dbFault env (S (tick w)) _); [inversion Hupd; reflexivity |].
          cbn [products set_tick] in Hupd.
          destruct (find _ (products w)); inversion Hupd; reflexivity. }
        eexists. eexists. split; [reflexivity |].
        rewrite Hrows. repeat split; auto.
    + eexists. eexists. split; [reflexivity |]. repeat split; auto.
  - unfold Routes.PUT.
    rewrite (bind_returned _ _ _ _ _ (session_absent env w Hs)). cbn [negb].
    eexists. eexists. split; [reflexivity |]. repeat split; auto.
Qed.

Lemma manual_edit_scope_witness :
  exists reply w',
    Routes.PUT calmEnv "p1" (Returned (Some 42)) (initialWorld [zinc; acetone])
    = (Returned reply, w')
    /\ nth_error (products w') 1 = Some acetone.
Proof.
  destruct (manual_edit_scope calmEnv "p1" (Returned (Some 42))
              (initialWorld [zinc; acetone]))
    as (reply & w' & Hrun & _ & _ & _ & Hother & _).
  exists reply, w'. split; [exact Hrun |].
  apply (Hother 1%nat acetone eq_refl). discriminate.
Defined.

(** X18. Product creation never raises and contacts no marketplace.  When
    it answers with a product, that product is one new row appended to the
    table, with the submitted SKU, name and external ids, the submitted
    warehouse quantity or 0 when none (or 0) was submitted, the schema
    defaults in the two marketplace columns and no sync time; the earlier
    rows are unchanged.  With any other answer the table is unchanged. *)
Theorem creation_appends_one_row env body w :
  exists reply w',
    Routes.POST env body w = (Returned reply, w')
    /\ sent w' = sent w /\ syncLogs w' = syncLogs w
    /\ match reply with
       | Routes.Json product =>
           exists b,
             body = Returned b
             /\ products w' = (products w ++ [product])%list
             /\ sku product = Routes.body_sku b
             /\ name product = Routes.body_name b
             /\ warehouseQty product = orZero (Routes.body_warehouseQty b)
             /\ amazonQty product = schemaDefaultQty env
             /\ mlQty product = schemaDefaultQty env
             /\ amazonAsin product = Routes.body_amazonAsin b
             /\ mlItemId product = Routes.body_mlItemId b
             /\ lastSyncAt product = None
       | _ => products w' = products w
       end.
Proof.
  unfold Routes.POST, Routes.getServerSession.
  unfold bind at 1. unfold bind at 1. unfold interact, ret.
  destruct (serverSession env (tick w)); cbn [negb];
    [| eexists; eexists; split; [reflexivity |]; repeat split; reflexivity].
  unfold tryCatch, bind, liftOutcome, ret.
  destruct body as [b | e];
    [| eexists; eexists; split; [reflexivity |]; repeat split; reflexivity].
  unfold Prisma.product_create, bind, interact, modify, throw, ret.
  cbn [tick set_tick].
  destruct (dbFault env (S (tick w)) (CreateProduct (Routes.body_sku b)));
    [eexists; eexists; split; [reflexivity |]; repeat split; reflexivity |].
  eexists. eexists. split; [reflexivity |].
  split; [reflexivity |]. split; [reflexivity |].
  exists b. repeat split; reflexivity.
Qed.

Lemma latestSuccess_from logs :
  forall best,
    (forall b, best = Some b -> status b = "success") ->
    match fold_left
            (fun best l =>
               if String.eqb (status l) "success" then
                 match best with
                 | Some b => if createdAt b <? createdAt l then Some l else best
                 | None => Some l
                 end
               else best)
            logs best with
    | Some r =>
        status r = "success"
        /\ (best = Some r \/ In r logs)
        /\ (forall b, best = Some b -> createdAt b <= createdAt r)
        /\ (forall l, In l logs -> status l = "success" ->
                      createdAt l <= createdAt r)
    | None =>
        best = None /\ forall l, In l logs -> status l <> "success"
    end.
Proof.
  induction logs as [| l rest IH]; intros best Hbest; simpl.
  - destruct best as [b |].
    + split; [apply Hbest; reflexivity |]. split; [left; reflexivity |].
      split; [intros b' H; inversion H; lia | intros l [] ].
    + split; [reflexivity | intros l [] ].
  - destruct (String.eqb_spec (status l) "success") as [Hs | Hs].
    + destruct best as [b |].
      * destruct (Z.ltb_spec (createdAt b) (createdAt l)) as [Hlt | Hge].
        -- specialize (IH (Some l)).
           destruct (fold_left _ rest (Some l)) as [r |].
           ++ destruct IH as [Hr [Hor [Hb Hall]]];
                [intros b' H; inversion H; subst; exact Hs |].
              split; [exact Hr |]. split.
              { destruct Hor as [H | H];
                  [inversion H; subst; right; left; reflexivity
                  | right; right; exact H]. }
              split.
              { intros b' H. inversion H; subst.
                specialize (Hb l eq_refl). lia. }
              intros l' [-> | Hin] Hl'; [apply Hb; reflexivity | auto].
           ++ destruct IH as [H _];
                [intros b' H; inversion H; subst; exact Hs | discriminate].
        -- specialize (IH (Some b) Hbest).
           destruct (fold_left _ rest (Some b)) as [r |].
           ++ destruct IH as [Hr [Hor [Hb Hall]]].
              split; [exact Hr |]. split.
              { destruct Hor as [H | H]; [left; exact H | right; right; exact H]. }
              split; [exact Hb |].
              intros l' [-> | Hin] Hl'; [specialize (Hb b eq_refl); lia | auto].
           ++ destruct IH as [H _]. discriminate.
      * specialize (IH (Some l)).
        destruct (fold_left _ rest (Some l)) as [r |].
        -- destruct IH as [Hr [Hor [Hb Hall]]];
             [intros b' H; inversion H; subst; exact Hs |].
           split; [exact Hr |]. split.
           { destruct Hor as [H | H];
               [inversion H; subst; right; left; reflexivity
               | right; right; exact H]. }
           split; [intros b' H; discriminate |].
           intros l' [-> | Hin] Hl'; [apply Hb; reflexivity | auto].
        -- destruct IH as [H _];
             [intros b' H; inversion H; subst; exact Hs | discriminate].
    + specialize (IH best Hbest).
      destruct (fold_left _ rest best) as [r |].
      * destruct IH as [Hr [Hor [Hb Hall]]].
        split; [exact Hr |]. split.
        { destruct Hor as [H | H]; [left; exact H | right; right; exact H]. }
        split; [exact Hb |].
        intros l' [-> | Hin] Hl'; [contradiction | auto].
      * destruct IH as [Hnone Hall]. split; [exact Hnone |].
        intros l' [-> | Hin]; [exact Hs | auto].
Qed.

Lemma GET_lastSync env w ps lastSync w' :
  Routes.GET env w = (Returned (Routes.Json (ps, lastSync)), w') ->
  lastSync = option_map createdAt (Prisma.latestSuccess (syncLogs w))
  /\ untouched w w'.
Proof.
  unfold Routes.GET, Routes.getServerSession.
  unfold bind at 1. unfold bind at 1. unfold interact, ret.
  destruct (serverSession env (tick w)); simpl; [| discriminate].
  unfold tryCatch, Prisma.product_findMany_orderBy_sku,
    Prisma.syncLog_findFirst_success, dbCall, bind, interact, gets, throw, ret.
  simpl.
  destruct (dbFault env (S (tick w)) FindManyOrdered); simpl; [discriminate |].
  destruct (dbFault env (S (S (tick w))) FindFirstSyncLog); simpl;
    [discriminate |].
  intros H. inversion H. split; [reflexivity |]. repeat split; reflexivity.
Qed.

(** X19. The dashboard listing only reads: it changes nothing but the
    count of interactions.  Its [lastSync] is the creation time of the most
    recent log entry with status [success]; entries with status [partial]
    or [error] never count, and it is [null] exactly when no entry has
    status [success]. *)
Theorem listing_reports_latest_success env w ps lastSync w'
    (Hget : Routes.GET env w = (Returned (Routes.Json (ps, lastSync)), w')) :
  untouched w w'
  /\ (lastSync = None <->
      forall l, In l (syncLogs w) -> status l <> "success")
  /\ (forall t,
        lastSync = Some t ->
        exists l,
          In l (syncLogs w) /\ status l = "success" /\ createdAt l = t
          /\ forall l', In l' (syncLogs w) -> status l' = "success" ->
                        createdAt l' <= t).
Proof.
  destruct (GET_lastSync env w ps lastSync w' Hget) as [-> Hsame].
  split; [exact Hsame |].
  pose proof (latestSuccess_from (syncLogs w) None
                ltac:(intros b H; discriminate)) as Hspec.
  fold (Prisma.latestSuccess (syncLogs w)) in Hspec.
  destruct (Prisma.latestSuccess (syncLogs w)) as [r |]; cbn [option_map].
  - destruct Hspec as [Hr [Hor [_ Hall]]].
    destruct Hor as [H | Hin]; [discriminate |].
    split.
    + split; [discriminate |]. intros Hnone. exfalso. exact (Hnone r Hin Hr).
    + intros t H. inversion H; subst. exists r. auto.
  - destruct Hspec as [_ Hnone]. split.
    + split; [intros _; exact Hnone | reflexivity].
    + intros t H. discriminate.
Qed.

Lemma listing_reports_latest_success_witness :
  fst (Routes.GET calmEnv (mkWorld 0 None None [zinc] someLogs []))
  = Returned (Routes.Json ([zinc], Some 20))
  /\ exists l,
      In l someLogs /\ status l = "success" /\ createdAt l = 20
      /\ forall l', In l' someLogs -> status l' = "success" -> createdAt l' <= 20.
Proof.
  split; [vm_compute; reflexivity |].
  apply (proj2 (proj2
           (listing_reports_latest_success calmEnv
              (mkWorld 0 None None [zinc] someLogs []) [zinc] (Some 20)
              (snd (Routes.GET calmEnv (mkWorld 0 None None [zinc] someLogs [])))
              ltac:(vm_compute; reflexivity))) 20 eq_refl).
Defined.

(** ** The triggers *)






(** ** Deleting a product *)

(** X22. Deleting a product never raises and contacts no marketplace.
    When it answers success, a row had the given id and the table is the
    old one without the rows of that id, the others in their order; with
    any other answer (no session, no such row, database failure) the table
    is unchanged.  The log is never touched. *)
Theorem delete_removes_only_that_row env_routes id w :
  exists reply w',
    Triggers.DELETE env_routes id w = (Returned reply, w')
    /\ sent w' = sent w /\ syncLogs w' = syncLogs w
    /\ match reply with
       | Routes.Json _ =>
           hasRow id (products w)
           /\ products w'
              = filter (fun r => negb (Prisma.hasId id r)) (products w)
           /\ ~ hasRow id (products w')
           /\ (forall r, In r (products w) -> prod_id r <> id ->
                         In r (products w'))
       | _ => products w' = products w
       end.
Proof.
  unfold Triggers.DELETE, Routes.getServerSession.
  unfold bind at 1. unfold bind at 1. unfold interact, ret.
  destruct (serverSession (base env_routes) (tick w)); cbn [negb];
    [| eexists; eexists; split; [reflexivity |]; repeat split; reflexivity].
  unfold tryCatch, Triggers.product_delete, bind, interact, gets, modify,
    throw, ret.
  cbn [tick set_tick].
  destruct (deleteFault env_routes (S (tick w)) id);
    [eexists; eexists; split; [reflexivity |]; repeat split; reflexivity |].
  cbn [products set_tick].
  destruct (find (Prisma.hasId id) (products w)) as [row |] eqn:Hfind;
    [| eexists; eexists; split; [reflexivity |]; repeat split; reflexivity].
  eexists. eexists. split; [reflexivity |].
  split; [reflexivity |]. split; [reflexivity |].
  cbn [products set_products].
  apply find_some in Hfind. destruct Hfind as [Hin Hid].
  unfold Prisma.hasId in Hid. apply String.eqb_eq in Hid.
  split; [exists row; auto |]. split; [reflexivity |]. split.
  - intros [r [Hr Hrid]]. apply filter_In in Hr. destruct Hr as [_ Hneg].
    unfold Prisma.hasId in Hneg. rewrite Hrid, String.eqb_refl in Hneg.
    discriminate.
  - intros r Hr Hne. apply filter_In. split; [exact Hr |].
    unfold Prisma.hasId.
    destruct (String.eqb_spec (prod_id r) id); [contradiction | reflexivity].
Qed.

(** ** The two Mercado Libre clients *)

(** X23. The client without variations is the client with variations
    called without a variation id, or with an empty one: same result, same
    requests, same state, for reads and for writes. *)
Theorem simple_client_agrees env itemId q w :
  MercadoLibreSimple.getMLInventory env itemId w
  = MercadoLibre.getMLInventory env itemId None w
  /\ MercadoLibreSimple.getMLInventory env itemId w
     = MercadoLibre.getMLInventory env itemId (Some "") w
  /\ MercadoLibreSimple.updateMLInventory env itemId q w
     = MercadoLibre.updateMLInventory env itemId q None w
  /\ MercadoLibreSimple.updateMLInventory env itemId q w
     = MercadoLibre.updateMLInventory env itemId q (Some "") w.
Proof.
  assert (Hread : forall variationId,
             variationId = None \/ variationId = Some "" ->
             MercadoLibreSimple.getMLInventory env itemId w
             = MercadoLibre.getMLInventory env itemId variationId w).
  { intros variationId Hv.
    unfold MercadoLibreSimple.getMLInventory, MercadoLibre.getMLInventory,
      MercadoLibreSimple.getAccessToken, tryCatch.
    destruct (MercadoLibre.getAccessToken env w) as [[tok | e] w1] eqn:Htok.
    - rewrite !(bind_returned _ _ _ _ _ Htok).
      unfold bind at 1 3. rewrite !fetch_run.
      destruct (mlItemEndpoint env (tick w1) (MLItemGet tok itemId)) as [r | e];
        [| reflexivity].
      destruct (ok r); [| reflexivity]. cbn [negb].
      unfold bind, liftOutcome, ret.
      destruct (json r) as [data | e]; [| reflexivity].
      destruct Hv as [-> | ->]; reflexivity.
    - rewrite !(bind_raised _ _ _ _ _ Htok). reflexivity. }
  split; [apply Hread; left; reflexivity |].
  split; [apply Hread; right; reflexivity |].
  split; reflexivity.
Qed.

(** [getMLInventory] once the token is there. *)
Lemma getMLInventory_with_token env itemId variationId w tok w1 :
  MercadoLibre.getAccessToken env w = (Returned tok, w1) ->
  MercadoLibre.getMLInventory env itemId variationId w =
  (Returned
     match mlItemEndpoint env (tick w1) (MLItemGet tok itemId) with
     | Returned r =>
         if ok r then
           match json r with
           | Returned data =>
               match variationId, variations data with
               | Some (String a s), Some (v :: vs) =>
                   match MercadoLibre.findVariation (String a s) (v :: vs) with
                   | Some variation =>
                       Some (orZero (var_available_quantity variation))
                   | None => None
                   end
               | _, _ => Some (orZero (available_quantity data))
               end
           | Raised _ => None
           end
         else None
     | Raised _ => None
     end,
   afterRequest (MLItemGet tok itemId) w1).
Proof.
  intros Htok. unfold MercadoLibre.getMLInventory, tryCatch.
  rewrite (bind_returned _ _ _ _ _ Htok).
  unfold bind at 1. rewrite fetch_run.
  destruct (mlItemEndpoint env (tick w1) (MLItemGet tok itemId)) as [r | e];
    [| reflexivity].
  destruct (ok r); [| reflexivity]. cbn [negb].
  unfold bind, liftOutcome, ret.
  destruct (json r) as [data | e]; [| reflexivity].
  destruct variationId as [[| a s] |]; try reflexivity.
  destruct (variations data) as [[| v vs] |]; try reflexivity.
  destruct (MercadoLibre.findVariation (String a s) (v :: vs)); reflexivity.
Qed.

(** X24. [getMLInventory] returns a quantity only when the token was
    obtained and the item request was answered with success and a parsable
    body; the quantity is then the item's [available_quantity] or, the
    variation ids being safe integers, that of a variation whose id prints
    as the requested id (0 for a missing field), and exactly one request,
    for that item, follows the token's.  After a
    token failure, a network failure, a non-success status or an
    unparsable body it returns [null]. *)
Theorem ml_read_quantity_only_if env itemId variationId w :
  (safeIds env ->
   forall q,
      fst (MercadoLibre.getMLInventory env itemId variationId w)
      = Returned (Some q) ->
      exists tok w1 r data,
        MercadoLibre.getAccessToken env w = (Returned tok, w1)
        /\ mlItemEndpoint env (tick w1) (MLItemGet tok itemId) = Returned r
        /\ ok r = true
        /\ json r = Returned data
        /\ (q = orZero (available_quantity data)
            \/ exists vs v,
                variations data = Some vs /\ In v vs
                /\ Some (toString (var_id v)) = variationId
                /\ q = orZero (var_available_quantity v))
        /\ sent (snd (MercadoLibre.getMLInventory env itemId variationId w))
           = (sent w1 ++ [MLItemGet tok itemId])%list)
  /\ ((forall tok w1 r data,
         MercadoLibre.getAccessToken env w = (Returned tok, w1) ->
         mlItemEndpoint env (tick w1) (MLItemGet tok itemId) = Returned r ->
         ok r = true -> json r = Returned data -> False) ->
      fst (MercadoLibre.getMLInventory env itemId variationId w) = Returned None).
Proof.
  destruct (MercadoLibre.getAccessToken env w) as [[tok | e] w1] eqn:Htok.
  - rewrite (getMLInventory_with_token env itemId variationId w tok w1 Htok).
    cbn [fst snd].
    destruct (mlItemEndpoint env (tick w1) (MLItemGet tok itemId))
      as [r | e] eqn:Hresp.
    + destruct (ok r) eqn:Hok.
      * destruct (json r) as [data | e] eqn:Hjson.
        -- split.
           ++ intros _ q Hq. exists tok, w1, r, data.
              repeat (split; [assumption || reflexivity |]).
              split; [| reflexivity].
              destruct variationId as [[| a s] |];
                try (inversion Hq; left; reflexivity).
              destruct (variations data) as [[| v vs] |] eqn:Hvar;
                try (inversion Hq; left; reflexivity).
              destruct (MercadoLibre.findVariation (String a s) (v :: vs))
                as [found |] eqn:Hfind; [| discriminate].
              inversion Hq; subst q.
              apply findVariation_some in Hfind. destruct Hfind as [Hin Hid].
              right. exists (v :: vs), found.
              repeat split; try assumption; try reflexivity.
              rewrite Hid. reflexivity.
           ++ intros Hfail. exfalso.
              exact (Hfail tok w1 r data eq_refl Hresp Hok Hjson).
        -- split; [intros _ q Hq; discriminate | reflexivity].
      * split; [intros _ q Hq; discriminate | reflexivity].
    + split; [intros _ q Hq; discriminate | reflexivity].
  - rewrite (proj1 (ml_calls_absorb env w e w1 itemId variationId 0 Htok)).
    split; [intros _ q Hq; discriminate | reflexivity].
Qed.

Lemma ml_read_quantity_only_if_witness :
  fst (MercadoLibre.getMLInventory deniedEnv "MLM1" (Some "2") (initialWorld []))
  = Returned None.
Proof.
  apply (proj2 (ml_read_quantity_only_if deniedEnv "MLM1" (Some "2")
                  (initialWorld []))).
  intros tok w1 r data Htok. vm_compute in Htok. discriminate.
Defined.

Lemma creation_appends_one_row_witness :
  exists reply w',
    Routes.POST calmEnv
      (Returned (Routes.mkPostBody "SKU-9" "Resina" None (Some "B009") None))
      (initialWorld [tracked])
    = (Returned reply, w')
    /\ sent w' = [].
Proof.
  destruct (creation_appends_one_row calmEnv
              (Returned (Routes.mkPostBody "SKU-9" "Resina" None (Some "B009") None))
              (initialWorld [tracked]))
    as (reply & w' & Hrun & Hsent & _).
  exists reply, w'. split; [exact Hrun | exact Hsent].
Defined.

Lemma delete_removes_only_that_row_witness :
  exists reply w',
    Triggers.DELETE (calmRoutes None) "p1" (initialWorld [zinc; acetone])
    = (Returned reply, w')
    /\ syncLogs w' = [].
Proof.
  destruct (delete_removes_only_that_row (calmRoutes None) "p1"
              (initialWorld [zinc; acetone]))
    as (reply & w' & Hrun & _ & Hlogs & _).
  exists reply, w'. split; [exact Hrun | exact Hlogs].
Defined.
